(** * PyNCulture: shapes, areas and neuron seeding ([shape.py])

    A shallow embedding of [Shape], [Area] and [_PDict] and of the
    collaborators they call (shapely's affine scaling, numpy's scalar
    arithmetic, [copy.deepcopy]), followed by the properties of the
    specification stated and settled on that embedding.

    Python objects live in a heap of cells addressed by locations, so that
    aliasing between a [Shape], its [_areas] dictionary and the [Area]
    objects stored there is explicit.  Python floats are IEEE binary64
    numbers ([spec_float] at precision 53). *)

From Stdlib Require Import ZArith String List Bool Lia.
From Stdlib Require Import Floats.SpecFloat.
From stdpp Require Import gmap strings list fin_maps pretty.

Open Scope string_scope.

(** ** Binary64 floats *)

Module F.

Definition float := spec_float.

Definition prec : Z := 53.
Definition emax : Z := 1024.

Definition add : float -> float -> float := SFadd prec emax.
Definition sub : float -> float -> float := SFsub prec emax.
Definition mul : float -> float -> float := SFmul prec emax.
Definition div : float -> float -> float := SFdiv prec emax.
Definition sqrt : float -> float := SFsqrt prec emax.
Definition opp : float -> float := SFopp.

(** [a == b], [a < b], [a <= b] on floats: false whenever a NaN is involved. *)
Definition eqb : float -> float -> bool := SFeqb.
Definition ltb : float -> float -> bool := SFltb.
Definition leb : float -> float -> bool := SFleb.

Definition of_Z (z : Z) : float := binary_normalize prec emax z 0 false.

Definition zero : float := S754_zero false.
Definition one : float := Eval vm_compute in of_Z 1.
Definition two : float := Eval vm_compute in of_Z 2.
Definition half : float := Eval vm_compute in div (of_Z 1) (of_Z 2).
Definition inf : float := S754_infinity false.
Definition neg_inf : float := S754_infinity true.
Definition nan : float := S754_nan.

(** [np.pi] and the literal [0.99], each the nearest binary64 number. *)
Definition pi : float := S754_finite false 7074237752028440 (-51).
Definition c0_99 : float := Eval vm_compute in div (of_Z 99) (of_Z 100).

Definition is_nan (x : float) : bool :=
  match x with S754_nan => true | _ => false end.

Definition is_finite (x : float) : bool :=
  match x with S754_zero _ | S754_finite _ _ _ => true | _ => false end.

Definition is_zero (x : float) : bool :=
  match x with S754_zero _ => true | _ => false end.

(** Python's builtin two-argument [max] and [min]: the first argument is
    kept unless the second is strictly greater (smaller). *)
Definition py_max (a b : float) : float := if ltb a b then b else a.
Definition py_min (a b : float) : float := if ltb b a then b else a.

(** [np.min] and [np.max] of a one-dimensional array: a NaN propagates. *)
Definition np_min2 (a b : float) : float :=
  if is_nan a then a else if is_nan b then b else if ltb b a then b else a.
Definition np_max2 (a b : float) : float :=
  if is_nan a then a else if is_nan b then b else if ltb a b then b else a.

Definition np_min (l : list float) : option float :=
  match l with
  | [] => None
  | x :: r => Some (fold_left np_min2 r x)
  end.
Definition np_max (l : list float) : option float :=
  match l with
  | [] => None
  | x :: r => Some (fold_left np_max2 r x)
  end.

#[global] Instance float_eq_dec : EqDecision float.
Proof. solve_decision. Defined.

End F.

Abbreviation float := F.float.

(** ** Python values, exceptions and the heap *)

Definition loc := positive.

Inductive pyval :=
| VNone
| VFloat (x : float)
| VStr (s : string)
| VRef (l : loc)
| VGlobal (name : string).   (* a module-level object: class, function, module *)

#[global] Instance pyval_eq_dec : EqDecision pyval.
Proof. solve_decision. Defined.

Inductive exn :=
| NameError (name : string)
| UnboundLocalError (name : string)
| AssertionError (msg : string)
| ValueError (msg : string)
| TypeError (msg : string)
| AttributeError (msg : string)
| IndexError (msg : string)
| KeyError (key : string)
| ReferenceError
| OverflowError (msg : string)
| NotImplementedError (msg : string).

#[global] Instance exn_eq_dec : EqDecision exn.
Proof. solve_decision. Defined.

(** [UnboundLocalError] is a subclass of [NameError]. *)
Definition is_NameError (e : exn) : bool :=
  match e with NameError _ | UnboundLocalError _ => true | _ => false end.

(** A point and a polygon as shapely stores them: an exterior ring and the
    rings of its holes. *)
Definition point := (float * float)%type.

Record Polygon := mkPolygon {
  exterior : list point;
  interiors : list (list point)
}.

#[global] Instance Polygon_eq_dec : EqDecision Polygon.
Proof. solve_decision. Defined.

(** A geometry returned by a shapely operation is a polygon or something
    else (a multi-polygon, a collection, a line ...). *)
Inductive geometry :=
| GPolygon (p : Polygon)
| GOther.

#[global] Instance geometry_eq_dec : EqDecision geometry.
Proof. solve_decision. Defined.

Inductive pyclass := ClsPolygon | ClsShape | ClsArea.

#[global] Instance pyclass_eq_dec : EqDecision pyclass.
Proof. solve_decision. Defined.

(** [issubclass(c, Area)] and [issubclass(c, Shape)]; every class here is a
    [Polygon]. *)
Definition is_Area_class (c : pyclass) : bool :=
  match c with ClsArea => true | _ => false end.
Definition is_Shape_class (c : pyclass) : bool :=
  match c with ClsPolygon => false | _ => true end.

(** An instance of [Polygon], [Shape] or [Area] with the attributes the
    module sets.  An attribute that was never assigned is [None] here. *)
Record instance := mkInstance {
  i_class : pyclass;
  i_geom : Polygon;
  i_parent : option nat;          (* [_parent]: a graph, by identifier *)
  i_unit : string;                (* [_unit] *)
  i_geom_type : string;           (* [_geom_type] *)
  i_areas : option loc;           (* [_areas] *)
  i_radius : option float;        (* [radius], set by [disk] *)
  i_radii : option (float * float);  (* [radii], set by [ellipse] *)
  i_height : option pyval;        (* [height] *)
  i_name : option pyval;          (* [name] *)
  i_prop : option loc             (* [_prop] *)
}.

(** Heap cells: a dictionary from names to objects (the [_areas] of a
    shape), a dictionary from property names to factors (a plain [dict]
    when the flag is false, a [_PDict] when it is true), or an instance. *)
Inductive cell :=
| CDict (d : gmap string pyval)
| CProps (pdict : bool) (d : gmap string float)
| CInst (o : instance).

(** The state a call runs in: the heap, the live parent graphs with their
    node counts, and numpy's random source (an infinite stream of samples
    of the unit interval, the read position, and the log of the
    [uniform(low, high, size)] requests served so far). *)
Record world := mkWorld {
  heap : gmap loc cell;
  graphs : gmap nat nat;
  rng_stream : nat -> float;
  rng_pos : nat;
  rng_log : list (float * float * nat)
}.

Definition set_heap (h : gmap loc cell) (w : world) : world :=
  mkWorld h (graphs w) (rng_stream w) (rng_pos w) (rng_log w).

(** ** The monad of Python calls

    A call returns a value, raises, or cannot be followed further by the
    model ([Stuck]: a loop ran out of the iterations it was given, the heap
    holds a reference to no object, or the call works on an object that the
    model was not handed).  The world is threaded through and survives an
    exception. *)

Inductive outcome (A : Type) :=
| Ok (a : A)
| Raise (e : exn)
| Stuck.

Arguments Ok {A} a.
Arguments Raise {A} e.
Arguments Stuck {A}.

Definition M (A : Type) : Type := world -> outcome A * world.

Definition ret {A} (a : A) : M A := fun w => (Ok a, w).
Definition raise {A} (e : exn) : M A := fun w => (Raise e, w).
Definition stuck {A} : M A := fun w => (Stuck, w).

Definition bind {A B} (m : M A) (k : A -> M B) : M B :=
  fun w =>
    match m w with
    | (Ok a, w') => k a w'
    | (Raise e, w') => (Raise e, w')
    | (Stuck, w') => (Stuck, w')
    end.

#[global] Instance M_ret : MRet M := @ret.
#[global] Instance M_bind : MBind M := fun A B k m => bind m k.
#[global] Instance M_fmap : FMap M := fun A B f m => bind m (fun a => ret (f a)).

Definition get_world : M world := fun w => (Ok w, w).
Definition put_heap (h : gmap loc cell) : M unit := fun w => (Ok tt, set_heap h w).

(** [assert c, msg], as run without [-O]. *)
Definition py_assert (c : bool) (msg : string) : M unit :=
  if c then ret tt else raise (AssertionError msg).

(** Allocation of a new object. *)
Definition fresh_loc (h : gmap loc cell) : loc := fresh (dom h).

Definition alloc (c : cell) : M loc :=
  fun w => let l := fresh_loc (heap w) in (Ok l, set_heap (<[l:=c]> (heap w)) w).

Definition read_cell (l : loc) : M cell :=
  fun w => match heap w !! l with
           | Some c => (Ok c, w)
           | None => (Stuck, w)
           end.

Definition write_cell (l : loc) (c : cell) : M unit :=
  fun w => (Ok tt, set_heap (<[l:=c]> (heap w)) w).

(** ** [_PDict] *)

Definition PDict_msg : string := "The property must be a positive real or NaN.".

(** The test of [_PDict.__setitem__]. *)
Definition nonneg_or_nan (v : float) : bool := F.leb F.zero v || F.is_nan v.

(** Every factor of a dictionary passes that test. *)
Definition factors_ok (d : gmap string float) : bool :=
  forallb (λ kv : string * float, nonneg_or_nan kv.2) (map_to_list d).

(** [_PDict.__getitem__]: the stored factor, or [1.] for a missing key. *)
Definition PDict_getitem (d : gmap string float) (key : string) : float :=
  match d !! key with
  | Some v => v
  | None => F.one
  end.

(** [_PDict.__setitem__]: [assert value >= 0 or np.isnan(value)], then the
    plain dictionary store. *)
Definition PDict_setitem (d : gmap string float) (key : string) (value : float)
  : exn + gmap string float :=
  if F.leb F.zero value || F.is_nan value
  then inr (<[key:=value]> d)
  else inl (AssertionError PDict_msg).

(** The same two methods on a dictionary object of the heap.  A plain
    [dict] raises [KeyError] on a missing key and stores anything. *)
Definition props_getitem (l : loc) (key : string) : M float :=
  c ← read_cell l;
  match c with
  | CProps true d => ret (PDict_getitem d key)
  | CProps false d =>
      match d !! key with
      | Some v => ret v
      | None => raise (KeyError key)
      end
  | _ => raise (TypeError "object is not subscriptable")
  end.

Definition props_setitem (l : loc) (key : string) (value : float) : M unit :=
  c ← read_cell l;
  match c with
  | CProps true d =>
      match PDict_setitem d key value with
      | inr d' => write_cell l (CProps true d')
      | inl e => raise e
      end
  | CProps false d => write_cell l (CProps false (<[key:=value]> d))
  | _ => raise (TypeError "object does not support item assignment")
  end.

(** ** Geometry: what shapely computes on coordinates *)

Definition lo2 (acc x : float) : float := if F.ltb x acc then x else acc.
Definition hi2 (acc x : float) : float := if F.ltb acc x then x else acc.

(** [geom.bounds]: [(minx, miny, maxx, maxy)] of the envelope, and the empty
    tuple for an empty geometry. *)
Definition bounds (p : Polygon) : option (float * float * float * float) :=
  match exterior p with
  | [] => None
  | (x, y) :: r =>
      Some (fold_left lo2 (r.*1) x, fold_left lo2 (r.*2) y,
            fold_left hi2 (r.*1) x, fold_left hi2 (r.*2) y)
  end.

(** [shapely.affinity.affine_transform] on one coordinate pair, with the
    matrix [(a, b, d, e, xoff, yoff)]. *)
Definition affine (a b d e xoff yoff : float) (pt : point) : point :=
  (F.add (F.add (F.mul a pt.1) (F.mul b pt.2)) xoff,
   F.add (F.add (F.mul d pt.1) (F.mul e pt.2)) yoff).

(** The coordinates [shapely.affinity.scale(geom, xfact, yfact)] computes,
    with its default origin, the centre of the bounding box; an empty
    geometry has none to compute. *)
Definition scale (p : Polygon) (xfact yfact : float) : Polygon :=
  match bounds p with
  | None => p
  | Some (minx, miny, maxx, maxy) =>
      let x0 := F.div (F.add maxx minx) F.two in
      let y0 := F.div (F.add maxy miny) F.two in
      let f := affine xfact F.zero F.zero yfact
                 (F.sub x0 (F.mul x0 xfact)) (F.sub y0 (F.mul y0 yfact)) in
      mkPolygon (map f (exterior p)) (map (map f) (interiors p))
  end.

Definition empty_polygon : Polygon := mkPolygon [] [].

(** A ring is closed on its first point when it is built, and a point with
    a NaN coordinate equals no point, itself included: such a ring does not
    close and is refused. *)
Definition nan_point (pt : point) : bool := F.is_nan pt.1 || F.is_nan pt.2.

Definition starts_nan (r : list point) : bool :=
  match r with
  | pt :: _ => nan_point pt
  | [] => false
  end.

(** A ring also needs three coordinate pairs. *)
Definition ring_ok (r : list point) : bool :=
  (3 <=? length r)%nat && negb (starts_nan r).

(** Both refusals are a [ValueError]; the model gives them the message
    of the first. *)
Definition ring_msg : string :=
  "A LinearRing must have at least 3 coordinate tuples".

(** [Polygon(shell, holes=holes)]; with no coordinates at all the polygon
    is the empty one. *)
Definition Polygon_new (shell : list point) (holes : list (list point)) : M Polygon :=
  match shell with
  | [] => ret empty_polygon
  | _ :: _ =>
      if ring_ok shell && forallb ring_ok holes
      then ret (mkPolygon shell holes)
      else raise (ValueError ring_msg)
  end.

(** No ring of the polygon starts with a NaN. *)
Definition rings_close (p : Polygon) : bool :=
  negb (starts_nan (exterior p)) && forallb (λ r, negb (starts_nan r)) (interiors p).

(** The call [scale(geom, xfact, yfact)]: an empty geometry is handed back
    as it is; otherwise the rings are built anew from the coordinates
    computed, so that a factor that is infinite or NaN, which makes the
    first point NaN, ends in the [ValueError] of the ring. *)
Definition shapely_scale (p : Polygon) (xfact yfact : float) : M Polygon :=
  match exterior p with
  | [] => ret p
  | _ :: _ =>
      if rings_close (scale p xfact yfact)
      then ret (scale p xfact yfact)
      else raise (ValueError ring_msg)
  end.

Definition scale_geom (g : geometry) (xfact yfact : float) : M geometry :=
  match g with
  | GPolygon p => GPolygon <$> shapely_scale p xfact yfact
  | GOther => ret GOther
  end.

(** The collaborators of the module that are not computed here: the boolean
    and metric operations of the geometry engine and
    [geom_utils.conversion_magnitude]. *)
Class Collaborators := {
  geom_intersection : Polygon -> Polygon -> geometry;   (* [a.intersection(b)] *)
  geom_difference : Polygon -> Polygon -> geometry;     (* [a.difference(b)] *)
  geom_overlaps : geometry -> Polygon -> bool;          (* [a.overlaps(b)] *)
  geom_buffer : geometry -> float -> geometry;          (* [a.buffer(d)] *)
  geom_contains : Polygon -> point -> bool;             (* [a.contains(Point(x, y))] *)
  point_buffer : point -> float -> geometry;            (* [Point(c).buffer(r)] *)
  conversion_magnitude : string -> string -> float
}.

(** ** Attribute access on instances *)

Definition set_geom (g : Polygon) (o : instance) : instance :=
  mkInstance (i_class o) g (i_parent o) (i_unit o) (i_geom_type o) (i_areas o)
             (i_radius o) (i_radii o) (i_height o) (i_name o) (i_prop o).
Definition set_parent_attr (p : option nat) (o : instance) : instance :=
  mkInstance (i_class o) (i_geom o) p (i_unit o) (i_geom_type o) (i_areas o)
             (i_radius o) (i_radii o) (i_height o) (i_name o) (i_prop o).
Definition set_geom_type (t : string) (o : instance) : instance :=
  mkInstance (i_class o) (i_geom o) (i_parent o) (i_unit o) t (i_areas o)
             (i_radius o) (i_radii o) (i_height o) (i_name o) (i_prop o).
Definition set_areas (d : option loc) (o : instance) : instance :=
  mkInstance (i_class o) (i_geom o) (i_parent o) (i_unit o) (i_geom_type o) d
             (i_radius o) (i_radii o) (i_height o) (i_name o) (i_prop o).
Definition set_radius (r : float) (o : instance) : instance :=
  mkInstance (i_class o) (i_geom o) (i_parent o) (i_unit o) (i_geom_type o) (i_areas o)
             (Some r) (i_radii o) (i_height o) (i_name o) (i_prop o).
Definition set_radii (r : float * float) (o : instance) : instance :=
  mkInstance (i_class o) (i_geom o) (i_parent o) (i_unit o) (i_geom_type o) (i_areas o)
             (i_radius o) (Some r) (i_height o) (i_name o) (i_prop o).
Definition set_area_attrs (height name : pyval) (prop : loc) (o : instance) : instance :=
  mkInstance (i_class o) (i_geom o) (i_parent o) (i_unit o) (i_geom_type o) (i_areas o)
             (i_radius o) (i_radii o) (Some height) (Some name) (Some prop).

Definition read_inst (l : loc) : M instance :=
  c ← read_cell l;
  match c with
  | CInst o => ret o
  | _ => raise (AttributeError "not a Shape")
  end.

Definition modify_inst (l : loc) (f : instance -> instance) : M unit :=
  o ← read_inst l; write_cell l (CInst (f o)).

(** Reading an attribute that may never have been assigned. *)
Definition getattr {A} (name : string) (a : option A) : M A :=
  match a with
  | Some x => ret x
  | None => raise (AttributeError name)
  end.

(** ** [Area.from_shape] and the constructors of [Shape]

    Objects that Python creates and drops within a call (the polygon [tmp]
    of [__init__], the object that [scale] initialises before its class is
    overwritten) are not part of the heap. *)

(** The scaling factor, as [from_polygon] and [from_shape] both compute it:
    [1.] unless both [min_x] and [max_x] are given.  [leftmost] and
    [rightmost] come out of a numpy array, so the quotient is numpy's: on a
    zero divisor it is an infinity or a NaN (with a warning), where a
    division of Python floats would raise.  Indexing the column of an array
    with no rows raises [IndexError]. *)
Definition find_scaling (p : Polygon) (min_x max_x : option float) : M float :=
  match min_x, max_x with
  | Some mn, Some mx =>
      let xs := (exterior p).*1 in
      match F.np_min xs, F.np_max xs with
      | Some leftmost, Some rightmost =>
          ret (F.div (F.sub mx mn) (F.sub rightmost leftmost))
      | _, _ => raise (IndexError "too many indices for array")
      end
  | _, _ => ret F.one
  end.

(** [deepcopy] of a dictionary of factors.  The copy of a plain [dict]
    has its entries as they are.  The copy of a [_PDict] is filled entry by
    entry through [__setitem__], whose test a factor that the constructor
    has stored may fail. *)
Definition can_copy (pdict : bool) (d : gmap string float) : bool :=
  negb pdict || factors_ok d.

(** [_PDict({} if properties is None else deepcopy(properties))]: a new
    [_PDict] holding the entries of [properties]; the constructor of [dict]
    stores them without going through [__setitem__]. *)
Definition new_PDict (properties : pyval) : M loc :=
  match properties with
  | VNone => alloc (CProps true ∅)
  | VRef l =>
      c ← read_cell l;
      match c with
      | CProps b d =>
          if can_copy b d then alloc (CProps true d)
          else raise (AssertionError PDict_msg)
      | _ => raise (TypeError "properties must map names to factors")
      end
  | _ => raise (TypeError "properties must be a dictionary")
  end.

(** [Area.from_shape]: builds the area [obj] and, having no [return]
    statement, returns [None].  The shape is handed over as a geometry: the
    area is the object [scale] has built, or, for an empty shape, which
    [scale] hands back, the object that was passed, which is one made for
    the call wherever this module calls [from_shape]. *)
Definition Area_from_shape (shape : geometry) (height name properties : pyval)
    (unit : string) (min_x max_x : option float) : M pyval :=
  match shape with
  | GOther => raise (AssertionError "Expected a Polygon object.")
  | GPolygon p =>
      scaling ← find_scaling p min_x max_x;
      g ← shapely_scale p scaling scaling;
      obj ← alloc (CInst (mkInstance ClsArea g None unit "Polygon" None None None
                            None None None));
      prop ← new_PDict properties;
      modify_inst obj (set_area_attrs height name prop);;
      ret VNone
  end.

(** The keyword defaults of [from_shape] and [from_polygon]. *)
Definition default_height : pyval := VFloat F.zero.
Definition default_unit : string := "um".

(** [from_polygon].  The polygon is handed over as a geometry, which is
    all the call reads of it when it is not empty: [scale] then builds the
    object [p2].  An empty polygon comes back from [scale] as the object it
    is, and the rest of the call would work on the caller's own polygon;
    the model, which has the geometry and not the object, does not follow
    such a call. *)
Definition Shape_from_polygon (cls : pyclass) (polygon : geometry)
    (min_x max_x : option float) (unit : string) (parent : option nat)
    (default_properties : pyval) : M loc :=
  match polygon with
  | GOther => raise (AssertionError "Expected a Polygon object.")
  | GPolygon p =>
      scaling ← find_scaling p min_x max_x;
      match exterior p with
      | [] => stuck
      | _ :: _ =>
          g2 ← shapely_scale p scaling scaling;
          p2 ← alloc (CInst (mkInstance cls g2 parent unit "Polygon" None None None
                               None None None));
          a ← Area_from_shape (GPolygon g2) default_height (VStr "default_area")
                default_properties default_unit None None;
          d ← alloc (CDict {["default_area" := a]});
          modify_inst p2 (set_areas (Some d));;
          ret p2
      end
  end.

(** [cls(shell, holes, unit, parent, default_properties)]: the object is
    created, then [Shape.__init__] runs on it. *)
Definition Shape_init (cls : pyclass) (shell : list point) (holes : list (list point))
    (unit : string) (parent : option nat) (default_properties : pyval) : M loc :=
  self ← alloc (CInst (mkInstance cls empty_polygon parent unit "Polygon" None None
                         None None None None));
  tmp ← Polygon_new shell holes;
  a ← Area_from_shape (GPolygon tmp) default_height (VStr "default_area")
        default_properties unit None None;
  d ← alloc (CDict {["default_area" := a]});
  modify_inst self (set_areas (Some d));;
  g ← Polygon_new shell holes;
  modify_inst self (set_geom g);;
  ret self.

(** [rectangle] calls [cls(points, unit=, parent=, default_properties=)],
    keywords that the constructor of [Area] does not have. *)
Definition Shape_rectangle (cls : pyclass) (height width : float) (centroid : point)
    (unit : string) (parent : option nat) (default_properties : pyval) : M loc :=
  let half_w := F.mul F.half width in
  let half_h := F.mul F.half height in
  let points := [ (F.add centroid.1 half_w, F.add centroid.2 half_h);
                  (F.add centroid.1 half_w, F.add centroid.2 (F.opp half_h));
                  (F.sub centroid.1 half_w, F.sub centroid.2 half_h);
                  (F.sub centroid.1 half_w, F.sub centroid.2 (F.opp half_h)) ] in
  shape ← (if is_Area_class cls
           then raise (TypeError "__init__() got an unexpected keyword argument 'parent'")
           else Shape_init cls points [] unit parent default_properties);
  modify_inst shape (set_geom_type "Rectangle");;
  ret shape.

(** [Area(shell, holes, unit, height, name, properties)] *)
Definition Area_init (shell : list point) (holes : list (list point)) (unit : string)
    (height name properties : pyval) : M loc :=
  self ← Shape_init ClsArea shell holes unit None VNone;
  prop ← new_PDict properties;
  modify_inst self (set_area_attrs height name prop);;
  ret self.

(** ** [copy.deepcopy]

    The copy of a dictionary is a new dictionary whose values are copies;
    the memo maps every object already copied to its copy, so that sharing
    and cycles are reproduced.  Floats, strings, [None], classes and
    functions are returned as they are.  A [Polygon] is copied from its
    coordinates.  A [Shape] or an [Area] cannot be copied: the copy is to
    be created by a call of the class without arguments, and [__init__]
    requires [shell].  [fuel] bounds the nesting depth of the walk. *)

Definition copy_state : Type := gmap loc loc * gmap loc cell.

Definition copier : Type := pyval -> copy_state -> outcome (pyval * copy_state).

Fixpoint copy_entries (f : copier) (l : list (string * pyval)) (st : copy_state)
  : outcome (list (string * pyval) * copy_state) :=
  match l with
  | [] => Ok ([], st)
  | (k, v) :: r =>
      match f v st with
      | Ok (v', st') =>
          match copy_entries f r st' with
          | Ok (r', st'') => Ok ((k, v') :: r', st'')
          | Raise e => Raise e
          | Stuck => Stuck
          end
      | Raise e => Raise e
      | Stuck => Stuck
      end
  end.

Definition init_msg : string :=
  "__init__() missing 1 required positional argument: 'shell'".

(** A [Polygon] with the attributes of none of its subclasses. *)
Definition bare_polygon (g : Polygon) : instance :=
  mkInstance ClsPolygon g None "" "Polygon" None None None None None None.

Fixpoint deepcopy_val (fuel : nat) (v : pyval) (st : copy_state)
  : outcome (pyval * copy_state) :=
  match v with
  | VRef l =>
      match st.1 !! l with
      | Some l' => Ok (VRef l', st)
      | None =>
          match fuel with
          | O => Stuck
          | S n =>
              let l' := fresh_loc st.2 in
              match st.2 !! l with
              | None => Stuck
              | Some (CProps b d) =>
                  if can_copy b d
                  then Ok (VRef l', (<[l:=l']> st.1, <[l':=CProps b d]> st.2))
                  else Raise (AssertionError PDict_msg)
              | Some (CDict d) =>
                  match copy_entries (deepcopy_val n) (map_to_list d)
                          (<[l:=l']> st.1, <[l':=CDict ∅]> st.2) with
                  | Ok (es, st') =>
                      Ok (VRef l', (st'.1, <[l':=CDict (list_to_map es)]> st'.2))
                  | Raise e => Raise e
                  | Stuck => Stuck
                  end
              | Some (CInst o) =>
                  if is_Shape_class (i_class o)
                  then Raise (TypeError init_msg)
                  else Ok (VRef l',
                           (<[l:=l']> st.1, <[l':=CInst (bare_polygon (i_geom o))]> st.2))
              end
          end
      end
  | _ => Ok (v, st)
  end.

(** The objects of a copy that is given up are dropped with it. *)
Definition deepcopy (v : pyval) : M pyval :=
  fun w =>
    match deepcopy_val (S (size (heap w))) v (∅, heap w) with
    | Ok (v', st) => (Ok v', set_heap st.2 w)
    | Raise e => (Raise e, w)
    | Stuck => (Stuck, w)
    end.

(** ** The [areas] property *)

(** [Shape.areas] returns [deepcopy(self._areas)]; [Area.areas] raises. *)
Definition Shape_areas (self : loc) : M pyval :=
  o ← read_inst self;
  if is_Area_class (i_class o)
  then raise (AttributeError "Areas do not have sub-Areas.")
  else d ← getattr "_areas" (i_areas o); deepcopy (VRef d).

(** ** Names and calls

    A name that a function body reads without binding it is looked up in
    the globals of the module, then in the builtins. *)
Definition module_globals : list string :=
  [ "__name__"; "__doc__"; "__file__"; "__all__"; "weakref"; "deepcopy"; "shapely";
    "loads"; "scale"; "Point"; "Polygon"; "np"; "uniform"; "pnc";
    "conversion_magnitude"; "Shape"; "Area"; "_PDict" ].

(** The builtins the module refers to. *)
Definition builtin_names : list string :=
  [ "len"; "isinstance"; "max"; "min"; "zip"; "super"; "dict"; "staticmethod";
    "classmethod"; "property"; "ValueError"; "AttributeError";
    "NotImplementedError"; "None"; "True"; "False" ].

Definition load_global (name : string) : M pyval :=
  if bool_decide (name ∈ (module_globals ++ builtin_names)%list)
  then ret (VGlobal name)
  else raise (NameError name).

(** Reading a local variable that no executed statement has assigned. *)
Definition load_local {A} (name : string) (v : option A) : M A :=
  match v with
  | Some x => ret x
  | None => raise (UnboundLocalError name)
  end.

(** Binding the arguments of a call to the parameters of a function, each
    parameter given with its default if it has one. *)
Definition bind_keyword (params : list string) (acc : exn + gmap string pyval)
    (kv : string * pyval) : exn + gmap string pyval :=
  match acc with
  | inl e => inl e
  | inr env =>
      if bool_decide (kv.1 ∈ params)
      then match env !! kv.1 with
           | Some _ => inl (TypeError "got multiple values for argument")
           | None => inr (<[kv.1:=kv.2]> env)
           end
      else inl (TypeError "got an unexpected keyword argument")
  end.

Definition bind_default (acc : exn + gmap string pyval)
    (p : string * option pyval) : exn + gmap string pyval :=
  match acc with
  | inl e => inl e
  | inr env =>
      match env !! p.1, p.2 with
      | Some _, _ => inr env
      | None, Some d => inr (<[p.1:=d]> env)
      | None, None => inl (TypeError "missing a required positional argument")
      end
  end.

Definition bind_args (params : list (string * option pyval)) (pos : list pyval)
    (kw : list (string * pyval)) : exn + gmap string pyval :=
  if (length params <? length pos)%nat
  then inl (TypeError "takes fewer positional arguments than were given")
  else
    let env0 : gmap string pyval := list_to_map (zip (params.*1) pos) in
    foldl bind_default (foldl (bind_keyword (params.*1)) (inr env0) kw) params.

Definition arg (env : gmap string pyval) (name : string) : pyval :=
  default VNone (env !! name).

(** ** Objects as operands *)

Definition is_None (v : pyval) : bool :=
  match v with VNone => true | _ => false end.

(** The instance behind a value, for an attribute access [v.attr]. *)
Definition as_inst (attr : string) (v : pyval) : M instance :=
  match v with
  | VRef l =>
      c ← read_cell l;
      match c with
      | CInst o => ret o
      | _ => raise (AttributeError attr)
      end
  | _ => raise (AttributeError attr)
  end.

(** The geometry behind a value handed to a shapely operation, which reads
    its attribute [_geom]. *)
Definition as_geom (v : pyval) : M Polygon :=
  match v with
  | VRef l =>
      c ← read_cell l;
      match c with
      | CInst o => ret (i_geom o)
      | _ => raise (AttributeError "_geom")
      end
  | _ => raise (AttributeError "_geom")
  end.

(** [isinstance(v, Area)] *)
Definition isinstance_Area (v : pyval) : M bool :=
  match v with
  | VRef l =>
      c ← read_cell l;
      match c with
      | CInst o => ret (is_Area_class (i_class o))
      | _ => ret false
      end
  | _ => ret false
  end.

Definition read_dict (l : loc) : M (gmap string pyval) :=
  c ← read_cell l;
  match c with
  | CDict d => ret d
  | _ => raise (TypeError "not a dictionary of areas")
  end.

(** [d[key] = v] and [d[key]] on a dictionary of areas, whose keys are
    strings. *)
Definition dict_setitem (l : loc) (key : pyval) (v : pyval) : M unit :=
  d ← read_dict l;
  match key with
  | VStr k => write_cell l (CDict (<[k:=v]> d))
  | _ => raise (TypeError "area names are strings")
  end.

Definition dict_getitem (l : loc) (key : string) : M pyval :=
  d ← read_dict l;
  match d !! key with
  | Some v => ret v
  | None => raise (KeyError key)
  end.

Section WithCollaborators.

Context {CO : Collaborators}.

Definition Shape_disk (cls : pyclass) (radius : float) (centroid : point)
    (unit : string) (parent : option nat) (default_properties : pyval) : M loc :=
  let minx := F.sub centroid.1 radius in
  let maxx := F.add centroid.1 radius in
  disk ← Shape_from_polygon cls (point_buffer centroid radius) (Some minx) (Some maxx)
           unit parent default_properties;
  modify_inst disk (set_geom_type "Disk");;
  modify_inst disk (set_radius radius);;
  ret disk.

Definition Shape_ellipse (cls : pyclass) (radii : float * float) (centroid : point)
    (unit : string) (parent : option nat) (default_properties : pyval) : M loc :=
  let minx := F.sub centroid.1 radii.1 in
  let maxx := F.add centroid.1 radii.1 in
  stretched ← scale_geom (point_buffer centroid F.one) radii.1 radii.2;
  ellipse ← Shape_from_polygon cls stretched (Some minx) (Some maxx) unit parent
              default_properties;
  modify_inst ellipse (set_geom_type "Ellipse");;
  modify_inst ellipse (set_radii radii);;
  ret ellipse.

(** ** [Shape.add_area]

    The function is declared as [add_area(area, height=None, name=None,
    properties=None)]: these four names are its only local variables, and
    every [self] in its body is a global name. *)

Definition overlap_msg : string := "Areas of a given Shape should not overlap.".

(** [self._areas], with [self] read as the body reads it. *)
Definition self_areas : M loc :=
  self ← load_global "self";
  s ← as_inst "_areas" self;
  getattr "_areas" (i_areas s).

(** The loop over [self._areas.items()]. *)
Fixpoint check_overlaps (intersection : geometry) (items : list (string * pyval))
  : M unit :=
  match items with
  | [] => ret tt
  | (key, existing_area) :: r =>
      (if bool_decide (key ≠ "default_area")
       then g ← as_geom existing_area;
            py_assert (negb (geom_overlaps intersection g)) overlap_msg
       else ret tt);;
      check_overlaps intersection r
  end.

(** [area.height if isinstance(area, Area) else 0.] and
    [area.properties if isinstance(area, Area) else {}] *)
Definition inherited_height (area : pyval) : M pyval :=
  b ← isinstance_Area area;
  match b with
  | true => o ← as_inst "height" area; getattr "height" (i_height o)
  | false => ret (VFloat F.zero)
  end.

Definition inherited_properties (area : pyval) : M pyval :=
  b ← isinstance_Area area;
  match b with
  | true => o ← as_inst "properties" area; VRef <$> getattr "_prop" (i_prop o)
  | false => VRef <$> alloc (CProps false ∅)
  end.

Definition Shape_add_area (area height name properties : pyval) : M pyval :=
  name ← (if is_None name
          then d ← self_areas; areas ← read_dict d;
               ret (VStr ("area" +:+ pretty (size areas)))
          else ret name);
  self ← load_global "self";
  s ← as_inst "intersection" self;
  a ← as_geom area;
  let intersection := geom_intersection (i_geom s) a in
  d ← self_areas;
  areas ← read_dict d;
  check_overlaps intersection (map_to_list areas);;
  height ← (if is_None height then inherited_height area else ret height);
  properties ← (if is_None properties then inherited_properties area
                else ret properties);
  new_area ← Area_from_shape intersection height name properties default_unit None None;
  d ← self_areas;
  dict_setitem d name new_area;;
  d ← self_areas;
  default_area ← dict_getitem d "default_area";
  da ← as_inst "difference" default_area;
  na ← as_geom new_area;
  let new_default := geom_difference (i_geom da) na in
  h ← getattr "height" (i_height da);
  p ← getattr "_prop" (i_prop da);
  v ← Area_from_shape new_default h (VStr "default_area") (VRef p) default_unit None None;
  d ← self_areas;
  dict_setitem d (VStr "default_area") v;;
  ret VNone.

Definition add_area_params : list (string * option pyval) :=
  [ ("area", None); ("height", Some VNone); ("name", Some VNone);
    ("properties", Some VNone) ].

(** A call of the function with positional and keyword arguments. *)
Definition call_add_area (pos : list pyval) (kw : list (string * pyval)) : M pyval :=
  match bind_args add_area_params pos kw with
  | inl e => raise e
  | inr env =>
      Shape_add_area (arg env "area") (arg env "height") (arg env "name")
                     (arg env "properties")
  end.

(** [s.add_area(...)]: the bound method passes [s] as first positional
    argument. *)
Definition invoke_add_area (s : loc) (pos : list pyval) (kw : list (string * pyval))
  : M pyval :=
  call_add_area (VRef s :: pos) kw.

(** ** [Shape.seed_neurons] *)

(** [numpy.random.uniform(low, high, size)]: [size] samples of the unit
    interval, each mapped to [low + (high - low) * u].  A request is served
    only when [high - low] is finite, and is refused with [OverflowError]
    otherwise. *)
Definition finite_range (low high : float) : bool := F.is_finite (F.sub high low).

Definition samples (low high : float) (size : nat) (w : world) : list float :=
  map (λ i, F.add low (F.mul (F.sub high low) (rng_stream w (rng_pos w + i))))
      (seq 0 size).

Definition advance (low high : float) (size : nat) (w : world) : world :=
  mkWorld (heap w) (graphs w) (rng_stream w) (rng_pos w + size)
          (rng_log w ++ [(low, high, size)]).

Definition uniform (low high : float) (size : nat) : M (list float) :=
  fun w =>
    if finite_range low high
    then (Ok (samples low high size w), advance low high size w)
    else (Raise (OverflowError "Range exceeds valid bounds"), w).

(** [self._parent.node_nb()], through the weak reference. *)
Definition node_nb (g : nat) : M nat :=
  fun w =>
    match graphs w !! g with
    | Some n => (Ok n, w)
    | None => (Raise ReferenceError, w)
    end.

(** Equality of [(xmin, ymin, xmax, ymax)] with [self.bounds]. *)
Definition bounds_eqb (t : float * float * float * float)
    (b : option (float * float * float * float)) : bool :=
  match t, b with
  | (a1, a2, a3, a4), Some (b1, b2, b3, b4) =>
      F.eqb a1 b1 && F.eqb a2 b2 && F.eqb a3 b3 && F.eqb a4 b4
  | _, None => false
  end.

(** The local variables of [seed_neurons] that only some branches assign. *)
Record frame := mkFrame {
  f_min_x : option float;
  f_min_y : option float;
  f_max_x : option float;
  f_max_y : option float;
  f_container : pyval
}.

(** The [for] loop over the candidates of one batch. *)
Fixpoint accept (seed_area : Polygon) (cands : list point) (points : list point)
  : list point :=
  match cands with
  | [] => points
  | c :: r =>
      accept seed_area r (if geom_contains seed_area c then points ++ [c] else points)
  end.

(** The [while] loop, run for at most [fuel] batches. *)
Fixpoint rejection_loop (fuel : nat) (seed_area : Polygon) (fr : frame)
    (neurons : nat) (points : list point) : M (list point) :=
  if (length points <? neurons)%nat then
    match fuel with
    | O => stuck
    | S n =>
        min_x ← load_local "min_x" (f_min_x fr);
        max_x ← load_local "max_x" (f_max_x fr);
        new_x ← uniform min_x max_x (neurons - length points);
        min_y ← load_local "min_y" (f_min_y fr);
        max_y ← load_local "max_y" (f_max_y fr);
        new_y ← uniform min_y max_y (neurons - length points);
        rejection_loop n seed_area fr neurons (accept seed_area (zip new_x new_y) points)
    end
  else ret points.

(** The branch of a rectangle. *)
Definition seed_rectangle (min_x min_y max_x max_y soma_radius : float) (neurons : nat)
  : M (list point) :=
  xx ← uniform (F.add min_x soma_radius) (F.sub max_x soma_radius) neurons;
  yy ← uniform (F.add min_y soma_radius) (F.sub max_y soma_radius) neurons;
  ret (zip xx yy).

(** The branch of a disk.  [self.centroid] is a [Point], which cannot be
    indexed: once the angles and the radii are drawn, [self.centroid[0]]
    raises [TypeError], and no position is ever made. *)
Definition seed_disk (s : instance) (soma_radius : float) (neurons : nat)
  : M (list point) :=
  theta ← uniform F.zero (F.mul F.two F.pi) neurons;
  radius ← getattr "radius" (i_radius s);
  u ← uniform F.zero F.c0_99 neurons;
  raise (TypeError "'Point' object is not subscriptable").

(** The block under [if custom_shape:].  [isinstance(seed_area, Polygon)]
    holds of whatever [from_polygon] returns, so its [raise] is never
    reached. *)
Definition seed_custom (fuel : nat) (s : instance) (fr : frame) (soma_radius : float)
    (neurons : nat) : M (list point) :=
  c ← as_geom (f_container fr);
  let seed_area := geom_intersection (i_geom s) c in
  let eroded := geom_buffer seed_area (F.opp soma_radius) in
  min_x ← load_local "min_x" (f_min_x fr);
  max_x ← load_local "max_x" (f_max_x fr);
  seed ← Shape_from_polygon ClsShape eroded (Some (F.add min_x soma_radius))
           (Some (F.sub max_x soma_radius)) default_unit None VNone;
  so ← read_inst seed;
  rejection_loop fuel (i_geom so) fr neurons [].

(** [Polygon([(min_x, min_y), (min_x, max_y), (max_x, max_y), (max_x, min_y)])] *)
Definition bounding_box (min_x min_y max_x max_y : float) : M loc :=
  g ← Polygon_new [(min_x, min_y); (min_x, max_y); (max_x, max_y); (max_x, min_y)] [];
  alloc (CInst (bare_polygon g)).

(** The final conversion to the requested unit. *)
Definition convert_unit (s : instance) (unit : option string) (positions : list point)
  : list point :=
  match unit with
  | Some u =>
      if bool_decide (u ≠ i_unit s)
      then let k := conversion_magnitude u (i_unit s) in
           map (λ pt : point, (F.mul pt.1 k, F.mul pt.2 k)) positions
      else positions
  | None => positions
  end.

(** The number of positions to produce. *)
Definition seed_count (s : instance) (neurons : option nat) : M nat :=
  neurons ← match i_parent s with
            | Some g => n ← node_nb g; ret (Some n)
            | None => ret neurons
            end;
  match neurons with
  | None => raise (ValueError "`neurons` cannot be None if `parent` is None.")
  | Some n => ret n
  end.

Definition Shape_seed_neurons (fuel : nat) (self : loc) (neurons : option nat)
    (container : pyval) (xmin xmax ymin ymax : option float) (soma_radius : float)
    (unit : option string) : M (list point) :=
  s ← read_inst self;
  neurons ← seed_count s neurons;
  positions ←
    (if is_None container then
       let xmin := default F.neg_inf xmin in
       let ymin := default F.neg_inf ymin in
       let xmax := default F.inf xmax in
       let ymax := default F.inf ymax in
       match bounds (i_geom s) with
       | None => raise (ValueError "not enough values to unpack")
       | Some (min_x, min_y, max_x, max_y) =>
           let min_x := F.py_max xmin min_x in
           let min_y := F.py_max ymin min_y in
           let max_x := F.py_min xmax max_x in
           let max_y := F.py_min ymax max_y in
           if bool_decide (i_geom_type s = "Rectangle") then
             seed_rectangle min_x min_y max_x max_y soma_radius neurons
           else if bool_decide (i_geom_type s = "Disk")
                   && bounds_eqb (xmin, ymin, xmax, ymax) (bounds (i_geom s)) then
             seed_disk s soma_radius neurons
           else
             box ← bounding_box min_x min_y max_x max_y;
             seed_custom fuel s
               (mkFrame (Some min_x) (Some min_y) (Some max_x) (Some max_y) (VRef box))
               soma_radius neurons
       end
     else seed_custom fuel s (mkFrame None None None None container)
                      soma_radius neurons);
  ret (convert_unit s unit positions).

End WithCollaborators.

(** ** A stand-in for the collaborators

    Used only to run the model on concrete calls; every theorem below holds
    for all collaborators.  Geometry is answered on bounding boxes, and the
    conversion ratio from the metric prefixes. *)

Module Demo.

Definition box_of (p : Polygon) : geometry :=
  match bounds p with
  | None => GPolygon empty_polygon
  | Some (x0, y0, x1, y1) =>
      GPolygon (mkPolygon [(x0, y0); (x0, y1); (x1, y1); (x1, y0)] [])
  end.

Definition box_meet (p q : Polygon) : geometry :=
  match bounds p, bounds q with
  | Some (a0, b0, a1, b1), Some (c0, d0, c1, d1) =>
      let x0 := F.py_max a0 c0 in
      let y0 := F.py_max b0 d0 in
      let x1 := F.py_min a1 c1 in
      let y1 := F.py_min b1 d1 in
      if F.ltb x0 x1 && F.ltb y0 y1
      then GPolygon (mkPolygon [(x0, y0); (x0, y1); (x1, y1); (x1, y0)] [])
      else GPolygon empty_polygon
  | _, _ => GPolygon empty_polygon
  end.

Definition box_nonempty (g : geometry) : bool :=
  match g with
  | GPolygon p => bool_decide (exterior p ≠ [])
  | GOther => false
  end.

Definition box_overlaps (g : geometry) (q : Polygon) : bool :=
  match g with
  | GPolygon p => box_nonempty (box_meet p q)
  | GOther => false
  end.

Definition box_grow (g : geometry) (d : float) : geometry :=
  match g with
  | GPolygon p =>
      match bounds p with
      | Some (x0, y0, x1, y1) =>
          let x0 := F.sub x0 d in
          let y0 := F.sub y0 d in
          let x1 := F.add x1 d in
          let y1 := F.add y1 d in
          if F.ltb x0 x1 && F.ltb y0 y1
          then GPolygon (mkPolygon [(x0, y0); (x0, y1); (x1, y1); (x1, y0)] [])
          else GPolygon empty_polygon
      | None => g
      end
  | GOther => GOther
  end.

Definition box_contains (p : Polygon) (pt : point) : bool :=
  match bounds p with
  | Some (x0, y0, x1, y1) =>
      F.ltb x0 pt.1 && F.ltb pt.1 x1 && F.ltb y0 pt.2 && F.ltb pt.2 y1
  | None => false
  end.

Definition box_around (c : point) (r : float) : geometry :=
  GPolygon (mkPolygon [ (F.sub c.1 r, F.sub c.2 r); (F.sub c.1 r, F.add c.2 r);
                        (F.add c.1 r, F.add c.2 r); (F.add c.1 r, F.sub c.2 r) ] []).

(** Modelled from the spec: [geom_utils.conversion_magnitude], whose source
    is not part of the files at hand.  The specification gives the metric
    prefixes um = 1e-6, mm = 1e-3, cm = 1e-2, dm = 1e-1, m = 1. *)
Definition unit_exponent (u : string) : Z :=
  if bool_decide (u = "um") then -6
  else if bool_decide (u = "mm") then -3
  else if bool_decide (u = "cm") then -2
  else if bool_decide (u = "dm") then -1
  else 0.

Definition pow10 (e : Z) : float :=
  match e with
  | Z0 => F.one
  | Zpos p => F.of_Z (10 ^ Zpos p)
  | Zneg p => F.div F.one (F.of_Z (10 ^ Zpos p))
  end.

Definition ratio (target source : string) : float :=
  pow10 (unit_exponent source - unit_exponent target).

#[export] Instance coarse : Collaborators := {|
  geom_intersection := box_meet;
  geom_difference := λ p q, if box_overlaps (GPolygon p) q then GOther else GPolygon p;
  geom_overlaps := box_overlaps;
  geom_buffer := box_grow;
  geom_contains := box_contains;
  point_buffer := box_around;
  conversion_magnitude := ratio
|}.

(** Worlds and shapes to run calls on. *)
Definition halves (n : nat) : float := F.half.

Definition w0 : world := mkWorld ∅ ∅ halves 0 [].

Definition pt (x y : Z) : point := (F.of_Z x, F.of_Z y).

Definition square (x0 y0 x1 y1 : Z) : list point :=
  [pt x0 y0; pt x1 y0; pt x1 y1; pt x0 y1].

(** Running a call that is known to return. *)
Definition run {A} (dflt : A) (m : M A) (w : world) : A * world :=
  match m w with
  | (Ok a, w') => (a, w')
  | (_, w') => (dflt, w')
  end.

(** A world holding one empty [_PDict]. *)
Definition w_props : world := mkWorld {[1%positive := CProps true ∅]} ∅ halves 0 [].

(** A world holding the dictionary [{"speed": 2.}]. *)
Definition w_speed : world :=
  mkWorld {[1%positive := CProps false {["speed" := F.two]}]} ∅ halves 0 [].

(** [Shape.disk(1.)] *)
Definition disk_run : loc * world :=
  run 1%positive (Shape_disk ClsShape (F.of_Z 1) (pt 0 0) "um" None VNone) w0.
Definition disk1 : loc := disk_run.1.
Definition w_disk : world := disk_run.2.

(** The rectangle [0, 4] x [0, 4] and a shape inside it. *)
Definition fresh_setup : M (loc * loc) :=
  s ← Shape_rectangle ClsShape (F.of_Z 4) (F.of_Z 4) (pt 2 2) "um" None VNone;
  g ← Shape_init ClsShape (square 1 1 2 2) [] "um" None VNone;
  ret (s, g).
Definition fresh_run : loc * loc * world := run (1%positive, 1%positive) fresh_setup w0.

(** The same rectangle with an area ["a1"] on [0, 2] x [0, 2] put into its
    partition by hand, and an area on [1, 3] x [1, 3] that overlaps it. *)
Definition named_setup : M (loc * loc * loc) :=
  s ← Shape_rectangle ClsShape (F.of_Z 4) (F.of_Z 4) (pt 2 2) "um" None VNone;
  a1 ← Area_init (square 0 0 2 2) [] "um" (VFloat F.zero) (VStr "a1") VNone;
  o ← read_inst s;
  d ← getattr "_areas" (i_areas o);
  dict_setitem d (VStr "a1") (VRef a1);;
  g ← Area_init (square 1 1 3 3) [] "um" (VFloat F.zero) (VStr "g") VNone;
  ret (s, a1, g).
Definition named_run : loc * loc * loc * world :=
  run (1%positive, 1%positive, 1%positive) named_setup w0.

(** The geometry of the shape at a location. *)
Definition geom_at (w : world) (l : loc) : Polygon :=
  match heap w !! l with
  | Some (CInst o) => i_geom o
  | _ => empty_polygon
  end.

(** The dictionary of areas of the shape at a location. *)
Definition partition_at (w : world) (l : loc) : option (gmap string pyval) :=
  match heap w !! l with
  | Some (CInst o) =>
      match i_areas o with
      | Some d => match heap w !! d with Some (CDict m) => Some m | _ => None end
      | None => None
      end
  | _ => None
  end.

(** What the partition of the shape at a location holds under
    ["default_area"]. *)
Definition default_entry (w : world) (l : loc) : option pyval :=
  partition_at w l ≫= λ m, m !! "default_area".

(** The three worlds above and their objects, by name. *)
Definition w_fresh : world := fresh_run.2.
Definition fresh_s : loc := fresh_run.1.1.
Definition fresh_g : loc := fresh_run.1.2.

Definition w_named : world := named_run.2.
Definition named_s : loc := named_run.1.1.1.
Definition named_a1 : loc := named_run.1.1.2.
Definition named_g : loc := named_run.1.2.

(** The square [0, 2] x [0, 2], a polygon with the three points [(0, 0)],
    [(0, 1)], [(0, 2)] on one vertical line, and the calls of [from_polygon]
    on them. *)
Definition square2 : Polygon := mkPolygon (square 0 0 2 2) [].

Definition scaled_call : outcome loc * world :=
  Shape_from_polygon ClsShape (GPolygon square2) (Some (F.of_Z 0)) (Some (F.of_Z 4))
                     "um" None VNone w0.


End Demo.

(** ** Vocabulary of the statements *)

Definition is_TypeError (e : exn) : Prop := ∃ msg, e = TypeError msg.

Definition binding_ok (r : exn + gmap string pyval) : Prop :=
  match r with inl e => is_TypeError e | inr _ => True end.

(** A count is at hand: the parent is alive and has [n] nodes, or there is
    no parent and [neurons] is [n]. *)
Definition count_available (w : world) (s : instance) (neurons : option nat) (n : nat)
  : Prop :=
  match i_parent s with
  | Some g => graphs w !! g = Some n
  | None => neurons = Some n
  end.

(** The entries a property dictionary is built from. *)
Definition props_entries (w : world) (properties : pyval) : gmap string float :=
  match properties with
  | VRef l =>
      match heap w !! l with
      | Some (CProps _ d) => d
      | _ => ∅
      end
  | _ => ∅
  end.

(** [properties] is [None] or a dictionary of factors that can be copied. *)
Definition valid_properties (w : world) (properties : pyval) : Prop :=
  match properties with
  | VNone => True
  | VRef l => ∃ b d, heap w !! l = Some (CProps b d) ∧ can_copy b d = true
  | _ => False
  end.

(** The polygon that [Polygon(shell, holes)] is, when it is built. *)
Definition polygon_of (shell : list point) (holes : list (list point)) : Polygon :=
  match shell with
  | [] => empty_polygon
  | _ :: _ => mkPolygon shell holes
  end.

(** The area [from_shape] builds. *)
Definition built_area (g : Polygon) (unit : string) (height name : pyval) (prop : loc)
  : instance :=
  mkInstance ClsArea g None unit "Polygon" None None None (Some height) (Some name)
             (Some prop).


(** ** The order of floats

    Floats that are not NaN compare as their keys do, lexicographically: the
    sign and kind first, then the exponent, then the mantissa. *)





(** ** Floats that an identity rescale leaves alone *)

(** A float in its canonical binary64 representation, or a zero. *)
Definition valid_finite (x : float) : bool :=
  match x with
  | S754_zero _ => true
  | S754_finite _ m e => bounded F.prec F.emax m e
  | _ => false
  end.

(** The same, with the negative zero left out. *)
Definition plain_float (x : float) : bool :=
  match x with
  | S754_zero s => negb s
  | S754_finite _ m e => bounded F.prec F.emax m e
  | _ => false
  end.

Definition plain_point (pt : point) : bool := plain_float pt.1 && plain_float pt.2.

(** A polygon with plain coordinates whose bounding box has a centre that
    is a finite float. *)
Definition plain_polygon (p : Polygon) : bool :=
  forallb plain_point (exterior p)
  && forallb (forallb plain_point) (interiors p)
  && match bounds p with
     | None => true
     | Some (minx, miny, maxx, maxy) =>
         valid_finite (F.div (F.add maxx minx) F.two)
         && valid_finite (F.div (F.add maxy miny) F.two)
     end.

(** ** The state a constructor leaves *)

(** What [find_scaling] returns when it returns. *)
Definition scaling_value (p : Polygon) (min_x max_x : option float) : float :=
  match min_x, max_x with
  | Some mn, Some mx =>
      F.div (F.sub mx mn)
            (F.sub (default F.nan (F.np_max (exterior p).*1))
                   (default F.nan (F.np_min (exterior p).*1)))
  | _, _ => F.one
  end.

(** The default area of [from_shape]'s making for a region [region]. *)
Definition default_area_of (region : instance) (unit : string) (prop : loc) : instance :=
  built_area (scale (i_geom region) F.one F.one) unit default_height
             (VStr "default_area") prop.

(** [w'] is [w] with four new objects: the region at [s], the dictionary of
    its areas, the area built for its default entry (whose unit is
    [area_unit]) and that area's [_PDict]. *)
Definition constructed (w w' : world) (s : loc) (region : instance)
    (default_properties : pyval) (area_unit : string) : Prop :=
  ∃ a pr d,
    heap w !! s = None ∧ heap w !! a = None ∧ heap w !! pr = None ∧ heap w !! d = None
    ∧ NoDup [s; d; a; pr]
    ∧ i_areas region = Some d
    ∧ w' = set_heap
             (<[s:=CInst region]>
                (<[d:=CDict {["default_area" := VNone]}]>
                   (<[a:=CInst (default_area_of region area_unit pr)]>
                      (<[pr:=CProps true (props_entries w default_properties)]>
                         (heap w))))) w.

(** ** The ways to construct a region *)

Inductive ctor_call :=
| NewShape (shell : list point) (holes : list (list point))
| FromPolygon (polygon : geometry) (min_x max_x : option float)
| Rectangle (height width : float) (centroid : point)
| Disk (radius : float) (centroid : point)
| Ellipse (radii : float * float) (centroid : point).

Section Construct.
Context {CO : Collaborators}.

Definition construct (c : ctor_call) (unit : string) (parent : option nat)
    (default_properties : pyval) : M loc :=
  match c with
  | NewShape shell holes =>
      Shape_init ClsShape shell holes unit parent default_properties
  | FromPolygon polygon min_x max_x =>
      Shape_from_polygon ClsShape polygon min_x max_x unit parent default_properties
  | Rectangle height width centroid =>
      Shape_rectangle ClsShape height width centroid unit parent default_properties
  | Disk radius centroid =>
      Shape_disk ClsShape radius centroid unit parent default_properties
  | Ellipse radii centroid =>
      Shape_ellipse ClsShape radii centroid unit parent default_properties
  end.

End Construct.

(** The claim about a fresh region, as the specification words it: the
    partition of the region at [s] is [{"default_area": a}] for an [Area]
    [a] that has the geometry of the region, height [0.] and an empty
    [_PDict]. *)
Definition default_area_claim (w : world) (s : loc) : Prop :=
  ∃ region d a area pr,
    heap w !! s = Some (CInst region) ∧ i_areas region = Some d
    ∧ heap w !! d = Some (CDict {["default_area" := VRef a]})
    ∧ heap w !! a = Some (CInst area) ∧ i_class area = ClsArea
    ∧ i_geom area = i_geom region
    ∧ i_height area = Some (VFloat F.zero)
    ∧ i_prop area = Some pr ∧ heap w !! pr = Some (CProps true ∅).

(** ** What a partition holds *)



(** The object a value refers to, if it refers to one. *)
Definition val_loc (v : pyval) : option loc :=
  match v with VRef l => Some l | _ => None end.

(** The rectangle [0, 4] x [0, 4] constructed without default properties. *)
Definition rect_call : outcome loc * world :=
  construct (CO:=Demo.coarse) (Rectangle (F.of_Z 4) (F.of_Z 4) (Demo.pt 2 2)) "um" None
            VNone Demo.w0.

(** The rectangle [0, 4] x [0, 4] constructed with the default properties
    [{"speed": 2.}]. *)
Definition rect_speed_call : outcome loc * world :=
  construct (CO:=Demo.coarse) (Rectangle (F.of_Z 4) (F.of_Z 4) (Demo.pt 2 2)) "um" None
            (VRef 1%positive) Demo.w_speed.

(** ** The accessors of [Shape] and [Area], [set_parent] and [add_subshape] *)

(** The properties [Shape.parent] and [Shape.unit]; they exist on a [Shape]
    or an [Area], not on a bare [Polygon]. *)
Definition Shape_parent (self : loc) : M (option nat) :=
  o ← read_inst self;
  if is_Shape_class (i_class o) then ret (i_parent o)
  else raise (AttributeError "parent").

Definition Shape_unit (self : loc) : M string :=
  o ← read_inst self;
  if is_Shape_class (i_class o) then ret (i_unit o)
  else raise (AttributeError "unit").

(** [Shape.set_parent]: [self._parent] becomes a weak proxy of the graph,
    or [None]. *)
Definition Shape_set_parent (self : loc) (parent : option nat) : M unit :=
  o ← read_inst self;
  if is_Shape_class (i_class o)
  then write_cell self (CInst (set_parent_attr parent o))
  else raise (AttributeError "set_parent").

(** [Shape.add_subshape] and its override in [Area]: each is a single
    [raise]. *)
Definition Shape_add_subshape (self : loc) (subshape position : pyval) (unit : string)
  : M pyval :=
  o ← read_inst self;
  match i_class o with
  | ClsShape => raise (NotImplementedError "To be implemented.")
  | ClsArea => raise (NotImplementedError "Areas cannot be modified.")
  | ClsPolygon => raise (AttributeError "add_subshape")
  end.

(** The property [Area.properties]: the [_PDict] itself, not a copy. *)
Definition Area_properties (self : loc) : M loc :=
  o ← read_inst self;
  if is_Area_class (i_class o) then getattr "_prop" (i_prop o)
  else raise (AttributeError "properties").

(** ** Vocabulary of the further statements *)

(** A dictionary all of whose factors pass the test of [__setitem__]. *)
Definition PDict_valid (d : gmap string float) : Prop :=
  ∀ k v, d !! k = Some v -> nonneg_or_nan v = true.

(** [properties] is [None] or a plain [dict] of factors. *)
Definition plain_properties (w : world) (properties : pyval) : Prop :=
  match properties with
  | VNone => True
  | VRef l => ∃ d, heap w !! l = Some (CProps false d)
  | _ => False
  end.

(** The box [seed_neurons] samples in when it is given no container: the
    bounds of the shape, clipped by the bounds of the call that were
    given. *)
Definition clip_min (given : option float) (b : float) : float :=
  F.py_max (default F.neg_inf given) b.
Definition clip_max (given : option float) (b : float) : float :=
  F.py_min (default F.inf given) b.

(** The ranges the branch of a rectangle draws from. *)
Definition rect_low (given : option float) (b soma_radius : float) : float :=
  F.add (clip_min given b) soma_radius.
Definition rect_high (given : option float) (b soma_radius : float) : float :=
  F.sub (clip_max given b) soma_radius.

(** The tests by which [seed_neurons], given no container, chooses how to
    seed: the branch of a rectangle, the branch of a disk whose bounds are
    the four bounds of the call, or rejection sampling in the box. *)
Definition rectangle_way (s : instance) : bool :=
  bool_decide (i_geom_type s = "Rectangle").

Definition disk_way (s : instance) (xmin xmax ymin ymax : option float) : bool :=
  bool_decide (i_geom_type s = "Disk")
  && bounds_eqb (default F.neg_inf xmin, default F.neg_inf ymin,
                 default F.inf xmax, default F.inf ymax) (bounds (i_geom s)).

Definition generic_way (s : instance) (xmin xmax ymin ymax : option float) : bool :=
  negb (rectangle_way s) && negb (disk_way s xmin xmax ymin ymax).

(** The polygon of the bounding box, as [bounding_box] creates it. *)
Definition box_polygon (min_x min_y max_x max_y : float) : Polygon :=
  mkPolygon [(min_x, min_y); (min_x, max_y); (max_x, max_y); (max_x, min_y)] [].

(** The corners [Shape.rectangle] hands to the constructor. *)
Definition rectangle_corners (height width : float) (centroid : point) : list point :=
  [ (F.add centroid.1 (F.mul F.half width), F.add centroid.2 (F.mul F.half height));
    (F.add centroid.1 (F.mul F.half width),
     F.add centroid.2 (F.opp (F.mul F.half height)));
    (F.sub centroid.1 (F.mul F.half width), F.sub centroid.2 (F.mul F.half height));
    (F.sub centroid.1 (F.mul F.half width),
     F.sub centroid.2 (F.opp (F.mul F.half height))) ].

(** The area candidates are tested against: the eroded polygon as
    [from_polygon] rescales it to the bounds [min_x + soma_radius] and
    [max_x - soma_radius]. *)
Definition seed_region (eroded : Polygon) (min_x max_x soma_radius : float) : Polygon :=
  scale eroded
    (scaling_value eroded (Some (F.add min_x soma_radius)) (Some (F.sub max_x soma_radius)))
    (scaling_value eroded (Some (F.add min_x soma_radius)) (Some (F.sub max_x soma_radius))).

(** The result of a call with its value, when there is one, mapped. *)
Definition map_outcome {A B} (f : A -> B) (r : outcome A * world) : outcome B * world :=
  match r with
  | (Ok a, w) => (Ok (f a), w)
  | (Raise e, w) => (Raise e, w)
  | (Stuck, w) => (Stuck, w)
  end.

(** The positions a call returned, none if it did not return. *)
Definition returned {A} (r : outcome (list A) * world) : list A :=
  match r.1 with
  | Ok ps => ps
  | _ => []
  end.

(** ** What a call leaves of the world it started in *)

(** [keeps R m P]: run in a world that satisfies [R], the call [m] ends,
    however it ends, in a world that satisfies [R], and a value it returns
    satisfies [P]. *)
Definition keeps {A} (R : world -> Prop) (m : M A) (P : A -> Prop) : Prop :=
  ∀ w, R w -> R (m w).2 ∧ ∀ a, (m w).1 = Ok a -> P a.

(** A condition on the world that does not look at the heap. *)
Definition heap_blind (Q : world -> Prop) : Prop := ∀ h w, Q w -> Q (set_heap h w).

(** The objects of [w0] are in [w] as they were, and [Q] holds of [w]. *)
Definition over (w0 : world) (Q : world -> Prop) (w : world) : Prop :=
  heap w0 ⊆ heap w ∧ Q w.

(** Graphs and random source as in [w0]. *)
Definition quiet (w0 w : world) : Prop :=
  graphs w = graphs w0 ∧ rng_stream w = rng_stream w0
  ∧ rng_pos w = rng_pos w0 ∧ rng_log w = rng_log w0.

(** Graphs and stream as in [w0]; samples may have been drawn since. *)
Definition sampled (w0 w : world) : Prop :=
  graphs w = graphs w0 ∧ rng_stream w = rng_stream w0
  ∧ (rng_pos w0 ≤ rng_pos w)%nat ∧ rng_log w0 `prefix_of` rng_log w.

(** [w] is [w0] with more objects, and nothing else has changed. *)
Definition grown (w0 w : world) : Prop := over w0 (quiet w0) w.

(** [w] is [w0] with more objects and more samples drawn. *)
Definition drawn (w0 w : world) : Prop := over w0 (sampled w0) w.

(** ** More worlds to run calls on *)

Module Cases.

(** The instance at a location. *)
Definition inst_at (w : world) (l : loc) : instance :=
  match heap w !! l with
  | Some (CInst o) => o
  | _ => mkInstance ClsPolygon empty_polygon None "um" "Polygon" None None None None
                    None None
  end.

(** A world holding the plain dictionary [{"speed": -1.}]. *)
Definition w_slow : world :=
  mkWorld {[1%positive := CProps false {["speed" := F.of_Z (-1)]}]} ∅ Demo.halves 0 [].

(** A world with one graph of three nodes, and the rectangle
    [0, 4] x [0, 4] built in it with that graph as parent. *)
Definition w_graph : world := mkWorld ∅ {[7%nat := 3%nat]} Demo.halves 0 [].

Definition child_run : loc * world :=
  Demo.run 1%positive
    (Shape_rectangle ClsShape (F.of_Z 4) (F.of_Z 4) (Demo.pt 2 2) "um" (Some 7%nat) VNone)
    w_graph.
Definition child : loc := child_run.1.
Definition w_child : world := child_run.2.

(** An engine whose erosion always falls apart into several pieces. *)
Definition splitting : Collaborators := {|
  geom_intersection := @geom_intersection Demo.coarse;
  geom_difference := @geom_difference Demo.coarse;
  geom_overlaps := @geom_overlaps Demo.coarse;
  geom_buffer := λ _ _, GOther;
  geom_contains := @geom_contains Demo.coarse;
  point_buffer := @point_buffer Demo.coarse;
  conversion_magnitude := @conversion_magnitude Demo.coarse
|}.

End Cases.

(** * Properties *)

(** ** The monad *)

Lemma bind_ok {A B} (m : M A) (k : A -> M B) w a w' :
  m w = (Ok a, w') -> (m ≫= k) w = k a w'.
Proof. intros E. unfold mbind, M_bind, bind. now rewrite E. Qed.

Lemma bind_raise {A B} (m : M A) (k : A -> M B) w e w' :
  m w = (Raise e, w') -> (m ≫= k) w = (Raise e, w').
Proof. intros E. unfold mbind, M_bind, bind. now rewrite E. Qed.

Lemma bind_inv {A B} (m : M A) (k : A -> M B) w b w' :
  (m ≫= k) w = (Ok b, w') -> ∃ a w1, m w = (Ok a, w1) ∧ k a w1 = (Ok b, w').
Proof.
  unfold mbind, M_bind, bind. destruct (m w) as [[a|e|] w1]; try discriminate. eauto.
Qed.

Lemma read_cell_some l c w :
  heap w !! l = Some c -> read_cell l w = (Ok c, w).
Proof. intros E. unfold read_cell. now rewrite E. Qed.

(** ** [_PDict] *)

Lemma float_sign_cases (v : float) :
  F.ltb v F.zero = true ∨ F.leb F.zero v = true ∨ F.is_nan v = true.
Proof. destruct v as [[]|[]| |[] m e]; simpl; auto. Qed.

Lemma negative_fails_check (v : float) :
  F.ltb v F.zero = true -> F.leb F.zero v || F.is_nan v = false.
Proof. destruct v as [[]|[]| |[] m e]; simpl; auto; discriminate. Qed.

Lemma PDict_setitem_negative d key v :
  F.ltb v F.zero = true -> PDict_setitem d key v = inl (AssertionError PDict_msg).
Proof. intros Hv. unfold PDict_setitem. now rewrite negative_fails_check. Qed.

Lemma PDict_setitem_accepted d key v :
  F.leb F.zero v = true ∨ F.is_nan v = true ->
  PDict_setitem d key v = inr (<[key:=v]> d).
Proof.
  intros Hv. unfold PDict_setitem.
  destruct Hv as [-> | ->]; [reflexivity | now rewrite orb_true_r].
Qed.

(** C9: on a [_PDict], reading an absent key gives [1.]; storing a negative
    factor raises and leaves the dictionary as it was; storing NaN or a
    factor that is at least zero succeeds. *)
Theorem PDict_default_read_checked_write (w : world) (l : loc)
    (d : gmap string float) (key : string) (v : float) :
  heap w !! l = Some (CProps true d) ->
  (d !! key = None -> props_getitem l key w = (Ok F.one, w))
  ∧ (F.ltb v F.zero = true ->
       props_setitem l key v w = (Raise (AssertionError PDict_msg), w))
  ∧ (F.leb F.zero v = true ∨ F.is_nan v = true ->
       props_setitem l key v w
       = (Ok tt, set_heap (<[l:=CProps true (<[key:=v]> d)]> (heap w)) w)).
Proof.
  intros Hl. repeat split.
  - intros Hk. unfold props_getitem.
    rewrite (bind_ok _ _ _ _ _ (read_cell_some _ _ _ Hl)).
    unfold PDict_getitem. now rewrite Hk.
  - intros Hv. unfold props_setitem.
    rewrite (bind_ok _ _ _ _ _ (read_cell_some _ _ _ Hl)).
    now rewrite PDict_setitem_negative.
  - intros Hv. unfold props_setitem.
    rewrite (bind_ok _ _ _ _ _ (read_cell_some _ _ _ Hl)).
    now rewrite PDict_setitem_accepted.
Qed.

Lemma load_global_self : load_global "self" = raise (NameError "self").
Proof. reflexivity. Qed.

Section AddArea.
Context {CO : Collaborators}.

Lemma Shape_add_area_raises (area height name properties : pyval) (w : world) :
  Shape_add_area area height name properties w = (Raise (NameError "self"), w).
Proof.
  unfold Shape_add_area, self_areas.
  destruct (is_None name); reflexivity.
Qed.

Lemma bind_keyword_ok ps kw r :
  binding_ok r -> binding_ok (foldl (bind_keyword ps) r kw).
Proof.
  revert r. induction kw as [|kv kw IH]; intros r Hr; simpl; [exact Hr|].
  apply IH. destruct r as [e|env]; simpl; [exact Hr|].
  case_bool_decide; [destruct (env !! kv.1)|]; simpl; unfold is_TypeError; eauto.
Qed.

Lemma bind_default_ok ps r :
  binding_ok r -> binding_ok (foldl bind_default r ps).
Proof.
  revert r. induction ps as [|p ps IH]; intros r Hr; simpl; [exact Hr|].
  apply IH. destruct r as [e|env]; simpl; [exact Hr|].
  destruct (env !! p.1), p.2; simpl; unfold is_TypeError; eauto.
Qed.

Lemma bind_args_ok ps pos kw : binding_ok (bind_args ps pos kw).
Proof.
  unfold bind_args. destruct (_ <? _)%nat; simpl.
  - unfold is_TypeError; eauto.
  - apply bind_default_ok, bind_keyword_ok. exact I.
Qed.

(** C4: [add_area] has no [self] parameter.  In [s.add_area(g)] the shape
    [s] is bound to [area] and [g] to [height], and the call raises
    [NameError] at the first [self] of the body; no call of the function at
    all, whatever its arguments, returns or changes the world it runs in. *)
Theorem add_area_never_modifies (w : world) (s : loc) :
  (∀ g, ∃ env,
      bind_args add_area_params [VRef s; g] [] = inr env
      ∧ arg env "area" = VRef s ∧ arg env "height" = g
      ∧ invoke_add_area s [g] [] w = (Raise (NameError "self"), w))
  ∧ (∀ pos kw, ∃ e,
      call_add_area pos kw w = (Raise e, w)
      ∧ (e = NameError "self" ∨ is_TypeError e))
  ∧ (∀ pos kw, invoke_add_area s pos kw w = call_add_area (VRef s :: pos) kw w).
Proof.
  split; [|split].
  - intros g. eexists. split; [reflexivity|].
    split; [reflexivity|]. split; [reflexivity|].
    apply Shape_add_area_raises.
  - intros pos kw. unfold call_add_area.
    pose proof (bind_args_ok add_area_params pos kw) as Hb.
    destruct (bind_args _ _ _) as [e|env]; simpl in Hb.
    + exists e. split; [reflexivity | now right].
    + eexists. split; [apply Shape_add_area_raises | now left].
  - reflexivity.
Qed.

End AddArea.

(** ** Calls that only read *)

Lemma read_cell_frame l w r w' : read_cell l w = (r, w') -> w' = w.
Proof. unfold read_cell. destruct (heap w !! l); congruence. Qed.

Lemma read_inst_frame l w r w' : read_inst l w = (r, w') -> w' = w.
Proof.
  unfold read_inst, mbind, M_bind, bind.
  destruct (read_cell l w) as [[c|e|] w1] eqn:E; apply read_cell_frame in E; subst;
    [destruct c|..]; unfold ret, raise; congruence.
Qed.

Lemma read_inst_some l o w :
  heap w !! l = Some (CInst o) -> read_inst l w = (Ok o, w).
Proof. intros E. unfold read_inst. now rewrite (bind_ok _ _ _ _ _ (read_cell_some _ _ _ E)). Qed.

Lemma as_geom_frame v w r w' : as_geom v w = (r, w') -> w' = w.
Proof.
  destruct v; try (unfold as_geom, raise; congruence). unfold as_geom, mbind, M_bind, bind.
  destruct (read_cell l w) as [[c|e|] w1] eqn:E; apply read_cell_frame in E; subst;
    [destruct c|..]; unfold ret, raise; congruence.
Qed.

Lemma as_geom_some l o w :
  heap w !! l = Some (CInst o) -> as_geom (VRef l) w = (Ok (i_geom o), w).
Proof. intros E. unfold as_geom. now rewrite (bind_ok _ _ _ _ _ (read_cell_some _ _ _ E)). Qed.

(** ** [seed_neurons] *)

Section Seeding.
Context {CO : Collaborators}.

Lemma seed_count_ok w s neurons n :
  count_available w s neurons n -> seed_count s neurons w = (Ok n, w).
Proof.
  unfold count_available, seed_count, node_nb, mbind, M_bind, bind.
  destruct (i_parent s); intros ->; reflexivity.
Qed.

Lemma seed_count_frame s neurons w r w' : seed_count s neurons w = (r, w') -> w' = w.
Proof.
  unfold seed_count, node_nb, mbind, M_bind, bind.
  destruct (i_parent s) as [g|]; [destruct (graphs w !! g)|]; simpl;
    try destruct neurons; unfold ret, raise; congruence.
Qed.

Lemma seed_custom_unbound fuel s container soma n w r w' :
  seed_custom fuel s (mkFrame None None None None container) soma n w = (r, w') ->
  w' = w ∧ ∀ ps, r ≠ Ok ps.
Proof.
  unfold seed_custom, mbind, M_bind, bind. simpl.
  destruct (as_geom container w) as [[p|e|] w1] eqn:E; apply as_geom_frame in E; subst;
    unfold load_local, raise; intros [= <- <-]; split; congruence.
Qed.

Lemma seed_custom_unbound_min_x fuel s c co soma n w :
  heap w !! c = Some (CInst co) ->
  seed_custom fuel s (mkFrame None None None None (VRef c)) soma n w
  = (Raise (UnboundLocalError "min_x"), w).
Proof.
  intros Hc. unfold seed_custom. simpl.
  now rewrite (bind_ok _ _ _ _ _ (as_geom_some _ _ _ Hc)).
Qed.

(** C7, as amended: with a container, [seed_neurons] never returns
    positions and leaves the world as it found it (nothing is drawn, nothing
    is created); once the count of neurons is at hand and the container is a
    shape, what it raises is the [UnboundLocalError], a [NameError], of the
    local [min_x]. *)
Theorem seed_neurons_container_never_returns (w : world) (fuel : nat) (self : loc)
    (neurons : option nat) (container : pyval) (xmin xmax ymin ymax : option float)
    (soma_radius : float) (unit : option string) :
  is_None container = false ->
  (∀ r w',
      Shape_seed_neurons fuel self neurons container xmin xmax ymin ymax
                         soma_radius unit w = (r, w') ->
      w' = w ∧ ∀ ps, r ≠ Ok ps)
  ∧ (∀ s n c co,
      heap w !! self = Some (CInst s) -> count_available w s neurons n ->
      container = VRef c -> heap w !! c = Some (CInst co) ->
      Shape_seed_neurons fuel self neurons container xmin xmax ymin ymax
                         soma_radius unit w
      = (Raise (UnboundLocalError "min_x"), w)
      ∧ is_NameError (UnboundLocalError "min_x") = true).
Proof.
  intros Hc. split.
  - intros r w'. unfold Shape_seed_neurons, mbind, M_bind, bind. rewrite Hc.
    destruct (read_inst self w) as [[s|e|] w1] eqn:E1; apply read_inst_frame in E1;
      subst; try (intros [= <- <-]; split; congruence).
    destruct (seed_count s neurons w) as [[n|e|] w1] eqn:E2;
      apply seed_count_frame in E2; subst; try (intros [= <- <-]; split; congruence).
    destruct (seed_custom _ _ _ _ _ w) as [[ps|e|] w1] eqn:E3;
      apply seed_custom_unbound in E3; destruct E3 as [-> E3];
      intros [= <- <-]; split; congruence.
  - intros s n c co Hs Hn -> Hco. split; [|reflexivity].
    unfold Shape_seed_neurons. simpl.
    rewrite (bind_ok _ _ _ _ _ (read_inst_some _ _ _ Hs)).
    rewrite (bind_ok _ _ _ _ _ (seed_count_ok _ _ _ _ Hn)).
    now rewrite (bind_raise _ _ _ _ _ (seed_custom_unbound_min_x _ _ _ _ _ _ _ Hco)).
Qed.

End Seeding.

Section DiskSeeding.
Context {CO : Collaborators}.

Lemma uniform_spec low high n w :
  finite_range low high = true ->
  uniform low high n w = (Ok (samples low high n w), advance low high n w).
Proof. intros Hf. unfold uniform. now rewrite Hf. Qed.

Lemma uniform_inv low high n w xs w' :
  uniform low high n w = (Ok xs, w') ->
  xs = samples low high n w ∧ w' = advance low high n w.
Proof. unfold uniform. destruct (finite_range low high); [|discriminate]. now intros [= <- <-]. Qed.

Lemma disk_ranges :
  finite_range F.zero (F.mul F.two F.pi) = true ∧ finite_range F.zero F.c0_99 = true.
Proof. split; vm_compute; reflexivity. Qed.

(** The disk branch makes two draws, the angles from [uniform(0, 2*pi)] and
    then the [u] from [uniform(0, 0.99)], and raises. *)
Lemma seed_disk_spec s R soma n w :
  i_radius s = Some R ->
  seed_disk s soma n w
  = (Raise (TypeError "'Point' object is not subscriptable"),
     advance F.zero F.c0_99 n (advance F.zero (F.mul F.two F.pi) n w)).
Proof.
  intros HR. unfold seed_disk. destruct disk_ranges as [H1 H2].
  rewrite (bind_ok _ _ _ _ _ (uniform_spec _ _ _ _ H1)), HR.
  cbn [getattr]. unfold mbind at 1, M_bind at 1, bind at 1, ret at 1.
  now rewrite (bind_ok _ _ _ _ _ (uniform_spec _ _ _ _ H2)).
Qed.

(** With the four bounds given and equal to [self.bounds], a disk is seeded
    by the disk branch. *)
Lemma seed_neurons_disk_given_bounds w fuel self s n neurons x0 y0 x1 y1 soma unit :
  heap w !! self = Some (CInst s) -> count_available w s neurons n ->
  i_geom_type s = "Disk" ->
  bounds_eqb (x0, y0, x1, y1) (bounds (i_geom s)) = true ->
  Shape_seed_neurons fuel self neurons VNone (Some x0) (Some x1) (Some y0) (Some y1)
                     soma unit w
  = (ps ← seed_disk s soma n; ret (convert_unit s unit ps)) w.
Proof.
  intros Hs Hn Ht Hb. unfold Shape_seed_neurons.
  rewrite (bind_ok _ _ _ _ _ (read_inst_some _ _ _ Hs)).
  rewrite (bind_ok _ _ _ _ _ (seed_count_ok _ _ _ _ Hn)).
  cbn [is_None default from_option id].
  destruct (bounds (i_geom s)) as [[[[b1 b2] b3] b4]|] eqn:Eb; [|discriminate].
  rewrite Ht, Hb. reflexivity.
Qed.

(** With the bounds left out, a disk whose leftmost abscissa is not minus
    infinity is seeded by rejection sampling in its bounding box. *)
Lemma seed_neurons_disk_omitted_bounds w fuel self s n neurons soma unit b1 b2 b3 b4 :
  heap w !! self = Some (CInst s) -> count_available w s neurons n ->
  i_geom_type s = "Disk" ->
  bounds (i_geom s) = Some (b1, b2, b3, b4) -> F.eqb F.neg_inf b1 = false ->
  Shape_seed_neurons fuel self neurons VNone None None None None soma unit w
  = (box ← bounding_box (F.py_max F.neg_inf b1) (F.py_max F.neg_inf b2)
                        (F.py_min F.inf b3) (F.py_min F.inf b4);
     ps ← seed_custom fuel s
            (mkFrame (Some (F.py_max F.neg_inf b1)) (Some (F.py_max F.neg_inf b2))
                     (Some (F.py_min F.inf b3)) (Some (F.py_min F.inf b4)) (VRef box))
            soma n;
     ret (convert_unit s unit ps)) w.
Proof.
  intros Hs Hn Ht Hb Hinf. unfold Shape_seed_neurons.
  rewrite (bind_ok _ _ _ _ _ (read_inst_some _ _ _ Hs)).
  rewrite (bind_ok _ _ _ _ _ (seed_count_ok _ _ _ _ Hn)).
  cbn [is_None default from_option id]. rewrite Hb, Ht.
  change (bool_decide ("Disk" = "Rectangle")) with false.
  change (bool_decide ("Disk" = "Disk")) with true.
  cbn [bounds_eqb]. rewrite Hinf. cbn [andb].
  unfold mbind, M_bind, bind.
  destruct (bounding_box _ _ _ _ w) as [[box|e|] w1]; reflexivity.
Qed.

End DiskSeeding.

(** C5, at [Shape.disk(1.).seed_neurons(neurons=2)]: the omitted bounds
    become infinities, which differ from the bounds of the disk, and the two
    requests made of [uniform] are those of the rejection loop over the
    bounding box, [(-1, 1)] twice; with the bounds given as [-1, 1, -1, 1]
    the requests are those of the disk branch, [(0, 2*pi)] and [(0, 0.99)]. *)
Theorem disk_omitted_bounds_rejection_sampling :
  bounds (Demo.geom_at Demo.w_disk Demo.disk1)
    = Some (F.of_Z (-1), F.of_Z (-1), F.of_Z 1, F.of_Z 1)
  ∧ bounds_eqb (F.neg_inf, F.neg_inf, F.inf, F.inf)
               (bounds (Demo.geom_at Demo.w_disk Demo.disk1)) = false
  ∧ rng_log (Shape_seed_neurons (CO:=Demo.coarse) 5 Demo.disk1 (Some 2) VNone None None None None
               F.zero None Demo.w_disk).2
    = [(F.of_Z (-1), F.of_Z 1, 2); (F.of_Z (-1), F.of_Z 1, 2)]
  ∧ rng_log (Shape_seed_neurons (CO:=Demo.coarse) 5 Demo.disk1 (Some 2) VNone
               (Some (F.of_Z (-1))) (Some (F.of_Z 1)) (Some (F.of_Z (-1)))
               (Some (F.of_Z 1)) F.zero None Demo.w_disk).2
    = [(F.zero, F.mul F.two F.pi, 2); (F.zero, F.c0_99, 2)].
Proof. repeat split; vm_compute; reflexivity. Qed.

(** ** Allocation and the constructors *)

Lemma fresh_loc_None (h : gmap loc cell) : h !! fresh_loc h = None.
Proof. unfold fresh_loc. apply (not_elem_of_dom (D:=gset loc)). apply is_fresh. Qed.

Lemma fresh_after_insert (h : gmap loc cell) l c :
  fresh_loc (<[l:=c]> h) ≠ l ∧ h !! fresh_loc (<[l:=c]> h) = None.
Proof.
  pose proof (fresh_loc_None (<[l:=c]> h)) as Hn.
  apply lookup_insert_None in Hn. destruct Hn as [Hn Hne]. split; [congruence | exact Hn].
Qed.

Lemma modify_inst_some l f o w :
  heap w !! l = Some (CInst o) ->
  modify_inst l f w = (Ok tt, set_heap (<[l:=CInst (f o)]> (heap w)) w).
Proof.
  intros Hl. unfold modify_inst.
  now rewrite (bind_ok _ _ _ _ _ (read_inst_some _ _ _ Hl)).
Qed.

Lemma new_PDict_inv properties w l w' :
  new_PDict properties w = (Ok l, w') ->
  valid_properties w properties
  ∧ l = fresh_loc (heap w)
  ∧ w' = set_heap (<[l:=CProps true (props_entries w properties)]> (heap w)) w.
Proof.
  destruct properties as [|x|x|l0|x]; try discriminate.
  - intros [= <- <-]. repeat split.
  - unfold new_PDict, props_entries, valid_properties, mbind, M_bind, bind, read_cell.
    destruct (heap w !! l0) as [[d|b d|o]|]; try discriminate.
    destruct (can_copy b d) eqn:Hc; [|discriminate].
    intros [= <- <-]. split; [eauto|]. split; reflexivity.
Qed.

Lemma new_PDict_ok properties w :
  valid_properties w properties ->
  new_PDict properties w
  = (Ok (fresh_loc (heap w)),
     set_heap (<[fresh_loc (heap w):=CProps true (props_entries w properties)]> (heap w)) w).
Proof.
  destruct properties as [|x|x|l0|x]; simpl; intros Hv; try contradiction;
    [reflexivity|].
  destruct Hv as (b & d & Hl & Hc).
  unfold new_PDict, props_entries, mbind, M_bind, bind, read_cell. now rewrite Hl, Hc.
Qed.

(** ** Rescaling by [1.] *)

Lemma digits2_pos_iter (m k : positive) :
  Z.pos (digits2_pos (Pos.iter xO m k)) = (Z.pos (digits2_pos m) + Z.pos k)%Z.
Proof.
  induction k as [|k IH] using Pos.peano_ind.
  - cbn [Pos.iter digits2_pos]. lia.
  - rewrite Pos.iter_succ. cbn [digits2_pos]. lia.
Qed.

Lemma digits2_pos_shift52 (m : positive) :
  Z.pos (digits2_pos (4503599627370496 * m)) = (Z.pos (digits2_pos m) + 52)%Z.
Proof.
  change (4503599627370496 * m)%positive with (Pos.iter xO m 52).
  apply digits2_pos_iter.
Qed.

Lemma bounded_inv m e :
  bounded F.prec F.emax m e = true ->
  fexp F.prec F.emax (Z.pos (digits2_pos m) + e) = e ∧ (e <= F.emax - F.prec)%Z.
Proof.
  unfold bounded, canonical_mantissa. intros Hb.
  apply andb_prop in Hb. destruct Hb as [Hc He].
  split; [now apply Z.eqb_eq | now apply Z.leb_le].
Qed.

Lemma mul_one_finite s m e :
  bounded F.prec F.emax m e = true ->
  F.mul F.one (S754_finite s m e) = S754_finite s m e.
Proof.
  intros Hb. destruct (bounded_inv _ _ Hb) as [Hc He].
  unfold F.mul, F.one, SFmul. cbn [xorb].
  unfold binary_round_aux.
  assert (H1 : shr_fexp F.prec F.emax (Z.pos (4503599627370496 * m)) (-52 + e) loc_Exact
               = ({| shr_m := Z.pos m; shr_r := false; shr_s := false |}, e)).
  { unfold shr_fexp. unfold Zdigits2. rewrite digits2_pos_shift52.
    replace (Z.pos (digits2_pos m) + 52 + (-52 + e))%Z
      with (Z.pos (digits2_pos m) + e)%Z by lia.
    rewrite Hc. replace (e - (-52 + e))%Z with 52%Z by lia.
    unfold shr. replace (-52 + e + 52)%Z with e by lia. reflexivity. }
  rewrite H1. cbn [shr_m loc_of_shr_record round_nearest_even].
  assert (H2 : shr_fexp F.prec F.emax (Z.pos m) e loc_Exact
               = ({| shr_m := Z.pos m; shr_r := false; shr_s := false |}, e)).
  { unfold shr_fexp, Zdigits2. rewrite Hc, Z.sub_diag. reflexivity. }
  rewrite H2. cbn [shr_m].
  apply Z.leb_le in He. now rewrite He.
Qed.

Lemma mul_one_valid (x : float) : valid_finite x = true -> F.mul F.one x = x.
Proof.
  destruct x as [s|s| |s m e]; try discriminate; intros Hx.
  - reflexivity.
  - now apply mul_one_finite.
Qed.

Lemma mul_valid_one (x : float) : valid_finite x = true -> F.mul x F.one = x.
Proof.
  destruct x as [s|s| |s m e]; try discriminate; intros Hx.
  - simpl. now rewrite xorb_false_r.
  - rewrite <- (mul_one_finite s m e Hx) at 2.
    unfold F.mul, F.one, SFmul. now rewrite Pos.mul_comm, Z.add_comm, xorb_false_r.
Qed.

Lemma sub_diag_valid (x : float) : valid_finite x = true -> F.sub x x = F.zero.
Proof.
  destruct x as [[]|s| |s m e]; try discriminate; intros _; try reflexivity.
  unfold F.sub, SFsub. now rewrite Z.sub_diag.
Qed.

Lemma mul_zero_plain (y : float) :
  plain_float y = true -> F.is_zero (F.mul F.zero y) = true.
Proof. destruct y as [s|s| |s m e]; try discriminate; reflexivity. Qed.

Lemma add_plain_zero (x z : float) :
  plain_float x = true -> F.is_zero z = true -> F.add x z = x.
Proof.
  destruct x as [[]|s| |s m e]; try discriminate;
    destruct z as [[]|?| |? ? ?]; try discriminate; reflexivity.
Qed.

Lemma plain_valid (x : float) : plain_float x = true -> valid_finite x = true.
Proof. destruct x as [[]|s| |s m e]; try discriminate; auto. Qed.

Lemma affine_identity (x0 y0 : float) (pt : point) :
  valid_finite x0 = true -> valid_finite y0 = true -> plain_point pt = true ->
  affine F.one F.zero F.zero F.one (F.sub x0 (F.mul x0 F.one)) (F.sub y0 (F.mul y0 F.one)) pt
  = pt.
Proof.
  intros Hx Hy Hp. destruct pt as [x y]. unfold plain_point in Hp. simpl in Hp.
  apply andb_prop in Hp. destruct Hp as [Hpx Hpy].
  unfold affine. cbn [fst snd].
  rewrite (mul_valid_one _ Hx), (mul_valid_one _ Hy).
  rewrite (sub_diag_valid _ Hx), (sub_diag_valid _ Hy).
  rewrite (mul_one_valid _ (plain_valid _ Hpx)), (mul_one_valid _ (plain_valid _ Hpy)).
  rewrite (add_plain_zero x _ Hpx (mul_zero_plain _ Hpy)).
  rewrite (add_plain_zero x F.zero Hpx eq_refl).
  assert (Hz : F.add (F.mul F.zero x) y = y).
  { destruct x as [[]|?| |[] ? ?]; try discriminate;
      destruct y as [[]|?| |? ? ?]; try discriminate; reflexivity. }
  rewrite Hz. now rewrite (add_plain_zero y F.zero Hpy eq_refl).
Qed.

Lemma map_affine_identity (f : point -> point) (l : list point) :
  (∀ pt, plain_point pt = true -> f pt = pt) ->
  forallb plain_point l = true -> map f l = l.
Proof.
  intros Hf. induction l as [|pt l IH]; simpl; [reflexivity|].
  intros Hl. apply andb_prop in Hl. destruct Hl as [Hpt Hl].
  now rewrite (Hf pt Hpt), IH.
Qed.

(** [scale(p, 1., 1.)] is [p] for a plain polygon. *)
Lemma scale_one_plain (p : Polygon) :
  plain_polygon p = true -> scale p F.one F.one = p.
Proof.
  unfold plain_polygon, scale. intros Hp.
  apply andb_prop in Hp. destruct Hp as [Hp Hc].
  apply andb_prop in Hp. destruct Hp as [He Hi].
  destruct (bounds p) as [[[[minx miny] maxx] maxy]|]; [|reflexivity].
  apply andb_prop in Hc. destruct Hc as [Hx Hy].
  destruct p as [ext ints]. simpl in *. f_equal.
  - apply map_affine_identity; [|exact He]. intros pt. now apply affine_identity.
  - induction ints as [|r ints IH]; simpl; [reflexivity|].
    simpl in Hi. apply andb_prop in Hi. destruct Hi as [Hr Hi].
    rewrite IH by exact Hi. f_equal.
    apply map_affine_identity; [|exact Hr]. intros pt. now apply affine_identity.
Qed.

Lemma find_scaling_inv p min_x max_x w k w' :
  find_scaling p min_x max_x w = (Ok k, w') ->
  w' = w ∧ k = scaling_value p min_x max_x.
Proof.
  unfold find_scaling, scaling_value.
  destruct min_x as [mn|], max_x as [mx|]; try (intros [= <- <-]; split; reflexivity).
  destruct (F.np_min _) as [l|], (F.np_max _) as [r|]; try discriminate.
  intros [= <- <-]. split; reflexivity.
Qed.

Lemma NoDup4 (a b c d : loc) :
  a ≠ b -> a ≠ c -> a ≠ d -> b ≠ c -> b ≠ d -> c ≠ d -> NoDup [a; b; c; d].
Proof.
  intros. repeat (apply NoDup_cons_2; [rewrite ?elem_of_cons, elem_of_nil; tauto|]).
  apply NoDup_nil_2.
Qed.

Lemma NoDup4_inv (a b c d : loc) :
  NoDup [a; b; c; d] -> a ≠ b ∧ a ≠ c ∧ a ≠ d ∧ b ≠ c ∧ b ≠ d ∧ c ≠ d.
Proof. rewrite !NoDup_cons, !not_elem_of_cons. tauto. Qed.

Lemma insert_over_stale (h : gmap loc cell) s d a pr c1 c2 c3 c4 c0 :
  NoDup [s; d; a; pr] ->
  <[s:=c1]> (<[d:=c2]> (<[a:=c3]> (<[pr:=c4]> (<[s:=c0]> h))))
  = <[s:=c1]> (<[d:=c2]> (<[a:=c3]> (<[pr:=c4]> h))).
Proof.
  intros Hnd. apply NoDup_cons in Hnd. destruct Hnd as [Hs _].
  rewrite (insert_insert_ne _ pr s), (insert_insert_ne _ a s), (insert_insert_ne _ d s),
    insert_insert_eq; [reflexivity|..]; intros ->; apply Hs;
    rewrite ?elem_of_cons; tauto.
Qed.

Lemma properties_before_inst w l o properties :
  valid_properties (set_heap (<[l:=CInst o]> (heap w)) w) properties ->
  valid_properties w properties
  ∧ props_entries (set_heap (<[l:=CInst o]> (heap w)) w) properties
    = props_entries w properties.
Proof.
  destruct properties as [|x|x|l0|x]; simpl; try (intros []; fail); auto.
  intros (b & d & Hd & Hc). destruct (decide (l = l0)) as [->|Hne].
  - rewrite lookup_insert_eq in Hd. discriminate.
  - rewrite lookup_insert_ne in Hd by exact Hne.
    rewrite lookup_insert_ne by exact Hne. split; [eauto | reflexivity].
Qed.

(** ** The call of [scale] *)

Lemma scale_empty p x y : exterior p = [] -> scale p x y = p.
Proof. intros He. unfold scale, bounds. now rewrite He. Qed.

Lemma shapely_scale_frame p x y w r w' : shapely_scale p x y w = (r, w') -> w' = w.
Proof.
  unfold shapely_scale. destruct (exterior p); [|destruct (rings_close _)];
    unfold ret, raise; congruence.
Qed.

Lemma shapely_scale_inv p x y w g w' :
  shapely_scale p x y w = (Ok g, w') -> w' = w ∧ g = scale p x y.
Proof.
  unfold shapely_scale. destruct (exterior p) eqn:He.
  - intros [= <- <-]. split; [reflexivity|]. symmetry. now apply scale_empty.
  - destruct (rings_close _); [|discriminate]. now intros [= <- <-].
Qed.

Lemma shapely_scale_ok p x y w :
  rings_close (scale p x y) = true -> shapely_scale p x y w = (Ok (scale p x y), w).
Proof.
  intros Hr. unfold shapely_scale. destruct (exterior p) eqn:He.
  - now rewrite scale_empty.
  - now rewrite Hr.
Qed.

Lemma plain_not_nan (x : float) : plain_float x = true -> F.is_nan x = false.
Proof. destruct x; simpl; congruence. Qed.

Lemma plain_ring_closes (r : list point) :
  forallb plain_point r = true -> starts_nan r = false.
Proof.
  destruct r as [|[x y] r]; [reflexivity|]. simpl. unfold plain_point, nan_point. simpl.
  intros H. apply andb_prop in H. destruct H as [H _].
  apply andb_prop in H. destruct H as [Hx Hy].
  now rewrite (plain_not_nan _ Hx), (plain_not_nan _ Hy).
Qed.

Lemma plain_rings_close (p : Polygon) : plain_polygon p = true -> rings_close p = true.
Proof.
  unfold plain_polygon, rings_close. intros Hp.
  apply andb_prop in Hp. destruct Hp as [Hp _].
  apply andb_prop in Hp. destruct Hp as [He Hi].
  rewrite (plain_ring_closes _ He). simpl.
  apply forallb_forall. intros r Hr.
  rewrite forallb_forall in Hi. now rewrite (plain_ring_closes _ (Hi r Hr)).
Qed.

(** ** What the constructors leave *)

Lemma Area_from_shape_built p height name properties unit min_x max_x w r w' :
  Area_from_shape (GPolygon p) height name properties unit min_x max_x w = (Ok r, w') ->
  valid_properties w properties ∧ r = VNone
  ∧ ∃ a pr,
      heap w !! a = None ∧ heap w !! pr = None ∧ a ≠ pr
      ∧ w' = set_heap
               (<[a:=CInst (built_area (scale p (scaling_value p min_x max_x)
                                                (scaling_value p min_x max_x))
                                       unit height name pr)]>
                  (<[pr:=CProps true (props_entries w properties)]> (heap w))) w.
Proof.
  unfold Area_from_shape. intros H.
  apply bind_inv in H. destruct H as (k & w0 & Hk & H).
  apply find_scaling_inv in Hk. destruct Hk as [-> ->].
  apply bind_inv in H. destruct H as (g & w0 & Hg & H).
  apply shapely_scale_inv in Hg. destruct Hg as [-> ->].
  apply bind_inv in H. destruct H as (a & w1 & Ha & H). injection Ha as <- <-.
  set (a := fresh_loc (heap w)) in *. set (c0 := CInst _) in *.
  apply bind_inv in H. destruct H as (pr & w2 & Hp & H).
  apply new_PDict_inv in Hp. simpl in Hp. destruct Hp as (Hv & -> & ->).
  destruct (fresh_after_insert (heap w) a c0) as [Hne Hfr].
  set (pr := fresh_loc (<[a:=c0]> (heap w))) in *.
  apply properties_before_inst in Hv. destruct Hv as [Hv He].
  unfold c0 in H. rewrite He in H. fold c0 in H.
  apply bind_inv in H. destruct H as ([] & w3 & Hm & H). injection H as <- <-.
  erewrite modify_inst_some in Hm;
    [|simpl; rewrite lookup_insert_ne by congruence; apply lookup_insert_eq].
  injection Hm as <-. split; [exact Hv|]. split; [reflexivity|].
  exists a, pr. split; [apply fresh_loc_None|]. split; [exact Hfr|]. split; [congruence|].
  unfold set_heap. simpl. f_equal.
  rewrite (insert_insert_ne _ pr a) by congruence.
  now rewrite insert_insert_eq.
Qed.

Lemma Area_from_shape_inv p height name properties unit w r w' :
  Area_from_shape (GPolygon p) height name properties unit None None w = (Ok r, w') ->
  valid_properties w properties ∧ r = VNone
  ∧ ∃ a pr, heap w !! a = None ∧ heap w !! pr = None ∧ a ≠ pr
      ∧ w' = set_heap
               (<[a:=CInst (built_area (scale p F.one F.one) unit height name pr)]>
                  (<[pr:=CProps true (props_entries w properties)]> (heap w))) w.
Proof. apply Area_from_shape_built. Qed.

Lemma Shape_from_polygon_inv cls p min_x max_x unit parent dp w s w' :
  Shape_from_polygon cls (GPolygon p) min_x max_x unit parent dp w = (Ok s, w') ->
  valid_properties w dp
  ∧ ∃ d, constructed w w' s
           (mkInstance cls (scale p (scaling_value p min_x max_x)
                                    (scaling_value p min_x max_x))
                       parent unit "Polygon" (Some d) None None None None None)
           dp default_unit.
Proof.
  unfold Shape_from_polygon.
  unfold mbind at 1, M_bind at 1, bind at 1.
  destruct (find_scaling p min_x max_x w) as [[k|e|] w0] eqn:Hk; try discriminate.
  apply find_scaling_inv in Hk. destruct Hk as [-> ->].
  set (k := scaling_value p min_x max_x).
  destruct (exterior p) as [|pt0 rest] eqn:Hext; [discriminate|].
  unfold mbind at 1, M_bind at 1, bind at 1.
  destruct (shapely_scale p k k w) as [[g2|e|] w0] eqn:Hg; try discriminate.
  apply shapely_scale_inv in Hg. destruct Hg as [-> ->].
  unfold mbind at 1, M_bind at 1, bind at 1, alloc at 1.
  set (s0 := fresh_loc (heap w)). set (c0 := mkInstance _ _ _ _ _ _ _ _ _ _ _).
  unfold mbind at 1, M_bind at 1, bind at 1.
  destruct (Area_from_shape _ _ _ _ _ _ _ _) as [[r|e|] w1] eqn:Ha; try discriminate.
  apply Area_from_shape_inv in Ha.
  destruct Ha as (Hv & -> & a & pr & Ha & Hpr & Hapr & ->).
  apply properties_before_inst in Hv. destruct Hv as [Hv He]. rewrite He.
  simpl in Ha, Hpr. apply lookup_insert_None in Ha, Hpr.
  destruct Ha as [Ha Hsa], Hpr as [Hpr Hspr].
  unfold mbind at 1, M_bind at 1, bind at 1, alloc at 1.
  set (h3 := heap (set_heap _ _)). set (d := fresh_loc h3).
  pose proof (fresh_loc_None h3) as Hd. fold d in Hd. unfold h3 in Hd. simpl in Hd.
  apply lookup_insert_None in Hd. destruct Hd as [Hd Had].
  apply lookup_insert_None in Hd. destruct Hd as [Hd Hprd].
  apply lookup_insert_None in Hd. destruct Hd as [Hd Hsd].
  unfold mbind, M_bind, bind.
  erewrite modify_inst_some;
    [|simpl; rewrite lookup_insert_ne by congruence; unfold h3; simpl;
      rewrite !lookup_insert_ne by congruence; apply lookup_insert_eq].
  intros [= <- <-]. split; [exact Hv|]. exists d, a, pr, d.
  assert (Hnd : NoDup [s0; d; a; pr]) by (apply NoDup4; congruence).
  repeat (split; [first [apply fresh_loc_None | assumption | reflexivity]|]).
  unfold set_heap, h3. simpl. f_equal.
  rewrite insert_over_stale by exact Hnd. reflexivity.
Qed.

Lemma Shape_from_polygon_nonempty cls p min_x max_x unit parent dp w s w' :
  Shape_from_polygon cls (GPolygon p) min_x max_x unit parent dp w = (Ok s, w') ->
  exterior p ≠ [].
Proof.
  unfold Shape_from_polygon. intros H.
  apply bind_inv in H. destruct H as (k & w0 & _ & H).
  destruct (exterior p); [discriminate | congruence].
Qed.

Lemma Polygon_new_frame shell holes w r w' :
  Polygon_new shell holes w = (r, w') -> w' = w.
Proof.
  unfold Polygon_new. destruct shell; [|destruct (_ && _)]; unfold ret, raise; congruence.
Qed.

Lemma Polygon_new_inv shell holes w g w' :
  Polygon_new shell holes w = (Ok g, w') -> w' = w ∧ g = polygon_of shell holes.
Proof.
  unfold Polygon_new, polygon_of. destruct shell.
  - now intros [= <- <-].
  - destruct (_ && _); [|discriminate]. now intros [= <- <-].
Qed.

Lemma Polygon_new_again shell holes w g w' :
  Polygon_new shell holes w = (Ok g, w') ->
  ∀ w2, Polygon_new shell holes w2 = (Ok g, w2).
Proof.
  unfold Polygon_new. destruct shell.
  - now intros [= <- <-].
  - destruct (_ && _); [|discriminate]. now intros [= <- <-].
Qed.

Lemma Polygon_new_ok shell holes w :
  ring_ok shell && forallb ring_ok holes = true ->
  Polygon_new shell holes w = (Ok (mkPolygon shell holes), w).
Proof.
  intros Hr. unfold Polygon_new. rewrite Hr. destruct shell; [discriminate | reflexivity].
Qed.

Lemma Shape_init_inv cls shell holes unit parent dp w s w' :
  Shape_init cls shell holes unit parent dp w = (Ok s, w') ->
  valid_properties w dp
  ∧ ∃ d, constructed w w' s
           (mkInstance cls (polygon_of shell holes) parent unit "Polygon" (Some d)
                       None None None None None)
           dp unit.
Proof.
  unfold Shape_init.
  unfold mbind at 1, M_bind at 1, bind at 1, alloc at 1.
  set (s0 := fresh_loc (heap w)). set (c0 := mkInstance _ _ _ _ _ _ _ _ _ _ _).
  unfold mbind at 1, M_bind at 1, bind at 1.
  destruct (Polygon_new shell holes _) as [[tmp|e|] w0] eqn:Ht; try discriminate.
  pose proof (Polygon_new_again _ _ _ _ _ Ht) as Hg.
  apply Polygon_new_inv in Ht. destruct Ht as [-> ->].
  unfold mbind at 1, M_bind at 1, bind at 1.
  destruct (Area_from_shape _ _ _ _ _ _ _ _) as [[r|e|] w1] eqn:Ha; try discriminate.
  apply Area_from_shape_inv in Ha.
  destruct Ha as (Hv & -> & a & pr & Ha & Hpr & Hapr & ->).
  apply properties_before_inst in Hv. destruct Hv as [Hv He]. rewrite He.
  simpl in Ha, Hpr. apply lookup_insert_None in Ha, Hpr.
  destruct Ha as [Ha Hsa], Hpr as [Hpr Hspr].
  unfold mbind at 1, M_bind at 1, bind at 1, alloc at 1.
  set (h3 := heap (set_heap _ _)). set (d := fresh_loc h3).
  pose proof (fresh_loc_None h3) as Hd. fold d in Hd. unfold h3 in Hd. simpl in Hd.
  apply lookup_insert_None in Hd. destruct Hd as [Hd Had].
  apply lookup_insert_None in Hd. destruct Hd as [Hd Hprd].
  apply lookup_insert_None in Hd. destruct Hd as [Hd Hsd].
  unfold mbind at 1, M_bind at 1, bind at 1.
  erewrite modify_inst_some;
    [|simpl; rewrite lookup_insert_ne by congruence; unfold h3; simpl;
      rewrite !lookup_insert_ne by congruence; apply lookup_insert_eq].
  unfold mbind at 1, M_bind at 1, bind at 1.
  rewrite Hg.
  unfold mbind, M_bind, bind.
  erewrite modify_inst_some; [|simpl; apply lookup_insert_eq].
  intros [= <- <-]. split; [exact Hv|]. exists d, a, pr, d.
  assert (Hnd : NoDup [s0; d; a; pr]) by (apply NoDup4; congruence).
  repeat (split; [first [apply fresh_loc_None | assumption | reflexivity]|]).
  unfold set_heap, h3. simpl. f_equal.
  rewrite insert_insert_eq, insert_over_stale by exact Hnd. reflexivity.
Qed.

Lemma constructed_modify w w' s region dp u (f : instance -> instance) :
  constructed w w' s region dp u ->
  i_geom (f region) = i_geom region -> i_areas (f region) = i_areas region ->
  ∃ w'', modify_inst s f w' = (Ok tt, w'') ∧ constructed w w'' s (f region) dp u.
Proof.
  intros (a & pr & d & Hs & Ha & Hpr & Hd & Hnd & Har & ->) Hg Hf.
  eexists. split.
  - apply modify_inst_some. simpl. apply lookup_insert_eq.
  - exists a, pr, d. repeat (split; [first [assumption | congruence]|]).
    unfold set_heap, default_area_of. simpl. rewrite insert_insert_eq, Hg. reflexivity.
Qed.

Lemma default_entry_of_claim w s :
  default_area_claim w s -> ∃ a, Demo.default_entry w s = Some (VRef a).
Proof.
  intros (region & d & a & area & pr & Hs & Har & Hd & _). exists a.
  unfold Demo.default_entry, Demo.partition_at. rewrite Hs, Har, Hd. simpl.
  apply lookup_singleton_eq.
Qed.

Section Constructors.
Context {CO : Collaborators}.

Lemma scale_geom_frame g x y w r w' : scale_geom g x y w = (r, w') -> w' = w.
Proof.
  destruct g as [p|]; simpl; [|unfold ret; congruence].
  unfold fmap, M_fmap, bind.
  destruct (shapely_scale p x y w) as [[q|e|] w1] eqn:E; apply shapely_scale_frame in E;
    subst; unfold ret; congruence.
Qed.

Lemma scale_geom_inv g x y w g' w' :
  scale_geom g x y w = (Ok g', w') ->
  w' = w ∧ g' = match g with GPolygon p => GPolygon (scale p x y) | GOther => GOther end.
Proof.
  destruct g as [p|]; simpl; [|now intros [= <- <-]].
  unfold fmap, M_fmap, bind.
  destruct (shapely_scale p x y w) as [[q|e|] w1] eqn:E; try discriminate.
  apply shapely_scale_inv in E. destruct E as [-> ->]. now intros [= <- <-].
Qed.

Lemma construct_inv c unit parent dp w s w' :
  construct c unit parent dp w = (Ok s, w') ->
  valid_properties w dp
  ∧ ∃ region area_unit, constructed w w' s region dp area_unit
                        ∧ i_class region = ClsShape.
Proof.
  destruct c as [shell holes|polygon mn mx|height width c|radius c|radii c]; simpl.
  - intros Hc. apply Shape_init_inv in Hc. destruct Hc as [Hv [d Hc]]. eauto.
  - destruct polygon as [p|]; [|discriminate].
    intros Hc. apply Shape_from_polygon_inv in Hc. destruct Hc as [Hv [d Hc]]. eauto.
  - unfold Shape_rectangle. cbn [is_Area_class]. intros Hc.
    apply bind_inv in Hc. destruct Hc as (s0 & w1 & Hi & Hc).
    apply Shape_init_inv in Hi. destruct Hi as [Hv [d Hi]].
    destruct (constructed_modify _ _ _ _ _ _ (set_geom_type "Rectangle") Hi eq_refl eq_refl)
      as (w2 & Hm & Hc2).
    rewrite (bind_ok _ _ _ _ _ Hm) in Hc. injection Hc as <- <-. eauto.
  - unfold Shape_disk. intros Hc.
    apply bind_inv in Hc. destruct Hc as (s0 & w1 & Hi & Hc).
    destruct (point_buffer c radius) as [p|]; [|discriminate].
    apply Shape_from_polygon_inv in Hi. destruct Hi as [Hv [d Hi]].
    destruct (constructed_modify _ _ _ _ _ _ (set_geom_type "Disk") Hi eq_refl eq_refl)
      as (w2 & Hm & Hc2).
    rewrite (bind_ok _ _ _ _ _ Hm) in Hc.
    destruct (constructed_modify _ _ _ _ _ _ (set_radius radius) Hc2 eq_refl eq_refl)
      as (w3 & Hm3 & Hc3).
    rewrite (bind_ok _ _ _ _ _ Hm3) in Hc. injection Hc as <- <-. eauto.
  - unfold Shape_ellipse. intros Hc.
    apply bind_inv in Hc. destruct Hc as (g & w0 & Hg & Hc).
    apply scale_geom_inv in Hg. destruct Hg as [-> ->].
    apply bind_inv in Hc. destruct Hc as (s0 & w1 & Hi & Hc).
    destruct (point_buffer c F.one) as [p|]; [|discriminate].
    apply Shape_from_polygon_inv in Hi. destruct Hi as [Hv [d Hi]].
    destruct (constructed_modify _ _ _ _ _ _ (set_geom_type "Ellipse") Hi eq_refl eq_refl)
      as (w2 & Hm & Hc2).
    rewrite (bind_ok _ _ _ _ _ Hm) in Hc.
    destruct (constructed_modify _ _ _ _ _ _ (set_radii radii) Hc2 eq_refl eq_refl)
      as (w3 & Hm3 & Hc3).
    rewrite (bind_ok _ _ _ _ _ Hm3) in Hc. injection Hc as <- <-. eauto.
Qed.

(** C1: whichever way a region is constructed, the dictionary of its areas
    has the one key ["default_area"], and what it holds there is [None],
    not an area: [Area.from_shape] builds the area and has no [return]
    statement.  The area it built is a new [Area] named ["default_area"],
    of height [0.], whose geometry is the region's rescaled by [1.] (the
    very geometry when the polygon is plain) and whose [_PDict] is a new
    dictionary holding the entries of [default_properties], none when no
    properties are given.  So the partition of no fresh region is the one
    the specification describes. *)
Theorem fresh_region_default_entry_is_None (c : ctor_call) (unit : string)
    (parent : option nat) (default_properties : pyval) (w w' : world) (s : loc) :
  construct c unit parent default_properties w = (Ok s, w') ->
  (∃ region d a area pr,
     heap w' !! s = Some (CInst region) ∧ i_areas region = Some d
     ∧ heap w' !! d = Some (CDict {["default_area" := VNone]})
     ∧ heap w !! a = None ∧ heap w' !! a = Some (CInst area)
     ∧ i_class area = ClsArea ∧ i_name area = Some (VStr "default_area")
     ∧ i_height area = Some (VFloat F.zero)
     ∧ i_geom area = scale (i_geom region) F.one F.one
     ∧ (plain_polygon (i_geom region) = true -> i_geom area = i_geom region)
     ∧ i_prop area = Some pr ∧ heap w !! pr = None
     ∧ heap w' !! pr = Some (CProps true (props_entries w default_properties)))
  ∧ ¬ default_area_claim w' s.
Proof.
  intros Hc. apply construct_inv in Hc.
  destruct Hc as (Hv & region & u & (a & pr & d & Hs & Ha & Hpr & Hd & Hnd & Har & ->) & Hcl).
  apply NoDup4_inv in Hnd. destruct Hnd as (Hsd & Hsa & Hspr & Hda & Hdpr & Hapr).
  set (w' := set_heap _ w).
  assert (Hs' : heap w' !! s = Some (CInst region)) by apply lookup_insert_eq.
  assert (Hd' : heap w' !! d = Some (CDict {["default_area" := VNone]})).
  { unfold w'. simpl. rewrite lookup_insert_ne by congruence. apply lookup_insert_eq. }
  split.
  - exists region, d, a, (default_area_of region u pr), pr.
    split; [exact Hs'|]. split; [exact Har|]. split; [exact Hd'|].
    split; [exact Ha|].
    split. { unfold w'. simpl. rewrite !lookup_insert_ne by congruence. apply lookup_insert_eq. }
    do 4 (split; [reflexivity|]).
    split. { intros Hp. simpl. now apply scale_one_plain. }
    split; [reflexivity|]. split; [exact Hpr|].
    unfold w'. simpl. rewrite !lookup_insert_ne by congruence. apply lookup_insert_eq.
  - intros Hclaim. apply default_entry_of_claim in Hclaim. destruct Hclaim as [a' Ha'].
    unfold Demo.default_entry, Demo.partition_at in Ha'.
    rewrite Hs', Har, Hd' in Ha'. simpl in Ha'.
    rewrite lookup_singleton_eq in Ha'. discriminate.
Qed.

End Constructors.

(** ** [deepcopy] and the [areas] property *)








(** ** When the constructors return *)

Lemma valid_properties_after_alloc w l c properties :
  heap w !! l = None -> valid_properties w properties ->
  valid_properties (set_heap (<[l:=c]> (heap w)) w) properties.
Proof.
  intros Hl. destruct properties as [|x|x|l0|x]; simpl; auto.
  intros (b & d & Hd & Hc). exists b, d. split; [|exact Hc].
  rewrite lookup_insert_ne; [exact Hd | congruence].
Qed.

Lemma Area_from_shape_ok p height name properties unit w :
  rings_close (scale p F.one F.one) = true ->
  valid_properties w properties ->
  ∃ w', Area_from_shape (GPolygon p) height name properties unit None None w
        = (Ok VNone, w').
Proof.
  intros Hr Hv. unfold Area_from_shape, find_scaling.
  unfold mbind at 1, M_bind at 1, bind at 1, ret at 1.
  rewrite (bind_ok _ _ _ _ _ (shapely_scale_ok _ _ _ _ Hr)).
  unfold mbind at 1, M_bind at 1, bind at 1, alloc at 1.
  set (a := fresh_loc (heap w)). set (c0 := CInst _).
  rewrite (bind_ok _ _ _ _ _
             (new_PDict_ok _ _ (valid_properties_after_alloc w a c0 _
                                  (fresh_loc_None _) Hv))).
  destruct (fresh_after_insert (heap w) a c0) as [Hne _].
  simpl heap. set (pr := fresh_loc (<[a:=c0]> (heap w))) in *.
  erewrite (bind_ok (modify_inst a _));
    [| apply modify_inst_some; simpl; rewrite lookup_insert_ne by congruence;
       apply lookup_insert_eq].
  eexists. reflexivity.
Qed.

Lemma find_scaling_ok p mn mx w :
  exterior p ≠ [] ->
  find_scaling p (Some mn) (Some mx) w = (Ok (scaling_value p (Some mn) (Some mx)), w).
Proof.
  unfold find_scaling, scaling_value, F.np_min, F.np_max.
  destruct (exterior p) as [|[x y] r]; [congruence|]. reflexivity.
Qed.

Lemma Shape_from_polygon_returns cls p mn mx unit parent dp w :
  find_scaling p mn mx w = (Ok (scaling_value p mn mx), w) ->
  exterior p ≠ [] ->
  rings_close (scale p (scaling_value p mn mx) (scaling_value p mn mx)) = true ->
  rings_close (scale (scale p (scaling_value p mn mx) (scaling_value p mn mx))
                     F.one F.one) = true ->
  valid_properties w dp ->
  ∃ s w', Shape_from_polygon cls (GPolygon p) mn mx unit parent dp w = (Ok s, w').
Proof.
  intros Hk Hne Hr1 Hr2 Hv. unfold Shape_from_polygon.
  rewrite (bind_ok _ _ _ _ _ Hk).
  destruct (exterior p) as [|pt0 rest] eqn:Hext; [congruence|].
  rewrite (bind_ok _ _ _ _ _ (shapely_scale_ok _ _ _ _ Hr1)).
  unfold mbind at 1, M_bind at 1, bind at 1, alloc at 1.
  set (s0 := fresh_loc (heap w)). set (c0 := CInst _).
  destruct (Area_from_shape_ok
              (scale p (scaling_value p mn mx) (scaling_value p mn mx))
              default_height (VStr "default_area") dp default_unit
              (set_heap (<[s0:=c0]> (heap w)) w) Hr2
              (valid_properties_after_alloc w s0 c0 _ (fresh_loc_None _) Hv))
    as [w1 Ha].
  pose proof Ha as Ha'. apply Area_from_shape_inv in Ha'.
  destruct Ha' as (_ & _ & a & pr & Hna & Hnpr & _ & Hw1).
  simpl in Hna, Hnpr. apply lookup_insert_None in Hna, Hnpr.
  rewrite (bind_ok _ _ _ _ _ Ha).
  unfold mbind at 1, M_bind at 1, bind at 1, alloc at 1.
  pose proof (fresh_loc_None (heap w1)) as Hd. set (d := fresh_loc (heap w1)) in *.
  assert (Hs0 : heap w1 !! s0 = Some c0).
  { rewrite Hw1. simpl. rewrite !lookup_insert_ne by (intros ->; tauto).
    apply lookup_insert_eq. }
  erewrite (bind_ok (modify_inst s0 _));
    [| apply modify_inst_some; simpl; rewrite lookup_insert_ne;
       [exact Hs0 | intros ->; congruence]].
  eexists _, _. reflexivity.
Qed.

(** A rescaled polygon with plain coordinates passes both times. *)
Lemma plain_scaled_closes (q : Polygon) :
  plain_polygon q = true ->
  rings_close q = true ∧ rings_close (scale q F.one F.one) = true.
Proof.
  intros Hq. rewrite (scale_one_plain _ Hq). split; now apply plain_rings_close.
Qed.

(** ** The order of floats *)

















(** ** An infinite or NaN factor on a polygon of zero width *)








Lemma scale_exterior_length p x y : length (exterior (scale p x y)) = length (exterior p).
Proof.
  unfold scale. destruct (bounds p) as [[[[a b] c] d]|]; [|reflexivity].
  simpl. apply length_map.
Qed.




(** ** The statements on concrete calls *)

Lemma PDict_default_read_checked_write_witness :
  props_getitem 1%positive "speed" Demo.w_props = (Ok F.one, Demo.w_props)
  ∧ props_setitem 1%positive "speed" (F.of_Z (-1)) Demo.w_props
    = (Raise (AssertionError PDict_msg), Demo.w_props)
  ∧ props_setitem 1%positive "speed" F.nan Demo.w_props
    = (Ok tt, set_heap (<[1%positive:=CProps true (<["speed":=F.nan]> ∅)]>
                          (heap Demo.w_props)) Demo.w_props).
Proof.
  destruct (PDict_default_read_checked_write Demo.w_props 1%positive ∅ "speed"
              (F.of_Z (-1)) eq_refl) as (Hread & Hneg & _).
  destruct (PDict_default_read_checked_write Demo.w_props 1%positive ∅ "speed"
              F.nan eq_refl) as (_ & _ & Hnan).
  split; [apply Hread; reflexivity|].
  split; [apply Hneg; reflexivity | apply Hnan; right; reflexivity].
Defined.

(** C2, at a rectangle whose partition holds an area ["a1"], on the call
    [s.add_area(g)] with an area [g] that overlaps ["a1"]: the call raises
    [NameError] for [self], not the [AssertionError] of the overlap check,
    and the world is left as it was. *)
Theorem add_area_on_overlap_raises_NameError :
  Demo.partition_at Demo.w_named Demo.named_s
    = Some {["default_area" := VNone; "a1" := VRef Demo.named_a1]}
  ∧ @geom_overlaps Demo.coarse
      (@geom_intersection Demo.coarse (Demo.geom_at Demo.w_named Demo.named_s)
                          (Demo.geom_at Demo.w_named Demo.named_g))
      (Demo.geom_at Demo.w_named Demo.named_a1) = true
  ∧ invoke_add_area (CO:=Demo.coarse) Demo.named_s [VRef Demo.named_g] [] Demo.w_named
    = (Raise (NameError "self"), Demo.w_named)
  ∧ NameError "self" ≠ AssertionError overlap_msg.
Proof.
  split; [vm_compute; reflexivity|]. split; [vm_compute; reflexivity|].
  split; [apply Shape_add_area_raises | discriminate].
Qed.

(** C3, at a fresh rectangle and a shape [g] inside it, on the call
    [s.add_area(g)]: the call raises [NameError] for [self] and the world is
    left as it was, so that no area is inserted and the entry of
    ["default_area"] is not replaced. *)
Theorem add_area_inside_raises_NameError :
  Demo.partition_at Demo.w_fresh Demo.fresh_s = Some {["default_area" := VNone]}
  ∧ invoke_add_area (CO:=Demo.coarse) Demo.fresh_s [VRef Demo.fresh_g] [] Demo.w_fresh
    = (Raise (NameError "self"), Demo.w_fresh).
Proof. split; [vm_compute; reflexivity | apply Shape_add_area_raises]. Qed.

(** C6, at the square [0, 2] x [0, 2] with [min_x = 0] and [max_x = 4]: the
    factor is [2] along both axes, about the centre [(1, 1)] of the bounding
    box, and the region extends over [-1, 3], not over [0, 4]. *)
Theorem from_polygon_extent_keeps_centre :
  Demo.scaled_call.1 = Ok 1%positive
  ∧ scaling_value Demo.square2 (Some (F.of_Z 0)) (Some (F.of_Z 4)) = F.of_Z 2
  ∧ Demo.geom_at Demo.scaled_call.2 1%positive
    = scale Demo.square2 (F.of_Z 2) (F.of_Z 2)
  ∧ bounds (Demo.geom_at Demo.scaled_call.2 1%positive)
    = Some (F.of_Z (-1), F.of_Z (-1), F.of_Z 3, F.of_Z 3).
Proof. repeat split; vm_compute; reflexivity. Qed.

Lemma seed_neurons_container_counterexample :
  is_None (VRef Demo.disk1) = false
  ∧ Shape_seed_neurons (CO:=Demo.coarse) 5 Demo.disk1 None (VRef Demo.disk1)
      None None None None F.zero None Demo.w_disk
    = (Raise (ValueError "`neurons` cannot be None if `parent` is None."), Demo.w_disk)
  ∧ is_NameError (ValueError "`neurons` cannot be None if `parent` is None.") = false.
Proof. repeat split; vm_compute; reflexivity. Qed.

Lemma seed_neurons_container_never_returns_witness :
  Shape_seed_neurons (CO:=Demo.coarse) 5 Demo.disk1 (Some 2) (VRef Demo.disk1)
    None None None None F.zero None Demo.w_disk
  = (Raise (UnboundLocalError "min_x"), Demo.w_disk)
  ∧ is_NameError (UnboundLocalError "min_x") = true.
Proof.
  destruct (seed_neurons_container_never_returns (CO:=Demo.coarse) Demo.w_disk 5
              Demo.disk1 (Some 2) (VRef Demo.disk1) None None None None F.zero None
              eq_refl) as [_ Hraise].
  eapply Hraise; [vm_compute; reflexivity | reflexivity | reflexivity
                 | vm_compute; reflexivity].
Defined.


Lemma fresh_region_default_entry_is_None_witness :
  (∃ region d a area pr,
     heap rect_call.2 !! 1%positive = Some (CInst region) ∧ i_areas region = Some d
     ∧ heap rect_call.2 !! d = Some (CDict {["default_area" := VNone]})
     ∧ heap Demo.w0 !! a = None ∧ heap rect_call.2 !! a = Some (CInst area)
     ∧ i_class area = ClsArea ∧ i_name area = Some (VStr "default_area")
     ∧ i_height area = Some (VFloat F.zero)
     ∧ i_geom area = scale (i_geom region) F.one F.one
     ∧ (plain_polygon (i_geom region) = true -> i_geom area = i_geom region)
     ∧ i_prop area = Some pr ∧ heap Demo.w0 !! pr = None
     ∧ heap rect_call.2 !! pr = Some (CProps true (props_entries Demo.w0 VNone)))
  ∧ ¬ default_area_claim rect_call.2 1%positive.
Proof.
  apply (fresh_region_default_entry_is_None (CO:=Demo.coarse)
           (Rectangle (F.of_Z 4) (F.of_Z 4) (Demo.pt 2 2)) "um" None VNone
           Demo.w0 rect_call.2 1%positive).
  vm_compute. reflexivity.
Defined.


(** * Further properties of the module *)

(** ** [_PDict]: what is written is what is read *)

Lemma props_getitem_PDict l d key w :
  heap w !! l = Some (CProps true d) ->
  props_getitem l key w = (Ok (PDict_getitem d key), w).
Proof.
  intros Hl. unfold props_getitem.
  now rewrite (bind_ok _ _ _ _ _ (read_cell_some _ _ _ Hl)).
Qed.

Lemma props_setitem_PDict l d key v w :
  heap w !! l = Some (CProps true d) ->
  props_setitem l key v w
  = if nonneg_or_nan v
    then (Ok tt, set_heap (<[l:=CProps true (<[key:=v]> d)]> (heap w)) w)
    else (Raise (AssertionError PDict_msg), w).
Proof.
  intros Hl. unfold props_setitem.
  rewrite (bind_ok _ _ _ _ _ (read_cell_some _ _ _ Hl)).
  unfold PDict_setitem, nonneg_or_nan. now destruct (_ || _).
Qed.

(** X1: a factor stored in a [_PDict] is the factor read back under the
    same key; the other keys read as before, absent ones as [1.]; no other
    object is touched. *)
Theorem PDict_write_then_read (w : world) (l : loc) (d : gmap string float)
    (key : string) (v : float) :
  heap w !! l = Some (CProps true d) ->
  nonneg_or_nan v = true ->
  ∃ w',
    props_setitem l key v w = (Ok tt, w')
    ∧ props_getitem l key w' = (Ok v, w')
    ∧ (∀ key', key' ≠ key ->
         props_getitem l key' w = (Ok (PDict_getitem d key'), w)
         ∧ props_getitem l key' w' = (Ok (PDict_getitem d key'), w'))
    ∧ (∀ l', l' ≠ l -> heap w' !! l' = heap w !! l').
Proof.
  intros Hl Hv. eexists. split.
  { rewrite (props_setitem_PDict _ _ _ _ _ Hl), Hv. reflexivity. }
  split.
  { erewrite props_getitem_PDict by (simpl; apply lookup_insert_eq).
    unfold PDict_getitem. now rewrite lookup_insert_eq. }
  split.
  - intros key' Hne. split; [exact (props_getitem_PDict _ _ _ _ Hl)|].
    erewrite props_getitem_PDict by (simpl; apply lookup_insert_eq).
    unfold PDict_getitem. now rewrite lookup_insert_ne by congruence.
  - intros l' Hne. simpl. now rewrite lookup_insert_ne by congruence.
Qed.

Lemma PDict_valid_insert d key v :
  PDict_valid d -> nonneg_or_nan v = true -> PDict_valid (<[key:=v]> d).
Proof.
  intros Hd Hv k x Hk. apply lookup_insert_Some in Hk.
  destruct Hk as [[_ <-]|[_ Hk]]; [exact Hv | eauto].
Qed.

(** X2: the factors of a [_PDict] that holds only factors that are at
    least zero or NaN stay so under every [__setitem__], accepted or
    refused, and every read of it, of an absent key too, gives such a
    factor. *)
Theorem PDict_setitem_keeps_factors_valid (w : world) (l : loc)
    (d : gmap string float) :
  heap w !! l = Some (CProps true d) -> PDict_valid d ->
  (∀ key, ∃ x, props_getitem l key w = (Ok x, w) ∧ nonneg_or_nan x = true)
  ∧ (∀ key v, ∃ d',
       heap (props_setitem l key v w).2 !! l = Some (CProps true d')
       ∧ PDict_valid d').
Proof.
  intros Hl Hd. split.
  - intros key. eexists. split; [exact (props_getitem_PDict _ _ _ _ Hl)|].
    unfold PDict_getitem. destruct (d !! key) as [x|] eqn:Hk; [exact (Hd _ _ Hk) | reflexivity].
  - intros key v. rewrite (props_setitem_PDict _ _ _ _ _ Hl).
    destruct (nonneg_or_nan v) eqn:Hv; simpl.
    + eexists. split; [apply lookup_insert_eq | now apply PDict_valid_insert].
    + eauto.
Qed.

Lemma PDict_write_then_read_witness :
  ∃ w',
    props_setitem 1%positive "speed" F.two Demo.w_props = (Ok tt, w')
    ∧ props_getitem 1%positive "speed" w' = (Ok F.two, w')
    ∧ (∀ key', key' ≠ "speed" ->
         props_getitem 1%positive key' Demo.w_props
         = (Ok (PDict_getitem ∅ key'), Demo.w_props)
         ∧ props_getitem 1%positive key' w' = (Ok (PDict_getitem ∅ key'), w'))
    ∧ (∀ l', l' ≠ 1%positive -> heap w' !! l' = heap Demo.w_props !! l').
Proof.
  apply (PDict_write_then_read Demo.w_props 1%positive ∅ "speed" F.two);
    reflexivity.
Defined.

Lemma PDict_setitem_keeps_factors_valid_witness :
  (∀ key, ∃ x, props_getitem 1%positive key Demo.w_props = (Ok x, Demo.w_props)
               ∧ nonneg_or_nan x = true)
  ∧ (∀ key v, ∃ d',
       heap (props_setitem 1%positive key v Demo.w_props).2 !! 1%positive
       = Some (CProps true d')
       ∧ PDict_valid d').
Proof.
  apply (PDict_setitem_keeps_factors_valid Demo.w_props 1%positive ∅);
    [reflexivity | intros k v Hk; now rewrite lookup_empty in Hk].
Defined.

(** ** What a call keeps: the rules *)

Lemma keeps_ret {A} (R : world -> Prop) (a : A) (P : A -> Prop) :
  P a -> keeps R (ret a) P.
Proof. intros Ha w Hw. split; [exact Hw|]. intros a' [= <-]. exact Ha. Qed.

Lemma keeps_raise {A} (R : world -> Prop) (e : exn) (P : A -> Prop) :
  keeps R (raise e) P.
Proof. intros w Hw. split; [exact Hw | discriminate]. Qed.

Lemma keeps_stuck {A} (R : world -> Prop) (P : A -> Prop) : keeps R stuck P.
Proof. intros w Hw. split; [exact Hw | discriminate]. Qed.

Lemma keeps_bind {A B} (R : world -> Prop) (m : M A) (k : A -> M B)
    (P : A -> Prop) (Q : B -> Prop) :
  keeps R m P -> (∀ a, P a -> keeps R (k a) Q) -> keeps R (m ≫= k) Q.
Proof.
  intros Hm Hk w Hw. destruct (Hm w Hw) as [H1 H2].
  unfold mbind, M_bind, bind. destruct (m w) as [[a|e|] w1]; simpl in *.
  - apply Hk; auto.
  - split; [exact H1 | discriminate].
  - split; [exact H1 | discriminate].
Qed.

Lemma keeps_weaken {A} (R : world -> Prop) (m : M A) (P Q : A -> Prop) :
  keeps R m P -> (∀ a, P a -> Q a) -> keeps R m Q.
Proof. intros Hm HPQ w Hw. destruct (Hm w Hw) as [H1 H2]. split; auto. Qed.

(** A call that leaves the world as it is keeps everything. *)
Lemma keeps_reader {A} (R : world -> Prop) (m : M A) :
  (∀ w r w', m w = (r, w') -> w' = w) -> keeps R m (λ _, True).
Proof.
  intros Hm w Hw. destruct (m w) as [r w'] eqn:E. apply Hm in E. subst w'.
  split; [exact Hw | trivial].
Qed.

Lemma getattr_frame {A} name (a : option A) w r w' :
  getattr name a w = (r, w') -> w' = w.
Proof. destruct a; unfold getattr, ret, raise; congruence. Qed.

Lemma load_local_frame {A} name (a : option A) w r w' :
  load_local name a w = (r, w') -> w' = w.
Proof. destruct a; unfold load_local, ret, raise; congruence. Qed.

Lemma find_scaling_frame p mn mx w r w' :
  find_scaling p mn mx w = (r, w') -> w' = w.
Proof.
  unfold find_scaling. destruct mn, mx; try (unfold ret; congruence).
  destruct (F.np_min _); [destruct (F.np_max _)|]; unfold ret, raise; congruence.
Qed.

Section Over.
Variable w0 : world.
Variable Q : world -> Prop.
Hypothesis HQ : heap_blind Q.

Lemma over_alloc c : keeps (over w0 Q) (alloc c) (λ l, heap w0 !! l = None).
Proof.
  intros w [Hsub Hq].
  assert (Hn : heap w0 !! fresh_loc (heap w) = None).
  { eapply lookup_weaken_None; [apply fresh_loc_None | exact Hsub]. }
  split; [|intros a [= <-]; exact Hn].
  split; [|apply HQ, Hq]. simpl. now apply insert_subseteq_r.
Qed.

Lemma over_write_cell l c :
  heap w0 !! l = None -> keeps (over w0 Q) (write_cell l c) (λ _, True).
Proof.
  intros Hl w [Hsub Hq]. split; [|trivial].
  split; [|apply HQ, Hq]. simpl. now apply insert_subseteq_r.
Qed.

Lemma over_modify_inst l f :
  heap w0 !! l = None -> keeps (over w0 Q) (modify_inst l f) (λ _, True).
Proof.
  intros Hl. unfold modify_inst.
  eapply keeps_bind; [apply keeps_reader, read_inst_frame|].
  intros o _. now apply over_write_cell.
Qed.

Lemma over_new_PDict properties :
  keeps (over w0 Q) (new_PDict properties) (λ l, heap w0 !! l = None).
Proof.
  destruct properties as [|x|x|l|x]; simpl; try apply keeps_raise.
  - apply over_alloc.
  - eapply keeps_bind; [apply keeps_reader, read_cell_frame|].
    intros [d|b d|o] _; try apply keeps_raise.
    destruct (can_copy b d); [apply over_alloc | apply keeps_raise].
Qed.

Lemma over_Area_from_shape shape height name properties unit mn mx :
  keeps (over w0 Q) (Area_from_shape shape height name properties unit mn mx)
        (λ _, True).
Proof.
  destruct shape as [p|]; unfold Area_from_shape; cbv beta iota;
    [|apply keeps_raise].
  eapply keeps_bind; [apply keeps_reader, find_scaling_frame|]. intros k _.
  eapply keeps_bind; [apply keeps_reader, shapely_scale_frame|]. intros g _.
  eapply keeps_bind; [apply over_alloc|]. intros obj Hobj.
  eapply keeps_bind; [apply over_new_PDict|]. intros pr _.
  eapply keeps_bind; [now apply over_modify_inst|]. intros _ _.
  now apply keeps_ret.
Qed.

Lemma over_Shape_from_polygon cls polygon mn mx unit parent dp :
  keeps (over w0 Q) (Shape_from_polygon cls polygon mn mx unit parent dp)
        (λ s, heap w0 !! s = None).
Proof.
  destruct polygon as [p|]; unfold Shape_from_polygon; cbv beta iota;
    [|apply keeps_raise].
  eapply keeps_bind; [apply keeps_reader, find_scaling_frame|]. intros k _.
  destruct (exterior p); [apply keeps_stuck|].
  eapply keeps_bind; [apply keeps_reader, shapely_scale_frame|]. intros g2 _.
  eapply keeps_bind; [apply over_alloc|]. intros p2 Hp2.
  eapply keeps_bind; [apply over_Area_from_shape|]. intros a _.
  eapply keeps_bind; [apply over_alloc|]. intros d _.
  eapply keeps_bind; [now apply over_modify_inst|]. intros _ _.
  now apply keeps_ret.
Qed.

Lemma over_Shape_init cls shell holes unit parent dp :
  keeps (over w0 Q) (Shape_init cls shell holes unit parent dp)
        (λ s, heap w0 !! s = None).
Proof.
  unfold Shape_init.
  eapply keeps_bind; [apply over_alloc|]. intros self Hself.
  eapply keeps_bind; [apply keeps_reader, Polygon_new_frame|]. intros tmp _.
  eapply keeps_bind; [apply over_Area_from_shape|]. intros a _.
  eapply keeps_bind; [apply over_alloc|]. intros d _.
  eapply keeps_bind; [now apply over_modify_inst|]. intros _ _.
  eapply keeps_bind; [apply keeps_reader, Polygon_new_frame|]. intros g _.
  eapply keeps_bind; [now apply over_modify_inst|]. intros _ _.
  now apply keeps_ret.
Qed.

Lemma over_Shape_rectangle cls height width centroid unit parent dp :
  keeps (over w0 Q) (Shape_rectangle cls height width centroid unit parent dp)
        (λ s, heap w0 !! s = None).
Proof.
  unfold Shape_rectangle.
  eapply keeps_bind;
    [destruct (is_Area_class cls); [apply keeps_raise | apply over_Shape_init]|].
  intros s Hs.
  eapply keeps_bind; [now apply over_modify_inst|]. intros _ _.
  now apply keeps_ret.
Qed.

Lemma over_Area_init shell holes unit height name properties :
  keeps (over w0 Q) (Area_init shell holes unit height name properties)
        (λ s, heap w0 !! s = None).
Proof.
  unfold Area_init.
  eapply keeps_bind; [apply over_Shape_init|]. intros s Hs.
  eapply keeps_bind; [apply over_new_PDict|]. intros pr _.
  eapply keeps_bind; [now apply over_modify_inst|]. intros _ _.
  now apply keeps_ret.
Qed.

Context {CO : Collaborators}.

Lemma over_Shape_disk cls radius centroid unit parent dp :
  keeps (over w0 Q) (Shape_disk cls radius centroid unit parent dp)
        (λ s, heap w0 !! s = None).
Proof.
  unfold Shape_disk.
  eapply keeps_bind; [apply over_Shape_from_polygon|]. intros s Hs.
  eapply keeps_bind; [now apply over_modify_inst|]. intros _ _.
  eapply keeps_bind; [now apply over_modify_inst|]. intros _ _.
  now apply keeps_ret.
Qed.

Lemma over_Shape_ellipse cls radii centroid unit parent dp :
  keeps (over w0 Q) (Shape_ellipse cls radii centroid unit parent dp)
        (λ s, heap w0 !! s = None).
Proof.
  unfold Shape_ellipse.
  eapply keeps_bind; [apply keeps_reader, scale_geom_frame|]. intros g _.
  eapply keeps_bind; [apply over_Shape_from_polygon|]. intros s Hs.
  eapply keeps_bind; [now apply over_modify_inst|]. intros _ _.
  eapply keeps_bind; [now apply over_modify_inst|]. intros _ _.
  now apply keeps_ret.
Qed.

Lemma over_construct c unit parent dp :
  keeps (over w0 Q) (construct c unit parent dp) (λ s, heap w0 !! s = None).
Proof.
  destruct c; simpl;
    [apply over_Shape_init | apply over_Shape_from_polygon | apply over_Shape_rectangle
    | apply over_Shape_disk | apply over_Shape_ellipse].
Qed.

End Over.

Lemma quiet_blind w0 : heap_blind (quiet w0).
Proof. intros h w Hq. exact Hq. Qed.

Lemma sampled_blind w0 : heap_blind (sampled w0).
Proof. intros h w Hq. exact Hq. Qed.

Lemma grown_refl w : grown w w.
Proof. split; [reflexivity | repeat split]. Qed.

Lemma drawn_refl w : drawn w w.
Proof. split; [reflexivity | repeat split; reflexivity]. Qed.

(** X5: a constructor of [Shape], or the constructor of [Area], that has
    returned or raised has changed or removed no object that existed before
    the call; the parent graphs and the random source are left alone too,
    and the object returned is a new one.  (The call that is not followed
    to its end is [from_polygon] on an empty polygon with a bound left at
    [None], which works on the polygon it is given.) *)
Theorem constructors_only_add_objects {CO : Collaborators} (w : world) :
  (∀ c unit parent default_properties,
     (construct c unit parent default_properties w).1 ≠ Stuck ->
     grown w (construct c unit parent default_properties w).2
     ∧ ∀ s, (construct c unit parent default_properties w).1 = Ok s ->
            heap w !! s = None)
  ∧ (∀ shell holes unit height name properties,
     (Area_init shell holes unit height name properties w).1 ≠ Stuck ->
     grown w (Area_init shell holes unit height name properties w).2
     ∧ ∀ s, (Area_init shell holes unit height name properties w).1 = Ok s ->
            heap w !! s = None).
Proof.
  split.
  - intros c unit parent dp _.
    exact (over_construct w _ (quiet_blind w) c unit parent dp w (grown_refl w)).
  - intros shell holes unit height name properties _.
    exact (over_Area_init w _ (quiet_blind w) shell holes unit height name properties
             w (grown_refl w)).
Qed.

(** ** The constructors return *)

Lemma plain_properties_valid w properties :
  plain_properties w properties -> valid_properties w properties.
Proof.
  destruct properties as [|x|x|l|x]; simpl; auto. intros [d Hd]. exists false, d. auto.
Qed.

Lemma valid_properties_mono w w' properties :
  heap w ⊆ heap w' -> valid_properties w properties ->
  valid_properties w' properties ∧ props_entries w' properties = props_entries w properties.
Proof.
  intros Hsub. destruct properties as [|x|x|l|x]; simpl; auto.
  intros (b & d & Hd & Hc). pose proof (lookup_weaken _ _ _ _ Hd Hsub) as Hd'.
  rewrite Hd, Hd'. eauto.
Qed.

Lemma grown_heap w0 w : grown w0 w -> heap w0 ⊆ heap w.
Proof. now intros [H _]. Qed.

Lemma polygon_of_ring shell holes :
  ring_ok shell = true -> polygon_of shell holes = mkPolygon shell holes.
Proof. destruct shell; [discriminate | reflexivity]. Qed.

Lemma Shape_init_returns cls shell holes unit parent dp w :
  ring_ok shell && forallb ring_ok holes = true ->
  rings_close (scale (mkPolygon shell holes) F.one F.one) = true ->
  valid_properties w dp ->
  ∃ s w', Shape_init cls shell holes unit parent dp w = (Ok s, w').
Proof.
  intros Hr Hc Hv. unfold Shape_init.
  unfold mbind at 1, M_bind at 1, bind at 1, alloc at 1.
  set (s0 := fresh_loc (heap w)). set (c0 := CInst _).
  rewrite (bind_ok _ _ _ _ _ (Polygon_new_ok _ _ _ Hr)).
  destruct (Area_from_shape_ok (mkPolygon shell holes)
              default_height (VStr "default_area") dp unit
              (set_heap (<[s0:=c0]> (heap w)) w) Hc
              (valid_properties_after_alloc w s0 c0 _ (fresh_loc_None _) Hv))
    as [w1 Ha].
  pose proof Ha as Ha'. apply Area_from_shape_inv in Ha'.
  destruct Ha' as (_ & _ & a & pr & Hna & Hnpr & _ & Hw1).
  simpl in Hna, Hnpr. apply lookup_insert_None in Hna, Hnpr.
  rewrite (bind_ok _ _ _ _ _ Ha).
  unfold mbind at 1, M_bind at 1, bind at 1, alloc at 1.
  pose proof (fresh_loc_None (heap w1)) as Hd. set (d := fresh_loc (heap w1)) in *.
  assert (Hs0 : heap w1 !! s0 = Some c0).
  { rewrite Hw1. simpl. rewrite !lookup_insert_ne by (intros ->; tauto).
    apply lookup_insert_eq. }
  erewrite (bind_ok (modify_inst s0 _));
    [| apply modify_inst_some; simpl; rewrite lookup_insert_ne;
       [exact Hs0 | intros ->; congruence]].
  rewrite (bind_ok _ _ _ _ _ (Polygon_new_ok _ _ _ Hr)).
  erewrite (bind_ok (modify_inst s0 _));
    [| apply modify_inst_some; simpl; apply lookup_insert_eq].
  eexists _, _. reflexivity.
Qed.

(** The region a constructor leaves at the location it returns. *)
Lemma constructed_region w w' s region dp u :
  constructed w w' s region dp u ->
  heap w !! s = None ∧ heap w' !! s = Some (CInst region).
Proof.
  intros (a & pr & d & Hs & _ & _ & _ & _ & _ & ->). split; [exact Hs|].
  simpl. apply lookup_insert_eq.
Qed.

(** ** [Area] *)

Lemma Area_init_spec shell holes unit height name properties w :
  ring_ok shell && forallb ring_ok holes = true ->
  plain_polygon (mkPolygon shell holes) = true ->
  valid_properties w properties ->
  ∃ s w' d pr,
    Area_init shell holes unit height name properties w = (Ok s, w')
    ∧ heap w !! s = None ∧ heap w !! pr = None
    ∧ heap w' !! s
      = Some (CInst (mkInstance ClsArea (mkPolygon shell holes) None unit "Polygon"
                       (Some d) None None (Some height) (Some name) (Some pr)))
    ∧ heap w' !! pr = Some (CProps true (props_entries w properties))
    ∧ heap w ⊆ heap w'.
Proof.
  intros Hr Hpl Hv.
  destruct (plain_scaled_closes _ Hpl) as [_ Hcl].
  destruct (Shape_init_returns ClsArea shell holes unit None VNone w Hr Hcl I)
    as (s & w1 & Hi).
  pose proof (over_Shape_init w _ (quiet_blind w) ClsArea shell holes unit None VNone
                w (grown_refl w)) as [Hg1 _].
  rewrite Hi in Hg1. simpl in Hg1. apply grown_heap in Hg1.
  pose proof Hi as Hi'. apply Shape_init_inv in Hi'. destruct Hi' as (_ & d & Hc).
  apply andb_prop in Hr. destruct Hr as [Hr _].
  rewrite (polygon_of_ring _ _ Hr) in Hc.
  apply constructed_region in Hc. destruct Hc as [Hs Hs1].
  destruct (valid_properties_mono w w1 properties Hg1 Hv) as [Hv1 He].
  pose proof (new_PDict_ok properties w1 Hv1) as Hp. rewrite He in Hp.
  pose proof (fresh_loc_None (heap w1)) as Hpr. set (pr := fresh_loc (heap w1)) in *.
  assert (Hne : pr ≠ s) by (intros E; rewrite E in Hpr; congruence).
  eexists s, _, d, pr. split.
  { unfold Area_init. rewrite (bind_ok _ _ _ _ _ Hi), (bind_ok _ _ _ _ _ Hp).
    erewrite (bind_ok (modify_inst s _));
      [| apply modify_inst_some; simpl; rewrite lookup_insert_ne by exact Hne;
         exact Hs1].
    reflexivity. }
  split; [exact Hs|]. split; [eapply lookup_weaken_None; eauto|].
  simpl. split; [apply lookup_insert_eq|].
  split. { rewrite lookup_insert_ne by congruence. apply lookup_insert_eq. }
  apply insert_subseteq_r; [exact Hs|]. apply insert_subseteq_r; [|exact Hg1].
  eapply lookup_weaken_None; eauto.
Qed.

(** X3: [Area(...)], given rings of at least three points with plain
    coordinates, copies the properties it is given into a [_PDict] of its
    own, as they are: every key reads as in the dictionary given (absent
    ones as [1.]), no factor is checked on the way in, and writing to the
    properties of the area changes no object that existed before, the
    dictionary given in particular. *)
Theorem Area_properties_are_a_private_copy (shell : list point)
    (holes : list (list point)) (unit : string) (height name properties : pyval)
    (w : world) :
  ring_ok shell && forallb ring_ok holes = true ->
  plain_polygon (mkPolygon shell holes) = true ->
  plain_properties w properties ->
  ∃ self w' pr,
    Area_init shell holes unit height name properties w = (Ok self, w')
    ∧ Area_properties self w' = (Ok pr, w')
    ∧ heap w !! pr = None
    ∧ heap w' !! pr = Some (CProps true (props_entries w properties))
    ∧ (∀ key, props_getitem pr key w'
              = (Ok (PDict_getitem (props_entries w properties) key), w'))
    ∧ (∀ key v l c, heap w !! l = Some c ->
                    heap (props_setitem pr key v w').2 !! l = Some c).
Proof.
  intros Hr Hpl Hp.
  destruct (Area_init_spec shell holes unit height name properties w Hr Hpl
              (plain_properties_valid _ _ Hp))
    as (s & w' & d & pr & Hi & Hs & Hpr & Hs' & Hpr' & Hsub).
  exists s, w', pr. split; [exact Hi|]. split.
  { unfold Area_properties. rewrite (bind_ok _ _ _ _ _ (read_inst_some _ _ _ Hs')).
    reflexivity. }
  split; [exact Hpr|]. split; [exact Hpr'|]. split.
  { intros key. now apply props_getitem_PDict. }
  intros key v l c Hl. rewrite (props_setitem_PDict _ _ _ _ _ Hpr').
  pose proof (lookup_weaken _ _ _ _ Hl Hsub) as Hl'.
  destruct (nonneg_or_nan v); simpl; [|exact Hl'].
  rewrite lookup_insert_ne; [exact Hl' | congruence].
Qed.

Lemma Area_properties_are_a_private_copy_witness :
  ∃ self w' pr,
    Area_init (Demo.square 0 0 2 2) [] "um" (VFloat F.zero) (VStr "a")
              (VRef 1%positive) Cases.w_slow = (Ok self, w')
    ∧ Area_properties self w' = (Ok pr, w')
    ∧ heap Cases.w_slow !! pr = None
    ∧ heap w' !! pr = Some (CProps true (props_entries Cases.w_slow (VRef 1%positive)))
    ∧ (∀ key, props_getitem pr key w'
              = (Ok (PDict_getitem (props_entries Cases.w_slow (VRef 1%positive)) key),
                 w'))
    ∧ (∀ key v l c, heap Cases.w_slow !! l = Some c ->
                    heap (props_setitem pr key v w').2 !! l = Some c).
Proof.
  apply (Area_properties_are_a_private_copy (Demo.square 0 0 2 2) [] "um"
           (VFloat F.zero) (VStr "a") (VRef 1%positive) Cases.w_slow);
    [reflexivity | vm_compute; reflexivity | eexists; reflexivity].
Defined.

(** X4: an [Area] is a leaf.  [Area(...)], given rings of at least three
    points with plain coordinates, builds a new object of class [Area] with
    the shell and holes as given (no rescaling), the unit, the height and
    the name, and no parent; reading [areas] on it raises [AttributeError]
    although the constructor of [Shape] has stored a dictionary of areas in
    it, and [add_subshape] raises [NotImplementedError]; neither changes
    anything. *)
Theorem Area_is_a_leaf (shell : list point) (holes : list (list point))
    (unit : string) (height name properties : pyval) (w : world) :
  ring_ok shell && forallb ring_ok holes = true ->
  plain_polygon (mkPolygon shell holes) = true ->
  plain_properties w properties ->
  ∃ self w' area,
    Area_init shell holes unit height name properties w = (Ok self, w')
    ∧ heap w !! self = None ∧ heap w' !! self = Some (CInst area)
    ∧ i_class area = ClsArea ∧ i_geom area = mkPolygon shell holes
    ∧ i_unit area = unit ∧ i_parent area = None ∧ i_geom_type area = "Polygon"
    ∧ i_height area = Some height ∧ i_name area = Some name
    ∧ is_Some (i_areas area)
    ∧ Shape_areas self w'
      = (Raise (AttributeError "Areas do not have sub-Areas."), w')
    ∧ (∀ subshape position u,
         Shape_add_subshape self subshape position u w'
         = (Raise (NotImplementedError "Areas cannot be modified."), w')).
Proof.
  intros Hr Hpl Hp.
  destruct (Area_init_spec shell holes unit height name properties w Hr Hpl
              (plain_properties_valid _ _ Hp))
    as (s & w' & d & pr & Hi & Hs & Hpr & Hs' & Hpr' & Hsub).
  eexists s, w', _. split; [exact Hi|]. split; [exact Hs|]. split; [exact Hs'|].
  simpl. do 7 (split; [reflexivity|]). split; [eauto|]. split.
  - unfold Shape_areas. rewrite (bind_ok _ _ _ _ _ (read_inst_some _ _ _ Hs')).
    reflexivity.
  - intros sub pos u. unfold Shape_add_subshape.
    rewrite (bind_ok _ _ _ _ _ (read_inst_some _ _ _ Hs')). reflexivity.
Qed.

Lemma Area_is_a_leaf_witness :
  ∃ self w' area,
    Area_init (Demo.square 0 0 2 2) [] "um" (VFloat F.zero) (VStr "a") VNone Demo.w0
    = (Ok self, w')
    ∧ heap Demo.w0 !! self = None ∧ heap w' !! self = Some (CInst area)
    ∧ i_class area = ClsArea ∧ i_geom area = mkPolygon (Demo.square 0 0 2 2) []
    ∧ i_unit area = "um" ∧ i_parent area = None ∧ i_geom_type area = "Polygon"
    ∧ i_height area = Some (VFloat F.zero) ∧ i_name area = Some (VStr "a")
    ∧ is_Some (i_areas area)
    ∧ Shape_areas self w'
      = (Raise (AttributeError "Areas do not have sub-Areas."), w')
    ∧ (∀ subshape position u,
         Shape_add_subshape self subshape position u w'
         = (Raise (NotImplementedError "Areas cannot be modified."), w')).
Proof.
  apply (Area_is_a_leaf (Demo.square 0 0 2 2) [] "um" (VFloat F.zero) (VStr "a")
           VNone Demo.w0); [reflexivity | vm_compute; reflexivity | exact I].
Defined.

(** ** The constructors of [Shape] *)

Lemma find_scaling_one p min_x max_x w :
  min_x = None ∨ max_x = None ->
  scaling_value p min_x max_x = F.one
  ∧ find_scaling p min_x max_x w = (Ok (scaling_value p min_x max_x), w).
Proof. intros [-> | ->]; [split; reflexivity | destruct min_x; split; reflexivity]. Qed.

(** X6: with [min_x] or [max_x] left at [None], [from_polygon] does not
    rescale: given a polygon that is not empty and has plain coordinates,
    it returns a new object of the class it is called on whose geometry is
    the polygon given, with the unit and the parent given and the type
    ["Polygon"]. *)
Theorem from_polygon_without_bounds_keeps_the_polygon (cls : pyclass) (p : Polygon)
    (min_x max_x : option float) (unit : string) (parent : option nat)
    (default_properties : pyval) (w : world) :
  min_x = None ∨ max_x = None ->
  exterior p ≠ [] ->
  plain_polygon p = true ->
  plain_properties w default_properties ->
  ∃ s w' region,
    Shape_from_polygon cls (GPolygon p) min_x max_x unit parent default_properties w
    = (Ok s, w')
    ∧ heap w !! s = None ∧ heap w' !! s = Some (CInst region)
    ∧ i_geom region = p ∧ i_class region = cls ∧ i_unit region = unit
    ∧ i_parent region = parent ∧ i_geom_type region = "Polygon".
Proof.
  intros Hb Hne Hp Hv. apply plain_properties_valid in Hv.
  destruct (find_scaling_one p min_x max_x w Hb) as [Hk Hf].
  assert (Hs : scale p (scaling_value p min_x max_x) (scaling_value p min_x max_x) = p).
  { rewrite Hk. now apply scale_one_plain. }
  destruct (Shape_from_polygon_returns cls p min_x max_x unit parent default_properties
              w Hf Hne) as (s & w' & Hc);
    [rewrite Hs; now apply plain_rings_close
    | rewrite Hs; now apply plain_scaled_closes | exact Hv |].
  pose proof Hc as Hc'. apply Shape_from_polygon_inv in Hc'.
  destruct Hc' as (_ & d & Hc'). apply constructed_region in Hc'.
  destruct Hc' as [Hs0 Hs']. rewrite Hs in Hs'.
  eexists s, w', _. split; [exact Hc|]. split; [exact Hs0|]. split; [exact Hs'|].
  simpl. repeat split.
Qed.

Lemma from_polygon_without_bounds_keeps_the_polygon_witness :
  ∃ s w' region,
    Shape_from_polygon ClsShape (GPolygon Demo.square2) None (Some (F.of_Z 4)) "mm"
                       None VNone Demo.w0 = (Ok s, w')
    ∧ heap Demo.w0 !! s = None ∧ heap w' !! s = Some (CInst region)
    ∧ i_geom region = Demo.square2 ∧ i_class region = ClsShape ∧ i_unit region = "mm"
    ∧ i_parent region = None ∧ i_geom_type region = "Polygon".
Proof.
  apply (from_polygon_without_bounds_keeps_the_polygon ClsShape Demo.square2 None
           (Some (F.of_Z 4)) "mm" None VNone Demo.w0);
    [left; reflexivity | discriminate | vm_compute; reflexivity | exact I].
Defined.

(** X7: [rectangle] on [Shape] is never rescaled.  When the four corners
    [centroid + (w/2, h/2)], [centroid + (w/2, -h/2)],
    [centroid - (w/2, h/2)], [centroid - (w/2, -h/2)] come out as plain
    floats (extents that are zero or negative included), it returns a new
    region with these corners as they are computed, no hole, the type
    ["Rectangle"], and the unit and parent given.  On [Area] it raises
    [TypeError], the constructor of [Area] having no keyword [parent]. *)
Theorem rectangle_is_never_rescaled (height width : float)
    (centroid : point) (unit : string) (parent : option nat)
    (default_properties : pyval) (w : world) :
  plain_polygon (mkPolygon (rectangle_corners height width centroid) []) = true ->
  plain_properties w default_properties ->
  (∃ s w' region,
     Shape_rectangle ClsShape height width centroid unit parent default_properties w
     = (Ok s, w')
     ∧ heap w !! s = None ∧ heap w' !! s = Some (CInst region)
     ∧ i_geom region = mkPolygon (rectangle_corners height width centroid) []
     ∧ i_class region = ClsShape ∧ i_geom_type region = "Rectangle"
     ∧ i_unit region = unit ∧ i_parent region = parent)
  ∧ ∃ msg,
      Shape_rectangle ClsArea height width centroid unit parent default_properties w
      = (Raise (TypeError msg), w).
Proof.
  intros Hpl Hv. apply plain_properties_valid in Hv. split; [|eexists; reflexivity].
  destruct (plain_scaled_closes _ Hpl) as [Hcl0 Hcl].
  assert (Hr : ring_ok (rectangle_corners height width centroid)
               && forallb ring_ok [] = true).
  { unfold ring_ok. unfold rings_close in Hcl0. cbn [exterior] in Hcl0.
    apply andb_prop in Hcl0. destruct Hcl0 as [Hcl0 _]. now rewrite Hcl0. }
  destruct (Shape_init_returns ClsShape (rectangle_corners height width centroid) [] unit
              parent default_properties w Hr Hcl Hv) as (s & w1 & Hi).
  pose proof Hi as Hi'. apply Shape_init_inv in Hi'. destruct Hi' as (_ & d & Hc).
  destruct (constructed_modify _ _ _ _ _ _ (set_geom_type "Rectangle") Hc eq_refl eq_refl)
    as (w2 & Hm & Hc2).
  apply constructed_region in Hc2. destruct Hc2 as [Hs Hs2].
  eexists s, w2, _. split.
  { unfold Shape_rectangle. fold (rectangle_corners height width centroid).
    cbn [is_Area_class].
    rewrite (bind_ok _ _ _ _ _ Hi), (bind_ok _ _ _ _ _ Hm). reflexivity. }
  split; [exact Hs|]. split; [exact Hs2|]. repeat split.
Qed.

Lemma rectangle_is_never_rescaled_witness :
  (∃ s w' region,
     Shape_rectangle ClsShape (F.of_Z 0) (F.of_Z (-4)) (Demo.pt 2 2) "um" None VNone
                     Demo.w0 = (Ok s, w')
     ∧ heap Demo.w0 !! s = None ∧ heap w' !! s = Some (CInst region)
     ∧ i_geom region
       = mkPolygon (rectangle_corners (F.of_Z 0) (F.of_Z (-4)) (Demo.pt 2 2)) []
     ∧ i_class region = ClsShape ∧ i_geom_type region = "Rectangle"
     ∧ i_unit region = "um" ∧ i_parent region = None)
  ∧ ∃ msg,
      Shape_rectangle ClsArea (F.of_Z 0) (F.of_Z (-4)) (Demo.pt 2 2) "um" None VNone
                      Demo.w0 = (Raise (TypeError msg), Demo.w0).
Proof.
  apply (rectangle_is_never_rescaled (F.of_Z 0) (F.of_Z (-4)) (Demo.pt 2 2)
           "um" None VNone Demo.w0); [vm_compute; reflexivity | exact I].
Defined.

Section RoundShapes.
Context {CO : Collaborators}.

Lemma scale_geom_ok p x y w :
  rings_close (scale p x y) = true ->
  scale_geom (GPolygon p) x y w = (Ok (GPolygon (scale p x y)), w).
Proof.
  intros Hr. unfold scale_geom, fmap, M_fmap, bind.
  now rewrite (shapely_scale_ok _ _ _ _ Hr).
Qed.

(** X8: [disk] and [ellipse] hand the buffer of the centre (for the
    ellipse: the unit buffer stretched by the two radii) to [from_polygon]
    with the bounds [centroid[0] -/+ radius].  When that buffer is a
    polygon with a non-empty exterior, and what it is rescaled to by
    [(max_x - min_x) / (rightmost - leftmost)] along both axes has plain
    coordinates, they return a new region with that geometry, tagged
    ["Disk"] with [radius] stored, or ["Ellipse"] with [radii] stored. *)
Theorem disk_and_ellipse_are_rescaled_buffers (cls : pyclass) (centroid : point)
    (unit : string) (parent : option nat) (default_properties : pyval) (w : world) :
  plain_properties w default_properties ->
  (∀ radius p,
     point_buffer centroid radius = GPolygon p -> exterior p ≠ [] ->
     plain_polygon
       (scale p (scaling_value p (Some (F.sub centroid.1 radius))
                                  (Some (F.add centroid.1 radius)))
                (scaling_value p (Some (F.sub centroid.1 radius))
                                 (Some (F.add centroid.1 radius)))) = true ->
     ∃ s w' region,
       Shape_disk cls radius centroid unit parent default_properties w = (Ok s, w')
       ∧ heap w !! s = None ∧ heap w' !! s = Some (CInst region)
       ∧ i_geom_type region = "Disk" ∧ i_radius region = Some radius
       ∧ i_radii region = None
       ∧ i_geom region
         = scale p (scaling_value p (Some (F.sub centroid.1 radius))
                                    (Some (F.add centroid.1 radius)))
                   (scaling_value p (Some (F.sub centroid.1 radius))
                                    (Some (F.add centroid.1 radius))))
  ∧ (∀ radii b p,
     point_buffer centroid F.one = GPolygon b -> exterior b ≠ [] ->
     p = scale b radii.1 radii.2 -> rings_close p = true ->
     plain_polygon
       (scale p (scaling_value p (Some (F.sub centroid.1 radii.1))
                                  (Some (F.add centroid.1 radii.1)))
                (scaling_value p (Some (F.sub centroid.1 radii.1))
                                 (Some (F.add centroid.1 radii.1)))) = true ->
     ∃ s w' region,
       Shape_ellipse cls radii centroid unit parent default_properties w = (Ok s, w')
       ∧ heap w !! s = None ∧ heap w' !! s = Some (CInst region)
       ∧ i_geom_type region = "Ellipse" ∧ i_radii region = Some radii
       ∧ i_radius region = None
       ∧ i_geom region
         = scale p (scaling_value p (Some (F.sub centroid.1 radii.1))
                                    (Some (F.add centroid.1 radii.1)))
                   (scaling_value p (Some (F.sub centroid.1 radii.1))
                                    (Some (F.add centroid.1 radii.1)))).
Proof.
  intros Hv. apply plain_properties_valid in Hv. split.
  - intros radius p Hb Hp Hpl. destruct (plain_scaled_closes _ Hpl) as [Hc1 Hc2].
    destruct (Shape_from_polygon_returns cls p (Some (F.sub centroid.1 radius))
                (Some (F.add centroid.1 radius)) unit parent default_properties w
                (find_scaling_ok _ _ _ _ Hp) Hp Hc1 Hc2 Hv) as (s & w1 & Hi).
    pose proof Hi as Hi'. apply Shape_from_polygon_inv in Hi'.
    destruct Hi' as (_ & d & Hc).
    destruct (constructed_modify _ _ _ _ _ _ (set_geom_type "Disk") Hc eq_refl eq_refl)
      as (w2 & Hm & Hc2').
    destruct (constructed_modify _ _ _ _ _ _ (set_radius radius) Hc2' eq_refl eq_refl)
      as (w3 & Hm3 & Hc3).
    apply constructed_region in Hc3. destruct Hc3 as [Hs Hs3].
    eexists s, w3, _. split.
    { unfold Shape_disk. rewrite Hb.
      rewrite (bind_ok _ _ _ _ _ Hi), (bind_ok _ _ _ _ _ Hm), (bind_ok _ _ _ _ _ Hm3).
      reflexivity. }
    split; [exact Hs|]. split; [exact Hs3|]. repeat split.
  - intros radii b p Hb Hne -> Hcl Hpl. destruct (plain_scaled_closes _ Hpl) as [Hc1 Hc2].
    set (p := scale b radii.1 radii.2) in *.
    assert (Hp : exterior p ≠ []).
    { intros E. apply (f_equal (@length point)) in E. unfold p in E.
      rewrite scale_exterior_length in E. destruct (exterior b); [congruence | discriminate]. }
    destruct (Shape_from_polygon_returns cls p (Some (F.sub centroid.1 radii.1))
                (Some (F.add centroid.1 radii.1)) unit parent default_properties w
                (find_scaling_ok _ _ _ _ Hp) Hp Hc1 Hc2 Hv) as (s & w1 & Hi).
    pose proof Hi as Hi'. apply Shape_from_polygon_inv in Hi'.
    destruct Hi' as (_ & d & Hc).
    destruct (constructed_modify _ _ _ _ _ _ (set_geom_type "Ellipse") Hc eq_refl eq_refl)
      as (w2 & Hm & Hc2').
    destruct (constructed_modify _ _ _ _ _ _ (set_radii radii) Hc2' eq_refl eq_refl)
      as (w3 & Hm3 & Hc3).
    apply constructed_region in Hc3. destruct Hc3 as [Hs Hs3].
    eexists s, w3, _. split.
    { unfold Shape_ellipse. rewrite Hb.
      rewrite (bind_ok _ _ _ _ _ (scale_geom_ok _ _ _ _ Hcl)). fold p.
      rewrite (bind_ok _ _ _ _ _ Hi), (bind_ok _ _ _ _ _ Hm), (bind_ok _ _ _ _ _ Hm3).
      reflexivity. }
    split; [exact Hs|]. split; [exact Hs3|]. repeat split.
Qed.

End RoundShapes.

(** ** The factor of a polygon that has the width asked for *)

Lemma div_eucl_shifted (m : positive) :
  Z.div_eucl (Z.shiftl (Z.pos m) 53) (Z.pos m) = (9007199254740992%Z, 0%Z).
Proof.
  rewrite Z.shiftl_mul_pow2 by lia.
  change (2 ^ 53)%Z with 9007199254740992%Z.
  assert (Hq : (Z.pos m * 9007199254740992 / Z.pos m = 9007199254740992)%Z).
  { rewrite Z.mul_comm. apply Z.div_mul. lia. }
  assert (Hr : ((Z.pos m * 9007199254740992) mod Z.pos m = 0)%Z).
  { rewrite Z.mul_comm. apply Z.mod_mul. lia. }
  unfold Z.div, Z.modulo in Hq, Hr.
  destruct (Z.div_eucl (Z.pos m * 9007199254740992) (Z.pos m)) as [q r].
  now subst.
Qed.

(** A finite float that is not zero, divided by itself, is [1.]. *)
Lemma div_self_finite s m e :
  F.div (S754_finite s m e) (S754_finite s m e) = F.one.
Proof.
  unfold F.div, SFdiv, SFdiv_core_binary.
  replace (Zdigits2 (Z.pos m) + e - (Zdigits2 (Z.pos m) + e))%Z with 0%Z by lia.
  rewrite Z.sub_diag.
  change (Z.min (fexp F.prec F.emax 0) 0) with (-53)%Z.
  change (0 - -53)%Z with 53%Z. cbv beta iota zeta.
  rewrite div_eucl_shifted.
  assert (Hl : new_location (Z.pos m) 0 = loc_Exact).
  { unfold new_location, new_location_even, new_location_odd.
    destruct (Z.even (Z.pos m)); reflexivity. }
  rewrite Hl. now destruct s.
Qed.

(** X22: [min_x] and [max_x] fix the width of the region and nothing
    else.  When [max_x - min_x] is the width [rightmost - leftmost] that
    the polygon already has, a finite number that is not zero, the factor
    is [1.], and [from_polygon] returns the polygon where it is, wherever
    [min_x] lies: its leftmost point is not moved to [min_x]. *)
Theorem from_polygon_fixes_the_width_only (cls : pyclass) (p : Polygon)
    (min_x max_x leftmost rightmost : float) (unit : string) (parent : option nat)
    (default_properties : pyval) (w : world) :
  F.np_min (exterior p).*1 = Some leftmost ->
  F.np_max (exterior p).*1 = Some rightmost ->
  F.sub max_x min_x = F.sub rightmost leftmost ->
  F.is_finite (F.sub rightmost leftmost) && negb (F.is_zero (F.sub rightmost leftmost))
  = true ->
  plain_polygon p = true ->
  plain_properties w default_properties ->
  ∃ s w' region,
    Shape_from_polygon cls (GPolygon p) (Some min_x) (Some max_x) unit parent
                       default_properties w = (Ok s, w')
    ∧ heap w !! s = None ∧ heap w' !! s = Some (CInst region)
    ∧ scaling_value p (Some min_x) (Some max_x) = F.one
    ∧ i_geom region = p.
Proof.
  intros Hl Hr Hw Hf Hp Hv. apply plain_properties_valid in Hv.
  assert (Hk : scaling_value p (Some min_x) (Some max_x) = F.one).
  { unfold scaling_value. rewrite Hl, Hr, Hw. cbn [default from_option id].
    destruct (F.sub rightmost leftmost) as [z|i| |s m e]; try discriminate.
    apply div_self_finite. }
  assert (Hne : exterior p ≠ []) by (intros E; rewrite E in Hl; discriminate).
  assert (Hs : scale p (scaling_value p (Some min_x) (Some max_x))
                     (scaling_value p (Some min_x) (Some max_x)) = p).
  { rewrite Hk. now apply scale_one_plain. }
  destruct (Shape_from_polygon_returns cls p (Some min_x) (Some max_x) unit parent
              default_properties w (find_scaling_ok _ _ _ _ Hne) Hne) as (s & w' & Hc);
    [rewrite Hs; now apply plain_rings_close
    | rewrite Hs; now apply plain_scaled_closes | exact Hv |].
  pose proof Hc as Hc'. apply Shape_from_polygon_inv in Hc'.
  destruct Hc' as (_ & d & Hc'). apply constructed_region in Hc'.
  destruct Hc' as [Hs0 Hs']. rewrite Hs in Hs'.
  eexists s, w', _. split; [exact Hc|]. split; [exact Hs0|]. split; [exact Hs'|].
  split; [exact Hk | reflexivity].
Qed.

Lemma from_polygon_fixes_the_width_only_witness :
  ∃ s w' region,
    Shape_from_polygon ClsShape (GPolygon Demo.square2) (Some (F.of_Z 100))
                       (Some (F.of_Z 102)) "um" None VNone Demo.w0 = (Ok s, w')
    ∧ heap Demo.w0 !! s = None ∧ heap w' !! s = Some (CInst region)
    ∧ scaling_value Demo.square2 (Some (F.of_Z 100)) (Some (F.of_Z 102)) = F.one
    ∧ i_geom region = Demo.square2.
Proof.
  apply (from_polygon_fixes_the_width_only ClsShape Demo.square2 (F.of_Z 100)
           (F.of_Z 102) (F.of_Z 0) (F.of_Z 2) "um" None VNone Demo.w0);
    [vm_compute; reflexivity .. | exact I].
Defined.

(** ** [Area.from_shape] with bounds *)

(** X21: [Area.from_shape], given a shape that is not empty, rescales it
    as [from_polygon] does, by [(max_x - min_x) / (rightmost - leftmost)]
    when both bounds are given and by [1.] otherwise, builds a new [Area]
    with that geometry, the unit, height and name given, no parent, and a
    new [_PDict] with the entries of [properties]; it changes nothing else,
    and what it returns is [None], not the area. *)
Theorem from_shape_builds_an_area_and_returns_None (p : Polygon)
    (height name properties : pyval) (unit : string) (min_x max_x : option float)
    (w w' : world) (r : pyval) :
  exterior p ≠ [] ->
  Area_from_shape (GPolygon p) height name properties unit min_x max_x w = (Ok r, w') ->
  r = VNone
  ∧ ∃ a pr,
      heap w !! a = None ∧ heap w !! pr = None ∧ a ≠ pr
      ∧ w' = set_heap
               (<[a:=CInst (built_area (scale p (scaling_value p min_x max_x)
                                                (scaling_value p min_x max_x))
                                       unit height name pr)]>
                  (<[pr:=CProps true (props_entries w properties)]> (heap w))) w.
Proof.
  intros _ H. apply Area_from_shape_built in H. tauto.
Qed.

Lemma from_shape_builds_an_area_and_returns_None_witness :
  (Area_from_shape (GPolygon Demo.square2) (VFloat F.one) (VStr "a") VNone "mm"
                   (Some (F.of_Z 0)) (Some (F.of_Z 4)) Demo.w0).1 = Ok VNone.
Proof.
  destruct (from_shape_builds_an_area_and_returns_None Demo.square2 (VFloat F.one)
              (VStr "a") VNone "mm" (Some (F.of_Z 0)) (Some (F.of_Z 4)) Demo.w0
              (Area_from_shape (GPolygon Demo.square2) (VFloat F.one) (VStr "a") VNone
                 "mm" (Some (F.of_Z 0)) (Some (F.of_Z 4)) Demo.w0).2
              (Demo.run VNone
                 (Area_from_shape (GPolygon Demo.square2) (VFloat F.one) (VStr "a")
                    VNone "mm" (Some (F.of_Z 0)) (Some (F.of_Z 4))) Demo.w0).1)
    as [Hr _]; [discriminate | vm_compute; reflexivity | vm_compute; reflexivity].
Defined.

(** ** [seed_neurons]: the count *)

Lemma bind_assoc {A B C} (m : M A) (k : A -> M B) (h : B -> M C) w :
  (m ≫= λ a, k a ≫= h) w = ((m ≫= k) ≫= h) w.
Proof. unfold mbind, M_bind, bind. destruct (m w) as [[a|e|] w1]; reflexivity. Qed.

Lemma bind_ret_map {A B} (m : M A) (f : A -> B) w :
  (m ≫= λ a, ret (f a)) w = map_outcome f (m w).
Proof. unfold mbind, M_bind, bind. destruct (m w) as [[a|e|] w1]; reflexivity. Qed.

Lemma map_outcome_compose {A B C} (f : A -> B) (g : B -> C) (r : outcome A * world) :
  map_outcome g (map_outcome f r) = map_outcome (λ a, g (f a)) r.
Proof. destruct r as [[a|e|] w]; reflexivity. Qed.

Lemma map_outcome_ext {A B} (f g : A -> B) (r : outcome A * world) :
  (∀ a, f a = g a) -> map_outcome f r = map_outcome g r.
Proof. intros H. destruct r as [[a|e|] w]; simpl; now rewrite ?H. Qed.

Section MoreSeeding.
Context {CO : Collaborators}.

Lemma seed_count_missing s w :
  i_parent s = None ->
  seed_count s None w
  = (Raise (ValueError "`neurons` cannot be None if `parent` is None."), w).
Proof. intros Hp. unfold seed_count. rewrite Hp. reflexivity. Qed.

(** X10: on a shape without parent, [seed_neurons] called without
    [neurons] raises [ValueError] before anything else is looked at:
    whatever the container, the bounds, the radius and the unit are, no
    sample is drawn and the world is left as it was. *)
Theorem seed_neurons_needs_a_count (w : world) (fuel : nat) (self : loc) (s : instance)
    (container : pyval) (xmin xmax ymin ymax : option float) (soma_radius : float)
    (unit : option string) :
  heap w !! self = Some (CInst s) -> i_parent s = None ->
  Shape_seed_neurons fuel self None container xmin xmax ymin ymax soma_radius unit w
  = (Raise (ValueError "`neurons` cannot be None if `parent` is None."), w).
Proof.
  intros Hs Hp. unfold Shape_seed_neurons.
  rewrite (bind_ok _ _ _ _ _ (read_inst_some _ _ _ Hs)).
  apply bind_raise. now apply seed_count_missing.
Qed.

Lemma seed_count_parent s g neurons neurons' :
  i_parent s = Some g -> seed_count s neurons = seed_count s neurons'.
Proof. intros Hp. unfold seed_count. rewrite Hp. reflexivity. Qed.

(** X11: on a shape that has a parent, the argument [neurons] is ignored:
    two calls that differ in it only behave alike, the count being asked
    of the parent. *)
Theorem parent_overrides_neurons (w : world) (self : loc) (s : instance) (g : nat) :
  heap w !! self = Some (CInst s) -> i_parent s = Some g ->
  ∀ fuel neurons neurons' container xmin xmax ymin ymax soma_radius unit,
    Shape_seed_neurons fuel self neurons container xmin xmax ymin ymax soma_radius
                       unit w
    = Shape_seed_neurons fuel self neurons' container xmin xmax ymin ymax soma_radius
                         unit w.
Proof.
  intros Hs Hp fuel neurons neurons' container xmin xmax ymin ymax soma unit.
  unfold Shape_seed_neurons.
  rewrite !(bind_ok _ _ _ _ _ (read_inst_some _ _ _ Hs)).
  now rewrite (seed_count_parent s g neurons neurons' Hp).
Qed.

(** ** [seed_neurons]: the unit *)

Lemma convert_unit_None s ps : convert_unit s None ps = ps.
Proof. reflexivity. Qed.

Lemma convert_unit_length s unit ps : length (convert_unit s unit ps) = length ps.
Proof.
  unfold convert_unit. destruct unit as [u|]; [|reflexivity].
  case_bool_decide; [apply length_map | reflexivity].
Qed.

(** X13: the unit asked for changes nothing but the coordinates returned:
    a call with [unit=u] ends as the call with [unit=None] does, in the
    same world, and the positions it returns are those of that call, each
    coordinate multiplied by [conversion_magnitude(u, self._unit)], or
    those very positions when [u] is the unit of the shape. *)
Theorem seed_neurons_unit_only_rescales (w : world) (fuel : nat) (self : loc)
    (s : instance) (neurons : option nat) (container : pyval)
    (xmin xmax ymin ymax : option float) (soma_radius : float) (u : string) :
  heap w !! self = Some (CInst s) ->
  Shape_seed_neurons fuel self neurons container xmin xmax ymin ymax soma_radius
                     (Some u) w
  = map_outcome
      (λ ps, if bool_decide (u = i_unit s) then ps
             else map (λ pt : point,
                         (F.mul pt.1 (conversion_magnitude u (i_unit s)),
                          F.mul pt.2 (conversion_magnitude u (i_unit s)))) ps)
      (Shape_seed_neurons fuel self neurons container xmin xmax ymin ymax soma_radius
                          None w).
Proof.
  intros Hs. unfold Shape_seed_neurons.
  rewrite !(bind_ok _ _ _ _ _ (read_inst_some _ _ _ Hs)).
  rewrite !bind_assoc, !bind_ret_map, map_outcome_compose.
  apply map_outcome_ext. intros ps. unfold convert_unit.
  repeat case_bool_decide; congruence.
Qed.

End MoreSeeding.

(** ** [seed_neurons]: the three ways of seeding *)

Lemma samples_length low high n w : length (samples low high n w) = n.
Proof. unfold samples. now rewrite length_map, length_seq. Qed.

Lemma samples_lookup low high n w i :
  (i < n)%nat ->
  samples low high n w !! i
  = Some (F.add low (F.mul (F.sub high low) (rng_stream w (rng_pos w + i)))).
Proof.
  intros Hi. unfold samples.
  change (map ?f ?l) with (f <$> l). rewrite list_lookup_fmap, lookup_seq_lt by exact Hi.
  reflexivity.
Qed.

Lemma zip_length_same {A B} (l : list A) (k : list B) :
  length l = length k -> length (zip l k) = length l.
Proof.
  revert k. induction l as [|a l IH]; intros [|b k]; simpl; try congruence.
  intros [= H]. now rewrite IH.
Qed.

Lemma zip_length_le {A B} (l : list A) (k : list B) :
  (length (zip l k) ≤ length l)%nat.
Proof.
  revert k. induction l as [|a l IH]; intros [|b k]; simpl; try lia.
  specialize (IH k). lia.
Qed.

Section Ways.
Context {CO : Collaborators}.

Lemma accept_accepted area cands :
  ∀ pts, Forall (λ p, geom_contains area p = true) pts ->
         Forall (λ p, geom_contains area p = true) (accept area cands pts).
Proof.
  induction cands as [|c r IH]; intros pts H; simpl; [exact H|].
  apply IH. destruct (geom_contains area c) eqn:E; [|exact H].
  apply Forall_app. split; [exact H|]. constructor; [exact E | constructor].
Qed.

Lemma accept_length area cands :
  ∀ pts, (length (accept area cands pts) ≤ length pts + length cands)%nat.
Proof.
  induction cands as [|c r IH]; intros pts; simpl; [lia|].
  specialize (IH (if geom_contains area c then (pts ++ [c])%list else pts)).
  destruct (geom_contains area c); rewrite ?length_app in IH; simpl in IH; lia.
Qed.

Lemma accept_zip_length area (xs ys : list float) pts :
  (length (accept area (zip xs ys) pts) ≤ length pts + length xs)%nat.
Proof.
  etransitivity; [apply accept_length|]. apply Nat.add_le_mono_l, zip_length_le.
Qed.

Lemma accept_none area cands pts :
  (∀ pt, geom_contains area pt = false) -> accept area cands pts = pts.
Proof.
  intros Hno. revert pts. induction cands as [|c r IH]; intros pts; simpl;
    [reflexivity|]. now rewrite Hno, IH.
Qed.

Lemma accept_all area cands pts :
  (∀ pt, geom_contains area pt = true) -> accept area cands pts = (pts ++ cands)%list.
Proof.
  intros Hall. revert pts. induction cands as [|c r IH]; intros pts; simpl;
    [now rewrite app_nil_r|]. now rewrite Hall, IH, <- app_assoc.
Qed.

(** One turn of the [while] loop with the four bounds assigned. *)
Lemma rejection_loop_turn fuel area min_x min_y max_x max_y container n pts w :
  finite_range min_x max_x = true -> finite_range min_y max_y = true ->
  (length pts < n)%nat ->
  rejection_loop (S fuel) area
    (mkFrame (Some min_x) (Some min_y) (Some max_x) (Some max_y) container) n pts w
  = rejection_loop fuel area
      (mkFrame (Some min_x) (Some min_y) (Some max_x) (Some max_y) container) n
      (accept area
         (zip (samples min_x max_x (n - length pts) w)
              (samples min_y max_y (n - length pts)
                       (advance min_x max_x (n - length pts) w)))
         pts)
      (advance min_y max_y (n - length pts) (advance min_x max_x (n - length pts) w)).
Proof.
  intros Hfx Hfy Hlt. apply Nat.ltb_lt in Hlt. cbn [rejection_loop]. rewrite Hlt.
  cbn [f_min_x f_min_y f_max_x f_max_y load_local].
  unfold mbind, M_bind, bind, ret, uniform. now rewrite Hfx, Hfy.
Qed.

Lemma rejection_loop_done fuel area fr n pts w :
  (n ≤ length pts)%nat -> rejection_loop fuel area fr n pts w = (Ok pts, w).
Proof.
  intros Hge. apply Nat.ltb_ge in Hge. destruct fuel; cbn [rejection_loop];
    now rewrite Hge.
Qed.

Lemma rejection_loop_sound fuel area fr n :
  ∀ pts w ps w',
    rejection_loop fuel area fr n pts w = (Ok ps, w') ->
    (length pts ≤ n)%nat -> Forall (λ p, geom_contains area p = true) pts ->
    length ps = n ∧ Forall (λ p, geom_contains area p = true) ps.
Proof.
  induction fuel as [|fuel IH]; intros pts w ps w' Hr Hle Hin;
    cbn [rejection_loop] in Hr;
    destruct (length pts <? n)%nat eqn:Hlt;
    try (injection Hr as <- <-; apply Nat.ltb_ge in Hlt; split; [lia | exact Hin]);
    [discriminate|].
  apply Nat.ltb_lt in Hlt.
  apply bind_inv in Hr. destruct Hr as (min_x & w1 & H1 & Hr).
  apply bind_inv in Hr. destruct Hr as (max_x & w2 & H2 & Hr).
  apply bind_inv in Hr. destruct Hr as (new_x & w3 & H3 & Hr).
  apply bind_inv in Hr. destruct Hr as (min_y & w4 & H4 & Hr).
  apply bind_inv in Hr. destruct Hr as (max_y & w5 & H5 & Hr).
  apply bind_inv in Hr. destruct Hr as (new_y & w6 & H6 & Hr).
  apply uniform_inv in H3. destruct H3 as [-> ->].
  apply IH in Hr; [exact Hr | | now apply accept_accepted].
  etransitivity; [apply accept_zip_length|]. rewrite samples_length. lia.
Qed.

Lemma seed_custom_inv fuel s fr soma n w ps w' :
  seed_custom fuel s fr soma n w = (Ok ps, w') ->
  ∃ c min_x max_x e w1,
    as_geom (f_container fr) w = (Ok c, w)
    ∧ f_min_x fr = Some min_x ∧ f_max_x fr = Some max_x
    ∧ geom_buffer (geom_intersection (i_geom s) c) (F.opp soma) = GPolygon e
    ∧ rejection_loop fuel (seed_region e min_x max_x soma) fr n [] w1 = (Ok ps, w').
Proof.
  unfold seed_custom. intros H.
  apply bind_inv in H. destruct H as (c & w1 & Hc & H).
  pose proof (as_geom_frame _ _ _ _ Hc) as ->. cbv zeta in H.
  apply bind_inv in H. destruct H as (min_x & w2 & Hmin & H).
  destruct (f_min_x fr) as [mn|] eqn:Emn; [|discriminate]. injection Hmin as <- <-.
  apply bind_inv in H. destruct H as (max_x & w3 & Hmax & H).
  destruct (f_max_x fr) as [mx|] eqn:Emx; [|discriminate]. injection Hmax as <- <-.
  apply bind_inv in H. destruct H as (seed & w4 & Hfp & H).
  destruct (geom_buffer _ _) as [e|] eqn:Ee; [|discriminate].
  apply Shape_from_polygon_inv in Hfp. destruct Hfp as (_ & d & Hfp).
  apply constructed_region in Hfp. destruct Hfp as [_ Hseed].
  rewrite (bind_ok _ _ _ _ _ (read_inst_some _ _ _ Hseed)) in H.
  exists c, mn, mx, e, w4. auto.
Qed.

Lemma seed_rectangle_spec min_x min_y max_x max_y soma n w :
  finite_range (F.add min_x soma) (F.sub max_x soma) = true ->
  finite_range (F.add min_y soma) (F.sub max_y soma) = true ->
  seed_rectangle min_x min_y max_x max_y soma n w
  = (Ok (zip (samples (F.add min_x soma) (F.sub max_x soma) n w)
             (samples (F.add min_y soma) (F.sub max_y soma) n
                      (advance (F.add min_x soma) (F.sub max_x soma) n w))),
     advance (F.add min_y soma) (F.sub max_y soma) n
             (advance (F.add min_x soma) (F.sub max_x soma) n w)).
Proof.
  intros Hx Hy. unfold seed_rectangle.
  rewrite (bind_ok _ _ _ _ _ (uniform_spec _ _ _ _ Hx)).
  now rewrite (bind_ok _ _ _ _ _ (uniform_spec _ _ _ _ Hy)).
Qed.

Lemma seed_rectangle_length min_x min_y max_x max_y soma n w ps w' :
  seed_rectangle min_x min_y max_x max_y soma n w = (Ok ps, w') -> length ps = n.
Proof.
  unfold seed_rectangle. intros H.
  apply bind_inv in H. destruct H as (xx & w1 & Hx & H).
  apply uniform_inv in Hx. destruct Hx as [-> ->].
  apply bind_inv in H. destruct H as (yy & w2 & Hy & H).
  apply uniform_inv in Hy. destruct Hy as [-> ->].
  injection H as <- <-.
  etransitivity; [apply zip_length_same|]; rewrite !samples_length; reflexivity.
Qed.

(** The branch of a disk returns nothing. *)
Lemma seed_disk_never s soma n w ps w' : seed_disk s soma n w ≠ (Ok ps, w').
Proof.
  unfold seed_disk. intros H.
  apply bind_inv in H. destruct H as (theta & w1 & _ & H).
  apply bind_inv in H. destruct H as (R & w2 & _ & H).
  apply bind_inv in H. destruct H as (u & w3 & _ & H). discriminate.
Qed.

(** X9: however it seeds, [seed_neurons] returns exactly as many
    positions as the count asks for, in whatever unit: the number of nodes
    of the parent when the shape has one, [neurons] otherwise. *)
Theorem seed_neurons_returns_the_count (w : world) (fuel : nat) (self : loc)
    (s : instance) (neurons : option nat) (n : nat) (container : pyval)
    (xmin xmax ymin ymax : option float) (soma_radius : float) (unit : option string)
    (ps : list point) (w' : world) :
  heap w !! self = Some (CInst s) -> count_available w s neurons n ->
  Shape_seed_neurons fuel self neurons container xmin xmax ymin ymax soma_radius
                     unit w = (Ok ps, w') ->
  length ps = n.
Proof.
  intros Hs Hn. unfold Shape_seed_neurons.
  rewrite (bind_ok _ _ _ _ _ (read_inst_some _ _ _ Hs)).
  rewrite (bind_ok _ _ _ _ _ (seed_count_ok _ _ _ _ Hn)).
  intros H. apply bind_inv in H. destruct H as (positions & w1 & Hpos & H).
  injection H as <- <-. rewrite convert_unit_length.
  destruct (is_None container).
  - cbv zeta in Hpos.
    destruct (bounds (i_geom s)) as [[[[b1 b2] b3] b4]|]; [|discriminate].
    destruct (bool_decide (i_geom_type s = "Rectangle")).
    { now apply seed_rectangle_length in Hpos. }
    destruct (_ && _).
    { now apply seed_disk_never in Hpos. }
    apply bind_inv in Hpos. destruct Hpos as (box & w2 & _ & Hpos).
    apply seed_custom_inv in Hpos.
    destruct Hpos as (c & mn & mx & e & w3 & _ & _ & _ & _ & Hloop).
    apply rejection_loop_sound in Hloop; [tauto | simpl; lia | constructor].
  - apply seed_custom_inv in Hpos.
    destruct Hpos as (c & mn & mx & e & w3 & _ & Hmn & _). discriminate.
Qed.

End Ways.

Section Generic.
Context {CO : Collaborators}.

(** X12: a shape tagged ["Rectangle"] is seeded by two requests of
    [neurons] samples each, the abscissas first and then the ordinates,
    from the bounds of the shape clipped by the bounds given and moved in
    by [soma_radius]; no candidate is ever tested against the geometry, no
    object is created or changed, and exactly [2 * neurons] samples are
    consumed. *)
Theorem rectangle_is_seeded_without_rejection (w : world) (fuel : nat) (self : loc)
    (s : instance) (neurons : option nat) (n : nat)
    (xmin xmax ymin ymax : option float) (soma_radius b1 b2 b3 b4 : float) :
  heap w !! self = Some (CInst s) -> count_available w s neurons n ->
  i_geom_type s = "Rectangle" -> bounds (i_geom s) = Some (b1, b2, b3, b4) ->
  finite_range (rect_low xmin b1 soma_radius) (rect_high xmax b3 soma_radius) = true ->
  finite_range (rect_low ymin b2 soma_radius) (rect_high ymax b4 soma_radius) = true ->
  ∃ ps w',
    Shape_seed_neurons fuel self neurons VNone xmin xmax ymin ymax soma_radius None w
    = (Ok ps, w')
    ∧ length ps = n
    ∧ (∀ i, (i < n)%nat ->
         ps !! i
         = Some (F.add (rect_low xmin b1 soma_radius)
                       (F.mul (F.sub (rect_high xmax b3 soma_radius)
                                     (rect_low xmin b1 soma_radius))
                              (rng_stream w (rng_pos w + i))),
                 F.add (rect_low ymin b2 soma_radius)
                       (F.mul (F.sub (rect_high ymax b4 soma_radius)
                                     (rect_low ymin b2 soma_radius))
                              (rng_stream w (rng_pos w + n + i)))))
    ∧ heap w' = heap w ∧ graphs w' = graphs w
    ∧ rng_pos w' = (rng_pos w + n + n)%nat
    ∧ rng_log w'
      = (rng_log w
         ++ [(rect_low xmin b1 soma_radius, rect_high xmax b3 soma_radius, n);
             (rect_low ymin b2 soma_radius, rect_high ymax b4 soma_radius, n)])%list.
Proof.
  intros Hs Hn Ht Hb Hfx Hfy. eexists _, _. split.
  { unfold Shape_seed_neurons.
    rewrite (bind_ok _ _ _ _ _ (read_inst_some _ _ _ Hs)).
    rewrite (bind_ok _ _ _ _ _ (seed_count_ok _ _ _ _ Hn)).
    cbn [is_None]. cbv zeta. rewrite Hb, Ht.
    change (bool_decide ("Rectangle" = "Rectangle")) with true. cbv iota.
    rewrite (bind_ok _ _ _ _ _ (seed_rectangle_spec _ _ _ _ _ _ _ Hfx Hfy)). reflexivity. }
  fold (clip_min xmin b1) (clip_min ymin b2) (clip_max xmax b3) (clip_max ymax b4).
  fold (rect_low xmin b1 soma_radius) (rect_low ymin b2 soma_radius)
       (rect_high xmax b3 soma_radius) (rect_high ymax b4 soma_radius).
  split.
  { rewrite convert_unit_None.
    etransitivity; [apply zip_length_same|]; rewrite !samples_length; reflexivity. }
  split.
  { intros i Hi. rewrite convert_unit_None.
    etransitivity; [apply lookup_zip_with|].
    rewrite !samples_lookup by exact Hi. reflexivity. }
  split; [reflexivity|]. split; [reflexivity|]. split; [reflexivity|].
  simpl. now rewrite <- app_assoc.
Qed.

(** X20: a shape tagged ["Disk"] that is called with four bounds equal to
    its own goes the way of polar coordinates, and fails on it: the angles
    are requested from [(0, 2*pi)], then the samples of the radii from
    [(0, 0.99)], [neurons] of each and no more, and [self.centroid[0]]
    raises [TypeError], a [Point] being no sequence.  No position is
    returned, and nothing is created or changed. *)
Theorem disk_with_its_bounds_raises_TypeError (w : world) (fuel : nat)
    (self : loc) (s : instance) (neurons : option nat) (n : nat)
    (xmin xmax ymin ymax : option float) (soma_radius radius : float)
    (unit : option string) :
  heap w !! self = Some (CInst s) -> count_available w s neurons n ->
  disk_way s xmin xmax ymin ymax = true -> i_radius s = Some radius ->
  ∃ w',
    Shape_seed_neurons fuel self neurons VNone xmin xmax ymin ymax soma_radius unit w
    = (Raise (TypeError "'Point' object is not subscriptable"), w')
    ∧ heap w' = heap w ∧ graphs w' = graphs w
    ∧ rng_pos w' = (rng_pos w + n + n)%nat
    ∧ rng_log w'
      = (rng_log w ++ [(F.zero, F.mul F.two F.pi, n); (F.zero, F.c0_99, n)])%list.
Proof.
  intros Hs Hn Hd HR. eexists. split.
  { unfold Shape_seed_neurons.
    rewrite (bind_ok _ _ _ _ _ (read_inst_some _ _ _ Hs)).
    rewrite (bind_ok _ _ _ _ _ (seed_count_ok _ _ _ _ Hn)).
    cbn [is_None]. cbv zeta. unfold disk_way in Hd.
    apply andb_prop in Hd. destruct Hd as [Ht Hb].
    destruct (bounds (i_geom s)) as [[[[b1 b2] b3] b4]|] eqn:Eb; [|discriminate].
    rewrite Hb, Ht. apply bool_decide_eq_true in Ht. rewrite Ht.
    change (bool_decide ("Disk" = "Rectangle")) with false. cbv iota. cbn [andb].
    apply bind_raise. exact (seed_disk_spec _ _ _ _ _ HR). }
  split; [reflexivity|]. split; [reflexivity|]. split; [reflexivity|].
  simpl. now rewrite <- app_assoc.
Qed.

(** The call of a shape that is seeded by rejection, up to the loop. *)
Lemma seed_neurons_generic_path w fuel self s n neurons xmin xmax ymin ymax soma unit
    b1 b2 b3 b4 :
  heap w !! self = Some (CInst s) -> count_available w s neurons n ->
  bounds (i_geom s) = Some (b1, b2, b3, b4) ->
  generic_way s xmin xmax ymin ymax = true ->
  Shape_seed_neurons fuel self neurons VNone xmin xmax ymin ymax soma unit w
  = (box ← bounding_box (clip_min xmin b1) (clip_min ymin b2)
                        (clip_max xmax b3) (clip_max ymax b4);
     ps ← seed_custom fuel s
            (mkFrame (Some (clip_min xmin b1)) (Some (clip_min ymin b2))
                     (Some (clip_max xmax b3)) (Some (clip_max ymax b4)) (VRef box))
            soma n;
     ret (convert_unit s unit ps)) w.
Proof.
  intros Hs Hn Hb Hg. unfold Shape_seed_neurons.
  rewrite (bind_ok _ _ _ _ _ (read_inst_some _ _ _ Hs)).
  rewrite (bind_ok _ _ _ _ _ (seed_count_ok _ _ _ _ Hn)).
  cbn [is_None]. cbv zeta. rewrite Hb.
  unfold generic_way, rectangle_way, disk_way in Hg. rewrite Hb in Hg.
  apply andb_prop in Hg. destruct Hg as [Hr Hd].
  apply negb_true_iff in Hr, Hd. rewrite Hr, Hd.
  unfold clip_min, clip_max, mbind, M_bind, bind.
  destruct (bounding_box _ _ _ _ w) as [[box|e|] w1]; reflexivity.
Qed.

Lemma bounding_box_ok min_x min_y max_x max_y w :
  nan_point (min_x, min_y) = false ->
  bounding_box min_x min_y max_x max_y w
  = (Ok (fresh_loc (heap w)),
     set_heap (<[fresh_loc (heap w):=
                   CInst (bare_polygon (box_polygon min_x min_y max_x max_y))]> (heap w))
              w).
Proof.
  intros Hn. unfold bounding_box, Polygon_new, ring_ok. cbn [starts_nan length].
  rewrite Hn. reflexivity.
Qed.

Lemma bounding_box_nan min_x min_y max_x max_y w :
  nan_point (min_x, min_y) = true ->
  bounding_box min_x min_y max_x max_y w = (Raise (ValueError ring_msg), w).
Proof.
  intros Hn. unfold bounding_box, Polygon_new, ring_ok. cbn [starts_nan length].
  rewrite Hn. reflexivity.
Qed.

Lemma bounding_box_inv min_x min_y max_x max_y w box w1 :
  bounding_box min_x min_y max_x max_y w = (Ok box, w1) ->
  heap w !! box = None
  ∧ grown w w1
  ∧ as_geom (VRef box) w1 = (Ok (box_polygon min_x min_y max_x max_y), w1).
Proof.
  destruct (nan_point (min_x, min_y)) eqn:Hn.
  { rewrite bounding_box_nan by exact Hn. discriminate. }
  rewrite bounding_box_ok by exact Hn. intros [= <- <-].
  split; [apply fresh_loc_None|]. split.
  - split; [|repeat split]. simpl. apply insert_subseteq, fresh_loc_None.
  - erewrite as_geom_some by (simpl; apply lookup_insert_eq). reflexivity.
Qed.

(** X14: when a shape that is seeded by rejection returns positions, it
    returns exactly the count of them, and each one was accepted by
    [contains] of the seed area, which is the intersection of the shape
    with the clipped bounding box, eroded by [soma_radius] and then
    rescaled by [from_polygon] to the bounds [min_x + soma_radius] and
    [max_x - soma_radius]. *)
Theorem generic_seeding_returns_accepted_points (w : world) (fuel : nat) (self : loc)
    (s : instance) (neurons : option nat) (n : nat)
    (xmin xmax ymin ymax : option float) (soma_radius b1 b2 b3 b4 : float)
    (ps : list point) (w' : world) :
  heap w !! self = Some (CInst s) -> count_available w s neurons n ->
  bounds (i_geom s) = Some (b1, b2, b3, b4) ->
  generic_way s xmin xmax ymin ymax = true ->
  Shape_seed_neurons fuel self neurons VNone xmin xmax ymin ymax soma_radius None w
  = (Ok ps, w') ->
  ∃ eroded,
    geom_buffer
      (geom_intersection (i_geom s)
         (box_polygon (clip_min xmin b1) (clip_min ymin b2)
                      (clip_max xmax b3) (clip_max ymax b4)))
      (F.opp soma_radius) = GPolygon eroded
    ∧ length ps = n
    ∧ Forall (λ pt, geom_contains
                      (seed_region eroded (clip_min xmin b1) (clip_max xmax b3)
                                   soma_radius) pt = true) ps.
Proof.
  intros Hs Hn Hb Hg.
  rewrite (seed_neurons_generic_path _ _ _ _ _ _ _ _ _ _ _ _ _ _ _ _ Hs Hn Hb Hg).
  intros H. apply bind_inv in H. destruct H as (box & w1 & Hbox & H).
  apply bounding_box_inv in Hbox. destruct Hbox as (_ & _ & Hgeom).
  apply bind_inv in H. destruct H as (ps0 & w2 & Hc & H).
  injection H as <- <-. rewrite ?convert_unit_None.
  apply seed_custom_inv in Hc.
  destruct Hc as (c & mn & mx & e & w3 & Hc & Hmn & Hmx & He & Hloop).
  cbn [f_container f_min_x f_max_x] in Hc, Hmn, Hmx. rewrite Hgeom in Hc.
  injection Hc as <-. injection Hmn as <-. injection Hmx as <-.
  exists e. split; [exact He|].
  apply rejection_loop_sound in Hloop; [exact Hloop | simpl; lia | constructor].
Qed.

(** X16: when the erosion of the seed area is not a single polygon, a
    shape that is seeded by rejection in a box none of whose corners is NaN
    raises the [AssertionError] of [from_polygon],
    ["Expected a Polygon object."], whatever its own [ValueError] about
    boundary values says; no sample has been drawn, and no object that
    existed has been changed.  When the first corner of the box,
    [(min_x, min_y)], is NaN, the box is not even built: [Polygon] raises
    [ValueError], and nothing has been created. *)
Theorem split_seed_area_raises_AssertionError (w : world) (fuel : nat) (self : loc)
    (s : instance) (neurons : option nat) (n : nat)
    (xmin xmax ymin ymax : option float) (soma_radius b1 b2 b3 b4 : float)
    (unit : option string) :
  heap w !! self = Some (CInst s) -> count_available w s neurons n ->
  bounds (i_geom s) = Some (b1, b2, b3, b4) ->
  generic_way s xmin xmax ymin ymax = true ->
  geom_buffer
    (geom_intersection (i_geom s)
       (box_polygon (clip_min xmin b1) (clip_min ymin b2)
                    (clip_max xmax b3) (clip_max ymax b4)))
    (F.opp soma_radius) = GOther ->
  (forallb (λ pt, negb (nan_point pt))
           (exterior (box_polygon (clip_min xmin b1) (clip_min ymin b2)
                                  (clip_max xmax b3) (clip_max ymax b4))) = true ->
   ∃ w',
     Shape_seed_neurons fuel self neurons VNone xmin xmax ymin ymax soma_radius unit w
     = (Raise (AssertionError "Expected a Polygon object."), w')
     ∧ grown w w')
  ∧ (nan_point (clip_min xmin b1, clip_min ymin b2) = true ->
     Shape_seed_neurons fuel self neurons VNone xmin xmax ymin ymax soma_radius unit w
     = (Raise (ValueError ring_msg), w)).
Proof.
  intros Hs Hn Hb Hg He.
  rewrite (seed_neurons_generic_path _ _ _ _ _ _ _ _ _ _ _ _ _ _ _ _ Hs Hn Hb Hg).
  split.
  - intros Hbox. cbn [box_polygon exterior forallb] in Hbox.
    apply andb_prop in Hbox. destruct Hbox as [Hbox _].
    apply negb_true_iff in Hbox.
    pose proof (bounding_box_ok _ _ (clip_max xmax b3) (clip_max ymax b4) w Hbox) as Hok.
    pose proof Hok as Hinv. apply bounding_box_inv in Hinv.
    destruct Hinv as (_ & Hgr & Hgeom).
    eexists. split; [|exact Hgr].
    rewrite (bind_ok _ _ _ _ _ Hok). apply bind_raise.
    unfold seed_custom. cbn [f_container f_min_x f_max_x].
    rewrite (bind_ok _ _ _ _ _ Hgeom). cbv zeta. rewrite He. reflexivity.
  - intros Hnan. apply bind_raise. now apply bounding_box_nan.
Qed.

(** X15: the [while] loop of the rejection sampling, once the ranges can
    be served.  With an area that accepts no candidate it never ends
    while a position is missing: however many turns it is given, it has
    neither returned nor raised.  With an area that accepts every
    candidate it returns after one turn, with the candidates of that turn
    in the order drawn. *)
Theorem rejection_loop_ends_by_acceptance_only (area : Polygon)
    (min_x min_y max_x max_y : float) (container : pyval) (n : nat) (w : world) :
  finite_range min_x max_x = true -> finite_range min_y max_y = true ->
  ((∀ pt, geom_contains area pt = false) ->
   ∀ fuel pts w1, (length pts < n)%nat ->
     (rejection_loop fuel area
        (mkFrame (Some min_x) (Some min_y) (Some max_x) (Some max_y) container)
        n pts w1).1 = Stuck)
  ∧ ((∀ pt, geom_contains area pt = true) ->
     ∀ fuel,
       rejection_loop (S fuel) area
         (mkFrame (Some min_x) (Some min_y) (Some max_x) (Some max_y) container)
         n [] w
       = (Ok (zip (samples min_x max_x n w)
                  (samples min_y max_y n (advance min_x max_x n w))),
          if (0 <? n)%nat then advance min_y max_y n (advance min_x max_x n w)
          else w)).
Proof.
  intros Hfx Hfy. split.
  - intros Hno fuel. induction fuel as [|fuel IH]; intros pts w1 Hlt.
    + cbn [rejection_loop]. apply Nat.ltb_lt in Hlt. now rewrite Hlt.
    + rewrite rejection_loop_turn by assumption. rewrite accept_none by exact Hno.
      now apply IH.
  - intros Hall fuel. destruct n as [|n].
    + now rewrite rejection_loop_done by (simpl; lia).
    + rewrite rejection_loop_turn by (assumption || (simpl; lia)).
      rewrite accept_all by exact Hall. cbn [length app]. rewrite Nat.sub_0_r.
      apply rejection_loop_done.
      etransitivity; [|apply Nat.eq_le_incl; symmetry; apply zip_length_same];
        rewrite !samples_length; reflexivity.
Qed.

(** ** [seed_neurons]: what is left alone *)

Lemma over_bounding_box w0 Q a b c d :
  heap_blind Q -> keeps (over w0 Q) (bounding_box a b c d) (λ _, True).
Proof.
  intros HQ. unfold bounding_box.
  eapply keeps_bind; [apply keeps_reader, Polygon_new_frame|]. intros g _.
  eapply keeps_weaken; [apply over_alloc, HQ | trivial].
Qed.

Lemma drawn_uniform w0 low high n : keeps (drawn w0) (uniform low high n) (λ _, True).
Proof.
  intros w Hw. unfold uniform.
  destruct (finite_range low high); [|split; [exact Hw | discriminate]].
  destruct Hw as (Hsub & Hg & Hst & Hpos & Hlog). split; [|trivial].
  split; [exact Hsub|]. unfold sampled, advance. cbn [snd graphs rng_stream rng_pos rng_log].
  split; [exact Hg|]. split; [exact Hst|]. split; [lia|].
  now apply prefix_app_r.
Qed.

Lemma drawn_rejection_loop w0 fuel area fr n :
  ∀ pts, keeps (drawn w0) (rejection_loop fuel area fr n pts) (λ _, True).
Proof.
  induction fuel as [|fuel IH]; intros pts; cbn [rejection_loop];
    destruct (length pts <? n)%nat; try (now apply keeps_ret); [apply keeps_stuck|].
  eapply keeps_bind; [apply keeps_reader, load_local_frame|]. intros min_x _.
  eapply keeps_bind; [apply keeps_reader, load_local_frame|]. intros max_x _.
  eapply keeps_bind; [apply drawn_uniform|]. intros new_x _.
  eapply keeps_bind; [apply keeps_reader, load_local_frame|]. intros min_y _.
  eapply keeps_bind; [apply keeps_reader, load_local_frame|]. intros max_y _.
  eapply keeps_bind; [apply drawn_uniform|]. intros new_y _.
  apply IH.
Qed.

Lemma drawn_seed_custom w0 fuel s fr soma n :
  keeps (drawn w0) (seed_custom fuel s fr soma n) (λ _, True).
Proof.
  unfold seed_custom.
  eapply keeps_bind; [apply keeps_reader, as_geom_frame|]. intros c _. cbv zeta.
  eapply keeps_bind; [apply keeps_reader, load_local_frame|]. intros min_x _.
  eapply keeps_bind; [apply keeps_reader, load_local_frame|]. intros max_x _.
  eapply keeps_bind; [apply over_Shape_from_polygon, sampled_blind|]. intros seed _.
  eapply keeps_bind; [apply keeps_reader, read_inst_frame|]. intros so _.
  apply drawn_rejection_loop.
Qed.

Lemma drawn_seed_neurons w0 fuel self neurons container xmin xmax ymin ymax soma unit :
  keeps (drawn w0)
        (Shape_seed_neurons fuel self neurons container xmin xmax ymin ymax soma unit)
        (λ _, True).
Proof.
  unfold Shape_seed_neurons.
  eapply keeps_bind; [apply keeps_reader, read_inst_frame|]. intros s _.
  eapply keeps_bind; [apply keeps_reader, seed_count_frame|]. intros n _.
  eapply keeps_bind; [|intros ps _; now apply keeps_ret].
  destruct (is_None container); [|apply drawn_seed_custom]. cbv zeta.
  destruct (bounds (i_geom s)) as [[[[b1 b2] b3] b4]|]; [|apply keeps_raise].
  destruct (bool_decide _).
  { unfold seed_rectangle.
    eapply keeps_bind; [apply drawn_uniform|]. intros xx _.
    eapply keeps_bind; [apply drawn_uniform|]. intros yy _. now apply keeps_ret. }
  destruct (_ && _).
  { unfold seed_disk.
    eapply keeps_bind; [apply drawn_uniform|]. intros theta _.
    eapply keeps_bind; [apply keeps_reader, getattr_frame|]. intros radius _.
    eapply keeps_bind; [apply drawn_uniform|]. intros u _. apply keeps_raise. }
  eapply keeps_bind; [apply over_bounding_box, sampled_blind|]. intros box _.
  apply drawn_seed_custom.
Qed.

(** X17: [seed_neurons] never changes or removes an object that existed
    before the call, the shape it is called on included, nor a parent
    graph: however the call ends, and on whichever way it seeds, all it
    does to the world is create objects and draw samples. *)
Theorem seed_neurons_only_creates_and_draws (w : world) (fuel : nat) (self : loc)
    (neurons : option nat) (container : pyval) (xmin xmax ymin ymax : option float)
    (soma_radius : float) (unit : option string) :
  drawn w (Shape_seed_neurons fuel self neurons container xmin xmax ymin ymax
                              soma_radius unit w).2.
Proof. apply drawn_seed_neurons, drawn_refl. Qed.

End Generic.

(** ** [set_parent], [parent] and [unit] *)

Section Parent.
Context {CO : Collaborators}.

(** X18: [set_parent] then [parent] gives back what was set, [None]
    included; the unit, the geometry and the areas of the shape are as
    before and no other object is touched; a second [set_parent]
    overrides the first; and after [set_parent(None)] a call of
    [seed_neurons] without [neurons] raises [ValueError]. *)
Theorem set_parent_then_parent (w : world) (self : loc) (s : instance)
    (p : option nat) :
  heap w !! self = Some (CInst s) -> is_Shape_class (i_class s) = true ->
  ∃ w',
    Shape_set_parent self p w = (Ok tt, w')
    ∧ Shape_parent self w' = (Ok p, w')
    ∧ Shape_unit self w' = (Ok (i_unit s), w')
    ∧ heap w' !! self = Some (CInst (set_parent_attr p s))
    ∧ (∀ l, l ≠ self -> heap w' !! l = heap w !! l)
    ∧ quiet w w'
    ∧ (∀ q, (Shape_set_parent self q ≫= λ _, Shape_set_parent self p) w = (Ok tt, w'))
    ∧ (p = None ->
       ∀ fuel container xmin xmax ymin ymax soma_radius unit,
         Shape_seed_neurons fuel self None container xmin xmax ymin ymax soma_radius
                            unit w'
         = (Raise (ValueError "`neurons` cannot be None if `parent` is None."), w')).
Proof.
  intros Hs Hc.
  assert (Hset : ∀ q, Shape_set_parent self q w
                      = (Ok tt, set_heap (<[self:=CInst (set_parent_attr q s)]> (heap w)) w)).
  { intros q. unfold Shape_set_parent.
    rewrite (bind_ok _ _ _ _ _ (read_inst_some _ _ _ Hs)), Hc. reflexivity. }
  eexists. split; [apply Hset|].
  assert (Hs' : heap (set_heap (<[self:=CInst (set_parent_attr p s)]> (heap w)) w) !! self
                = Some (CInst (set_parent_attr p s))) by apply lookup_insert_eq.
  split.
  { unfold Shape_parent. rewrite (bind_ok _ _ _ _ _ (read_inst_some _ _ _ Hs')).
    cbn [set_parent_attr i_class i_parent]. now rewrite Hc. }
  split.
  { unfold Shape_unit. rewrite (bind_ok _ _ _ _ _ (read_inst_some _ _ _ Hs')).
    cbn [set_parent_attr i_class i_unit]. now rewrite Hc. }
  split; [exact Hs'|]. split.
  { intros l Hl. simpl. now rewrite lookup_insert_ne by congruence. }
  split; [repeat split|]. split.
  - intros q. rewrite (bind_ok _ _ _ _ _ (Hset q)). unfold Shape_set_parent.
    erewrite (bind_ok (read_inst self)) by (apply read_inst_some, lookup_insert_eq).
    cbn [set_parent_attr i_class]. rewrite Hc. unfold write_cell, set_heap. simpl.
    now rewrite insert_insert_eq.
  - intros -> fuel container xmin xmax ymin ymax soma unit.
    unfold Shape_seed_neurons.
    rewrite (bind_ok _ _ _ _ _ (read_inst_some _ _ _ Hs')).
    apply bind_raise. now apply seed_count_missing.
Qed.

(** ** [areas] on a region that was just built *)

Lemma copy_entries_of_atoms n (l : list (string * pyval)) st :
  Forall (λ kv : string * pyval, val_loc kv.2 = None) l ->
  copy_entries (deepcopy_val n) l st = Ok (l, st).
Proof.
  induction l as [|[k v] l IH]; intros H; [reflexivity|].
  apply Forall_cons in H. destruct H as [Hv Hl]. simpl in Hv.
  unfold copy_entries. fold copy_entries.
  assert (Hc : deepcopy_val n v st = Ok (v, st)).
  { destruct v; try discriminate; destruct n; reflexivity. }
  now rewrite Hc, IH.
Qed.

Lemma deepcopy_flat_dict w d (m : gmap string pyval) :
  heap w !! d = Some (CDict m) -> (∀ k v, m !! k = Some v -> val_loc v = None) ->
  deepcopy (VRef d) w
  = (Ok (VRef (fresh_loc (heap w))),
     set_heap (<[fresh_loc (heap w):=CDict m]> (heap w)) w).
Proof.
  intros Hd Hm. unfold deepcopy. cbn [deepcopy_val fst snd].
  rewrite lookup_empty, Hd, copy_entries_of_atoms.
  - cbn [fst snd]. now rewrite list_to_map_to_list, insert_insert_eq.
  - apply Forall_forall. intros [k v] Hin. apply elem_of_map_to_list in Hin.
    simpl. eauto.
Qed.

Lemma areas_of_flat w self region d (m : gmap string pyval) :
  heap w !! self = Some (CInst region) -> is_Area_class (i_class region) = false ->
  i_areas region = Some d -> heap w !! d = Some (CDict m) ->
  (∀ k v, m !! k = Some v -> val_loc v = None) ->
  Shape_areas self w
  = (Ok (VRef (fresh_loc (heap w))),
     set_heap (<[fresh_loc (heap w):=CDict m]> (heap w)) w).
Proof.
  intros Hs Hc Ha Hd Hm. unfold Shape_areas.
  rewrite (bind_ok _ _ _ _ _ (read_inst_some _ _ _ Hs)), Hc, Ha.
  now apply deepcopy_flat_dict.
Qed.

(** X19: on a region that a constructor has just returned, [areas] gives
    a new dictionary [{"default_area": None}]; a second read gives
    another new dictionary with the same content, and leaves the first one
    as it is. *)
Theorem areas_of_a_fresh_region (c : ctor_call) (unit : string) (parent : option nat)
    (default_properties : pyval) (w w' : world) (s : loc) :
  construct c unit parent default_properties w = (Ok s, w') ->
  ∃ d1 w1 d2 w2,
    Shape_areas s w' = (Ok (VRef d1), w1)
    ∧ heap w' !! d1 = None
    ∧ heap w1 !! d1 = Some (CDict {["default_area" := VNone]})
    ∧ Shape_areas s w1 = (Ok (VRef d2), w2)
    ∧ d2 ≠ d1
    ∧ heap w2 !! d2 = Some (CDict {["default_area" := VNone]})
    ∧ heap w2 !! d1 = Some (CDict {["default_area" := VNone]}).
Proof.
  intros Hc. apply construct_inv in Hc.
  destruct Hc as (_ & region & u & (a & pr & d & Hs & Ha & Hpr & Hd & Hnd & Har & ->) & Hcl).
  apply NoDup4_inv in Hnd. destruct Hnd as (Hsd & Hsa & Hspr & Hda & Hdpr & Hapr).
  set (w' := set_heap _ w).
  assert (Hatoms : ∀ k v, ({["default_area" := VNone]} : gmap string pyval) !! k = Some v
                          -> val_loc v = None).
  { intros k v Hk. apply lookup_singleton_Some in Hk. destruct Hk as [_ <-]. reflexivity. }
  assert (Hs' : heap w' !! s = Some (CInst region)) by apply lookup_insert_eq.
  assert (Hd' : heap w' !! d = Some (CDict {["default_area" := VNone]})).
  { unfold w'. simpl. rewrite lookup_insert_ne by congruence. apply lookup_insert_eq. }
  assert (Hnot : is_Area_class (i_class region) = false) by now rewrite Hcl.
  pose proof (areas_of_flat w' s region d _ Hs' Hnot Har Hd' Hatoms) as H1.
  pose proof (fresh_loc_None (heap w')) as Hn1. set (d1 := fresh_loc (heap w')) in *.
  set (w1 := set_heap (<[d1:=CDict {["default_area" := VNone]}]> (heap w')) w') in *.
  assert (Hs1 : heap w1 !! s = Some (CInst region)).
  { unfold w1. simpl. rewrite lookup_insert_ne; [exact Hs' | congruence]. }
  assert (Hd1 : heap w1 !! d = Some (CDict {["default_area" := VNone]})).
  { unfold w1. simpl. rewrite lookup_insert_ne; [exact Hd' | congruence]. }
  assert (Hd11 : heap w1 !! d1 = Some (CDict {["default_area" := VNone]})).
  { unfold w1. simpl. apply lookup_insert_eq. }
  pose proof (areas_of_flat w1 s region d _ Hs1 Hnot Har Hd1 Hatoms) as H2.
  pose proof (fresh_loc_None (heap w1)) as Hn2. set (d2 := fresh_loc (heap w1)) in *.
  assert (Hne : d2 ≠ d1) by congruence.
  eexists d1, w1, d2, _. split; [exact H1|]. split; [exact Hn1|]. split; [exact Hd11|].
  split; [exact H2|]. split; [exact Hne|]. simpl.
  split; [apply lookup_insert_eq|]. now rewrite lookup_insert_ne by congruence.
Qed.

End Parent.

(** ** The further statements on concrete calls *)

Lemma disk_and_ellipse_are_rescaled_buffers_witness :
  ∃ s w' region,
    Shape_disk (CO:=Demo.coarse) ClsShape (F.of_Z 1) (Demo.pt 0 0) "um" None VNone
               Demo.w0 = (Ok s, w')
    ∧ heap w' !! s = Some (CInst region)
    ∧ i_geom_type region = "Disk" ∧ i_radius region = Some (F.of_Z 1).
Proof.
  destruct (disk_and_ellipse_are_rescaled_buffers (CO:=Demo.coarse) ClsShape
              (Demo.pt 0 0) "um" None VNone Demo.w0 I) as [Hdisk _].
  destruct (Hdisk (F.of_Z 1) _ eq_refl) as (s & w' & region & Hc & _ & Hs & Ht & Hr & _);
    [discriminate | vm_compute; reflexivity |].
  exists s, w', region. auto.
Defined.

Lemma seed_neurons_needs_a_count_witness :
  Shape_seed_neurons (CO:=Demo.coarse) 5 Demo.disk1 None (VStr "anything") None None
                     None None F.zero (Some "mm") Demo.w_disk
  = (Raise (ValueError "`neurons` cannot be None if `parent` is None."), Demo.w_disk).
Proof.
  apply (seed_neurons_needs_a_count (CO:=Demo.coarse) Demo.w_disk 5 Demo.disk1
           (Cases.inst_at Demo.w_disk Demo.disk1));
    vm_compute; reflexivity.
Defined.

Lemma parent_overrides_neurons_witness :
  Shape_seed_neurons (CO:=Demo.coarse) 0 Cases.child (Some 5) VNone None None None None
                     F.zero None Cases.w_child
  = Shape_seed_neurons (CO:=Demo.coarse) 0 Cases.child None VNone None None None None
                       F.zero None Cases.w_child.
Proof.
  apply (parent_overrides_neurons (CO:=Demo.coarse) Cases.w_child Cases.child
           (Cases.inst_at Cases.w_child Cases.child) 7%nat);
    vm_compute; reflexivity.
Defined.

Lemma seed_neurons_returns_the_count_witness :
  length (returned (Shape_seed_neurons (CO:=Demo.coarse) 0 Cases.child (Some 5) VNone
                      None None None None F.zero None Cases.w_child)) = 3%nat.
Proof.
  apply (seed_neurons_returns_the_count (CO:=Demo.coarse) Cases.w_child 0 Cases.child
           (Cases.inst_at Cases.w_child Cases.child) (Some 5%nat) 3 VNone None None None
           None F.zero None _
           (Shape_seed_neurons (CO:=Demo.coarse) 0 Cases.child (Some 5%nat) VNone None
              None None None F.zero None Cases.w_child).2);
    vm_compute; reflexivity.
Defined.

Lemma seed_neurons_unit_only_rescales_witness :
  Shape_seed_neurons (CO:=Demo.coarse) 0 Demo.fresh_s (Some 2%nat) VNone None None None
                     None F.zero (Some "mm") Demo.w_fresh
  = map_outcome
      (λ ps, map (λ pt : point,
                    (F.mul pt.1 (@conversion_magnitude Demo.coarse "mm" "um"),
                     F.mul pt.2 (@conversion_magnitude Demo.coarse "mm" "um"))) ps)
      (Shape_seed_neurons (CO:=Demo.coarse) 0 Demo.fresh_s (Some 2%nat) VNone None None
                          None None F.zero None Demo.w_fresh).
Proof.
  apply (seed_neurons_unit_only_rescales (CO:=Demo.coarse) Demo.w_fresh 0 Demo.fresh_s
           (Cases.inst_at Demo.w_fresh Demo.fresh_s) (Some 2%nat) VNone None None None
           None F.zero "mm").
  vm_compute. reflexivity.
Defined.

Lemma rectangle_is_seeded_without_rejection_witness :
  ∃ ps w',
    Shape_seed_neurons (CO:=Demo.coarse) 0 Demo.fresh_s (Some 2%nat) VNone None None None
                       None F.zero None Demo.w_fresh = (Ok ps, w')
    ∧ length ps = 2%nat ∧ heap w' = heap Demo.w_fresh
    ∧ rng_pos w' = (rng_pos Demo.w_fresh + 2 + 2)%nat.
Proof.
  destruct (rectangle_is_seeded_without_rejection (CO:=Demo.coarse) Demo.w_fresh 0
              Demo.fresh_s (Cases.inst_at Demo.w_fresh Demo.fresh_s) (Some 2%nat) 2
              None None None None F.zero (F.of_Z 0) (F.of_Z 0) (F.of_Z 4) (F.of_Z 4))
    as (ps & w' & Hc & Hlen & _ & Hh & _ & Hpos & _); [vm_compute; reflexivity .. |].
  exists ps, w'. auto.
Defined.

Lemma disk_with_its_bounds_raises_TypeError_witness :
  ∃ w',
    Shape_seed_neurons (CO:=Demo.coarse) 5 Demo.disk1 (Some 2%nat) VNone
      (Some (F.of_Z (-1))) (Some (F.of_Z 1)) (Some (F.of_Z (-1)))
      (Some (F.of_Z 1)) F.zero None Demo.w_disk
    = (Raise (TypeError "'Point' object is not subscriptable"), w')
    ∧ heap w' = heap Demo.w_disk ∧ graphs w' = graphs Demo.w_disk
    ∧ rng_pos w' = (rng_pos Demo.w_disk + 2 + 2)%nat
    ∧ rng_log w'
      = (rng_log Demo.w_disk
         ++ [(F.zero, F.mul F.two F.pi, 2%nat); (F.zero, F.c0_99, 2%nat)])%list.
Proof.
  apply (disk_with_its_bounds_raises_TypeError (CO:=Demo.coarse) Demo.w_disk 5
           Demo.disk1 (Cases.inst_at Demo.w_disk Demo.disk1) (Some 2%nat) 2
           (Some (F.of_Z (-1))) (Some (F.of_Z 1)) (Some (F.of_Z (-1)))
           (Some (F.of_Z 1)) F.zero (F.of_Z 1) None);
    vm_compute; reflexivity.
Defined.

Lemma generic_seeding_returns_accepted_points_witness :
  length (returned (Shape_seed_neurons (CO:=Demo.coarse) 1 Demo.fresh_g (Some 2%nat)
                      VNone None None None None F.zero None Demo.w_fresh)) = 2%nat.
Proof.
  destruct (generic_seeding_returns_accepted_points (CO:=Demo.coarse) Demo.w_fresh 1
              Demo.fresh_g (Cases.inst_at Demo.w_fresh Demo.fresh_g) (Some 2%nat) 2
              None None None None F.zero (F.of_Z 1) (F.of_Z 1) (F.of_Z 2) (F.of_Z 2)
              (returned (Shape_seed_neurons (CO:=Demo.coarse) 1 Demo.fresh_g
                           (Some 2%nat) VNone None None None None F.zero None
                           Demo.w_fresh))
              (Shape_seed_neurons (CO:=Demo.coarse) 1 Demo.fresh_g (Some 2%nat) VNone
                 None None None None F.zero None Demo.w_fresh).2)
    as (e & _ & Hlen & _); [vm_compute; reflexivity .. | exact Hlen].
Defined.

Lemma split_seed_area_raises_AssertionError_witness :
  ∃ w',
    Shape_seed_neurons (CO:=Cases.splitting) 1 Demo.fresh_g (Some 2%nat) VNone None None
                       None None F.zero None Demo.w_fresh
    = (Raise (AssertionError "Expected a Polygon object."), w')
    ∧ grown Demo.w_fresh w'.
Proof.
  destruct (split_seed_area_raises_AssertionError (CO:=Cases.splitting) Demo.w_fresh 1
              Demo.fresh_g (Cases.inst_at Demo.w_fresh Demo.fresh_g) (Some 2%nat) 2 None
              None None None F.zero (F.of_Z 1) (F.of_Z 1) (F.of_Z 2) (F.of_Z 2) None)
    as [Hraise _]; [vm_compute; reflexivity .. |].
  apply Hraise. vm_compute. reflexivity.
Defined.

Lemma rejection_loop_ends_by_acceptance_only_witness :
  (rejection_loop (CO:=Demo.coarse) 100 empty_polygon
     (mkFrame (Some (F.of_Z 0)) (Some (F.of_Z 0)) (Some (F.of_Z 1)) (Some (F.of_Z 1))
              VNone) 2 [] Demo.w0).1 = Stuck.
Proof.
  destruct (rejection_loop_ends_by_acceptance_only (CO:=Demo.coarse) empty_polygon
              (F.of_Z 0) (F.of_Z 0) (F.of_Z 1) (F.of_Z 1) VNone 2 Demo.w0
              eq_refl eq_refl) as [Hnever _].
  apply Hnever; [reflexivity | simpl; lia].
Defined.

Lemma set_parent_then_parent_witness :
  ∃ w',
    Shape_set_parent Demo.fresh_s (Some 7%nat) Demo.w_fresh = (Ok tt, w')
    ∧ Shape_parent Demo.fresh_s w' = (Ok (Some 7%nat), w').
Proof.
  destruct (set_parent_then_parent (CO:=Demo.coarse) Demo.w_fresh Demo.fresh_s
              (Cases.inst_at Demo.w_fresh Demo.fresh_s) (Some 7%nat))
    as (w' & Hset & Hget & _); [vm_compute; reflexivity .. |].
  exists w'. auto.
Defined.

Lemma areas_of_a_fresh_region_witness :
  ∃ d1 w1 d2 w2,
    Shape_areas 2%positive rect_speed_call.2 = (Ok (VRef d1), w1)
    ∧ heap rect_speed_call.2 !! d1 = None
    ∧ heap w1 !! d1 = Some (CDict {["default_area" := VNone]})
    ∧ Shape_areas 2%positive w1 = (Ok (VRef d2), w2)
    ∧ d2 ≠ d1
    ∧ heap w2 !! d2 = Some (CDict {["default_area" := VNone]})
    ∧ heap w2 !! d1 = Some (CDict {["default_area" := VNone]}).
Proof.
  apply (areas_of_a_fresh_region (CO:=Demo.coarse)
           (Rectangle (F.of_Z 4) (F.of_Z 4) (Demo.pt 2 2)) "um" None (VRef 1%positive)
           Demo.w_speed rect_speed_call.2 2%positive).
  vm_compute. reflexivity.
Defined.
